(** * CTH analysis module: a shallow embedding of [cth-analysis-module.js]

    The module scores five temporal phases of an event from nine
    socio-economic indicators and completes missing indicators from a
    table of historical epochs.

    Modelling choices.
    - A JavaScript number is an exact rational ([Q]) or [NaN].  A
      quotient by zero, which is an infinity or NaN in JavaScript, is not
      a rational: where the source divides by a quantity that the
      caller chooses, the quotient is taken by [num_div], which gives
      [None] on a zero divisor, so that a missing guard would show.
      Strings, arrays and functions are not part of the value universe.
    - Arithmetic is exact; the rounding of IEEE doubles is not modelled.
      A sum of numbers of mixed signs can round to the other side of 0,
      and a comparison with a threshold can be decided by the last
      digits: the theorems that depend on such a test say so in their
      hypotheses.
    - Objects live in a store ([heap]); a value of object type is a
      reference [JRef l] into it.  An object is a finite map from property
      names to values.  Property writes update the store in place, so that
      aliasing between the caller's data and the structure the pipeline
      works on is visible.
    - Code that can throw runs in a state-and-exception monad [M]. *)

From Stdlib Require Import QArith Qminmax Qround Qabs Lqa ZArith Lia.
From stdpp Require Import gmap strings list.

(** ** JavaScript values *)

Inductive jsval : Type :=
  | JUndefined
  | JNull
  | JBool (b : bool)
  | JNum (q : Q)
  | JNaN
  | JRef (l : nat).

Inductive jstype : Type := TUndefined | TObject | TBoolean | TNumber.

(** [typeof v]; note that [typeof null] is ['object']. *)
Definition typeof (v : jsval) : jstype :=
  match v with
  | JUndefined => TUndefined
  | JNull => TObject
  | JBool _ => TBoolean
  | JNum _ | JNaN => TNumber
  | JRef _ => TObject
  end.

Definition is_object_type (t : jstype) : bool :=
  match t with TObject => true | _ => false end.

(** ToBoolean: [undefined], [null], [false], [0] and [NaN] are falsy. *)
Definition truthy (v : jsval) : bool :=
  match v with
  | JUndefined | JNull | JNaN => false
  | JBool b => b
  | JNum q => negb (Qeq_bool q 0)
  | JRef _ => true
  end.

(** [v === undefined || v === null] *)
Definition nullish (v : jsval) : bool :=
  match v with JUndefined | JNull => true | _ => false end.

(** [v !== undefined] *)
Definition defined (v : jsval) : bool :=
  match v with JUndefined => false | _ => true end.

(** [v !== 0] *)
Definition not_zero (v : jsval) : bool :=
  match v with JNum q => negb (Qeq_bool q 0) | _ => true end.

(** ToNumber on the value universe; [None] stands for [NaN].  A plain
    object converts through the string ["[object Object]"], hence to NaN. *)
Definition ToNumber (v : jsval) : option Q :=
  match v with
  | JUndefined => None
  | JNull => Some 0%Q
  | JBool b => Some (if b then 1%Q else 0%Q)
  | JNum q => Some q
  | JNaN => None
  | JRef _ => None
  end.

(** ** Arithmetic on numbers

    A number that may be NaN is an optional rational, [None] standing for
    NaN. *)

Abbreviation num := (option Q).

(** A number as a value. *)
Definition of_num (a : num) : jsval :=
  match a with Some q => JNum q | None => JNaN end.

(** [a + b] and [a * b] on numbers; NaN propagates. *)
Definition num_add (a b : num) : num :=
  match a, b with Some x, Some y => Some (x + y)%Q | _, _ => None end.

Definition num_mul (a b : num) : num :=
  match a, b with Some x, Some y => Some (x * y)%Q | _, _ => None end.

(** [a / b].  The quotient by zero is an infinity or NaN, never a
    rational: it is [None]. *)
Definition num_div (a b : num) : num :=
  match a, b with
  | Some x, Some y => if Qeq_bool y 0 then None else Some (x / y)%Q
  | _, _ => None
  end.

(** [Math.min(a, b)] and [Math.max(a, b)]: NaN when an argument is NaN. *)
Definition num_min (a b : num) : num :=
  match a, b with Some x, Some y => Some (Qmin x y) | _, _ => None end.

Definition num_max (a b : num) : num :=
  match a, b with Some x, Some y => Some (Qmax x y) | _, _ => None end.

(** [a > b], [a >= b] and [a !== 0]; a comparison with NaN is false, and
    NaN is not 0. *)
Definition num_gt (a : num) (b : Q) : bool :=
  match a with Some x => negb (Qle_bool x b) | None => false end.

Definition num_ge (a : num) (b : Q) : bool :=
  match a with Some x => Qle_bool b x | None => false end.

Definition num_nonzero (a : num) : bool :=
  match a with Some x => negb (Qeq_bool x 0) | None => true end.

(** [(a + b) / 2].  With an object operand [+] concatenates strings and the
    quotient of the resulting text is NaN; otherwise both operands are
    converted by ToNumber and added. *)
Definition half_sum (a b : jsval) : jsval :=
  match a, b with
  | JRef _, _ | _, JRef _ => JNaN
  | _, _ =>
      match ToNumber a, ToNumber b with
      | Some x, Some y => JNum ((x + y) / 2)
      | _, _ => JNaN
      end
  end.

(** ** Objects and the store *)

Abbreviation obj := (gmap string jsval).
Abbreviation heap := (list (gmap string jsval)).

(** [o[k]] on the fields of an object: a missing property reads [undefined]. *)
Definition prop (o : obj) (k : string) : jsval := default JUndefined (o !! k).

(** The fields of the object a value refers to; a primitive has none. *)
Definition fields (h : heap) (v : jsval) : obj :=
  match v with
  | JRef l => default ∅ (h !! l)
  | _ => ∅
  end.

Inductive result (A : Type) : Type :=
  | Ok (a : A) (h : heap)
  | Throw (e : string).
Arguments Ok {A} a h.
Arguments Throw {A} e.

Definition M (A : Type) : Type := heap → result A.

Definition throw {A} (e : string) : M A := fun _ => Throw e.

#[global] Instance M_ret : MRet M := fun A (a : A) h => Ok a h.

#[global] Instance M_bind : MBind M := fun A B (f : A → M B) (m : M A) h =>
  match m h with
  | Ok a h' => f a h'
  | Throw e => Throw e
  end.

(** [{}] and object literals: a new object at a fresh location. *)
Definition alloc (o : obj) : M jsval :=
  fun h => Ok (JRef (length h)) (h ++ [o]).

(** [v[k]]: a TypeError on [undefined] and [null], [undefined] on the other
    primitives (none of the names read by this module is a prototype
    property). *)
Definition getProp (v : jsval) (k : string) : M jsval :=
  fun h =>
    match v with
    | JUndefined | JNull => Throw "TypeError"
    | _ => Ok (prop (fields h v) k) h
    end.

(** [v?.k] *)
Definition getPropOpt (v : jsval) (k : string) : M jsval :=
  if nullish v then mret JUndefined else getProp v k.

(** [v[k] = x]: in-place update of the object; silently ignored on a
    primitive (sloppy mode), a TypeError on [undefined] and [null]. *)
Definition setProp (v : jsval) (k : string) (x : jsval) : M unit :=
  fun h =>
    match v with
    | JUndefined | JNull => Throw "TypeError"
    | JRef l => Ok tt (alter (fun o : obj => <[k := x]> o) l h)
    | _ => Ok tt h
    end.

(** [{ ...v }]: the own enumerable properties of [v], copied. *)
Definition spread (v : jsval) : M obj := fun h => Ok (fields h v) h.

(** [for (const x of l) body] *)
Fixpoint forEach {A} (l : list A) (body : A → M unit) : M unit :=
  match l with
  | [] => mret tt
  | x :: rest => body x;; forEach rest body
  end.

(** ** Configuration and reference data *)

(** A weights object: four numbers, each of which may be NaN (a property
    that is missing reads [undefined], which is NaN in arithmetic). *)
Record weights : Type := { w_e : num; w_s : num; w_a : num; w_p : num }.

Definition DEFAULT_CTH_WEIGHTS : weights :=
  {| w_e := Some 0.4%Q; w_s := Some 0.3%Q; w_a := Some 0.15%Q; w_p := Some 0.15%Q |}.

Record limits : Type := { min : Q; max : Q }.

Definition INDICATOR_LIMITS : gmap string limits :=
  list_to_map
    [ ("gdpPerCapita", {| min := 500; max := 30000 |});
      ("giniIndex", {| min := 0.2; max := 0.7 |});
      ("politicalEventsCount", {| min := 0; max := 15 |});
      ("averageIncome", {| min := 100; max := 15000 |});
      ("literacyRate", {| min := 0.05; max := 1 |});
      ("lifeExpectancy", {| min := 25; max := 85 |});
      ("birthRate", {| min := 0.005; max := 0.06 |});
      ("populationDensity", {| min := 1; max := 2000 |});
      ("urbanizationRate", {| min := 0.05; max := 1 |}) ].

(** The limits of an indicator name that occurs literally in the source
    ([INDICATOR_LIMITS.gdpPerCapita] and the like). *)
Definition limits_of (name : string) : limits :=
  default {| min := 0; max := 0 |} (INDICATOR_LIMITS !! name).

(** An epoch of the reference table: its year range and the remaining
    properties, which are what [const { startYear, endYear, ...indicators }]
    keeps. *)
Record epoch : Type :=
  { startYear : Q; endYear : Q; indicators : gmap string jsval }.

Definition snapshot (gdp gini events income literacy life birth density urban : Q)
  : gmap string jsval :=
  list_to_map
    [ ("gdpPerCapita", JNum gdp); ("giniIndex", JNum gini);
      ("politicalEventsCount", JNum events); ("averageIncome", JNum income);
      ("literacyRate", JNum literacy); ("lifeExpectancy", JNum life);
      ("birthRate", JNum birth); ("populationDensity", JNum density);
      ("urbanizationRate", JNum urban) ].

(** Property order is insertion order, which [for ... in] follows. *)
Definition EPOCH_DATA_REFERENCE : list (string * epoch) :=
  [ ("antiquity",
      {| startYear := -3000; endYear := 500;
         indicators := snapshot 700 0.6 5 100 0.1 30 0.04 5 0.1 |});
    ("middleAges",
      {| startYear := 501; endYear := 1500;
         indicators := snapshot 900 0.55 7 200 0.15 35 0.035 10 0.15 |});
    ("earlyModern",
      {| startYear := 1501; endYear := 1800;
         indicators := snapshot 1500 0.5 8 300 0.25 40 0.03 20 0.25 |});
    ("industrialRevolution",
      {| startYear := 1801; endYear := 1900;
         indicators := snapshot 3000 0.48 10 600 0.4 45 0.025 50 0.4 |});
    ("20thCenturyEarly",
      {| startYear := 1901; endYear := 1950;
         indicators := snapshot 7000 0.45 12 1500 0.7 55 0.02 100 0.6 |});
    ("20thCenturyLate",
      {| startYear := 1951; endYear := 2000;
         indicators := snapshot 15000 0.4 10 4000 0.85 70 0.015 200 0.75 |});
    ("contemporary",
      {| startYear := 2001; endYear := 2025;
         indicators := snapshot 25000 0.35 8 8000 0.95 78 0.01 300 0.85 |}) ].

(** The snapshot returned when no epoch contains the year. *)
Definition FALLBACK_EPOCH_DATA : gmap string jsval :=
  snapshot 10000 0.45 8 3000 0.7 60 0.02 100 0.5.

(** ** Helper functions *)

(** [Math.max(min, Math.min(max, value))] *)
Definition clamp (lo hi v : Q) : Q := Qmax lo (Qmin hi v).

(** [normalizeIndicator]: the guard of the first line lets through exactly
    the numbers that are not NaN, that is the values [JNum v]. *)
Definition normalizeIndicator (value : jsval) (min max : Q) : Q :=
  match value with
  | JNum v =>
      let clampedValue := clamp min max v in
      if Qeq_bool (max - min) 0 then 0%Q
      else ((clampedValue - min) / (max - min))%Q
  | _ => 0%Q
  end.

(** [applyLimits] *)
Definition applyLimits (indicatorName : string) (value : jsval) : jsval :=
  match INDICATOR_LIMITS !! indicatorName, value with
  | Some limits, JNum v => JNum (clamp (min limits) (max limits) v)
  | _, _ => value
  end.

(** The loop of [getEpochDataForYear] over the table, in order. *)
Fixpoint scanEpochs (year : Q) (table : list (string * epoch))
  : option (gmap string jsval) :=
  match table with
  | [] => None
  | (_, epoch) :: rest =>
      if Qle_bool (startYear epoch) year && Qle_bool year (endYear epoch)
      then Some (indicators epoch)
      else scanEpochs year rest
  end.

Definition getEpochDataForYear (year : Q) : gmap string jsval :=
  match scanEpochs year EPOCH_DATA_REFERENCE with
  | Some indicators => indicators
  | None => FALLBACK_EPOCH_DATA
  end.

(** [vals.length > 0 ? vals.reduce((sum, val) => sum + val, 0) / vals.length : 0].
    The filter that precedes it in the source keeps every element, since
    [normalizeIndicator] only returns numbers that are not NaN. *)
Definition average (vals : list Q) : Q :=
  if (0 <? length vals)%nat
  then (foldl Qplus 0 vals / inject_Z (Z.of_nat (length vals)))%Q
  else 0%Q.

(** Lines 207-221 of [calculateCTHFromIndicators]: the four dimension
    values are combined by the weights and the result is clamped.  The
    test [totalWeight > 0] is false for a sum that is NaN. *)
Definition computeScore (w : weights) (E_val S_val A_val P_val : Q) : num :=
  let weightedSum :=
    num_add (num_add (num_add (num_mul (w_e w) (Some E_val))
                              (num_mul (w_s w) (Some S_val)))
                     (num_mul (w_a w) (Some A_val)))
            (num_mul (w_p w) (Some P_val)) in
  let totalWeight := num_add (num_add (num_add (w_e w) (w_s w)) (w_a w)) (w_p w) in
  let cth :=
    if num_gt totalWeight 0 then num_div weightedSum totalWeight
    else Some 0%Q in
  num_max (Some 0%Q) (num_min (Some 1%Q) cth).

Definition normalized (o : obj) (name : string) : Q :=
  normalizeIndicator (prop o name) (min (limits_of name)) (max (limits_of name)).

(** [calculateCTHFromIndicators].  The argument is given as the fields of
    the object passed, [None] standing for a value that fails the test
    [!indicators || typeof indicators !== 'object']. *)
Definition calculateCTHFromIndicators
    (indicators : option obj) (customWeights : option weights) : num :=
  let w := default DEFAULT_CTH_WEIGHTS customWeights in
  match indicators with
  | None => Some 0%Q
  | Some o =>
      let E_val := average [normalized o "gdpPerCapita"; normalized o "giniIndex";
                            normalized o "politicalEventsCount"] in
      let S_val := average [normalized o "averageIncome"; normalized o "literacyRate"] in
      let A_val := average [normalized o "lifeExpectancy"; normalized o "birthRate"] in
      let P_val := average [normalized o "populationDensity";
                            normalized o "urbanizationRate"] in
      computeScore w E_val S_val A_val P_val
  end.

(** ** Missing data inference *)

Inductive direction : Type := forward | backward.

(** [estimateIndicatorValue] *)
Definition estimateIndicatorValue
    (knownValue deltaCTHPercentage trendRelation : jsval) (dir : direction)
  : jsval :=
  match knownValue with
  | JNum known =>
      if negb (Qle_bool 0 known) then JNum 0
      else
        let delta := match deltaCTHPercentage with JNum d => d | _ => 0%Q end in
        let trend :=
          match trendRelation with
          | JNum t => if negb (Qle_bool 0 t) then 1%Q else t
          | _ => 1%Q
          end in
        let estimatedChangeFactor := (delta * trend)%Q in
        match dir with
        | forward => JNum (known * (1 + estimatedChangeFactor))
        | backward =>
            if Qeq_bool (1 + estimatedChangeFactor) 0 then JNum known
            else JNum (known / (1 + estimatedChangeFactor))
        end
  | _ => JNum 0
  end.

(** [calculatePercentageChange] *)
Definition calculatePercentageChange (val1 val2 : jsval) : jsval :=
  match val1 with
  | JNum a =>
      if Qeq_bool a 0 then JNum 0
      else match val2 with
           | JNum b => JNum ((b - a) / a)
           | _ => JNum 0
           end
  | _ => JNum 0
  end.

Definition periods : list string :=
  ["before"; "prelude"; "during"; "transition"; "after"].

Definition allIndicatorNames : list string :=
  ["gdpPerCapita"; "giniIndex"; "politicalEventsCount"; "averageIncome";
   "literacyRate"; "lifeExpectancy"; "birthRate"; "populationDensity";
   "urbanizationRate"].

(** The [switch] of step 1: the representative year of a phase. *)
Definition periodYear (period : string) (eventStartYear eventEndYear : Q) : Q :=
  if String.eqb period "before" then (eventStartYear - 12)%Q
  else if String.eqb period "prelude" then (eventStartYear - 1)%Q
  else if String.eqb period "during"
       then inject_Z (Qfloor ((eventStartYear + eventEndYear) / 2))
  else if String.eqb period "transition" then (eventEndYear + 1)%Q
  else if String.eqb period "after" then (eventEndYear + 12)%Q
  else eventStartYear.

(** [temporalData[period].indicators[indicatorName]] *)
Definition getIndicator (temporalData : jsval) (period indicatorName : string)
  : M jsval :=
  p ← getProp temporalData period;
  i ← getProp p "indicators";
  getProp i indicatorName.

(** [temporalData[period].indicators[indicatorName] = x] *)
Definition setIndicator
    (temporalData : jsval) (period indicatorName : string) (x : jsval) : M unit :=
  p ← getProp temporalData period;
  i ← getProp p "indicators";
  setProp i indicatorName x.

(** The call [calculateCTHFromIndicators(v)] on a value of the store. *)
Definition callCalculateCTH (v : jsval) : M jsval :=
  fun h =>
    let arg := if truthy v && is_object_type (typeof v)
               then Some (fields h v) else None in
    Ok (of_num (calculateCTHFromIndicators arg None)) h.

(** [temporalData[period].cth = calculateCTHFromIndicators(temporalData[period].indicators)] *)
Definition scorePeriod (temporalData : jsval) (period : string) : M unit :=
  target ← getProp temporalData period;
  p ← getProp temporalData period;
  i ← getProp p "indicators";
  cth ← callCalculateCTH i;
  setProp target "cth" cth.

(** [periods[i]] used as a property name. *)
Definition periodAt (i : nat) : string := default "undefined" (periods !! i).

(** [periods[i - 1]]; [None] when it is [undefined]. *)
Definition prevPeriodOf (i : nat) : option string :=
  match i with O => None | S j => periods !! j end.

(** [periods[i + 1]] *)
Definition nextPeriodOf (i : nat) : option string := periods !! S i.

Definition deltaKey (p1 p2 : string) : string := p1 +:+ "_" +:+ p2 +:+ "_Pct".

(** The loop that fills the local object [deltaCTHs].  The second score is
    only read when the first one is defined. *)
Fixpoint deltaLoop (temporalData : jsval) (idxs : list nat) (deltaCTHs : obj)
  : M obj :=
  match idxs with
  | [] => mret deltaCTHs
  | i :: rest =>
      let p1 := periodAt i in
      let p2 := periodAt (i + 1) in
      o1 ← getProp temporalData p1;
      c1 ← getProp o1 "cth";
      d ← (if defined c1 then
             o2 ← getProp temporalData p2;
             c2 ← getProp o2 "cth";
             if defined c2
             then mret (calculatePercentageChange c1 c2)
             else mret (JNum 0)
           else mret (JNum 0));
      deltaLoop temporalData rest (<[deltaKey p1 p2 := d]> deltaCTHs)
  end.

(** [prevPeriod && (temporalData[prevPeriod].indicators[name] !== undefined
    && ... !== null)], as a truth value. *)
Definition hasData (temporalData : jsval) (period : option string) (name : string)
  : M bool :=
  match period with
  | None => mret false
  | Some p => v ← getIndicator temporalData p name; mret (negb (nullish v))
  end.

(** The body of the innermost loop of step 3, for phase [i] and one
    indicator. *)
Definition inferIndicator
    (temporalData : jsval) (deltaCTHs : obj) (i : nat) (indicatorName : string)
  : M unit :=
  let currentPeriod := periodAt i in
  cur ← getIndicator temporalData currentPeriod indicatorName;
  if nullish cur then
    let prevPeriod := prevPeriodOf i in
    let nextPeriod := nextPeriodOf i in
    hasPrevData ← hasData temporalData prevPeriod indicatorName;
    hasNextData ← hasData temporalData nextPeriod indicatorName;
    inferredValue ←
      (if hasPrevData && hasNextData then
         a ← getIndicator temporalData (default "undefined" prevPeriod) indicatorName;
         b ← getIndicator temporalData (default "undefined" nextPeriod) indicatorName;
         mret (Some (half_sum a b))
       else if hasPrevData then
         let deltaCTH_PrevCurrent_Pct :=
           prop deltaCTHs (deltaKey (default "undefined" prevPeriod) currentPeriod) in
         if not_zero deltaCTH_PrevCurrent_Pct then
           a ← getIndicator temporalData (default "undefined" prevPeriod) indicatorName;
           mret (Some (estimateIndicatorValue a deltaCTH_PrevCurrent_Pct (JNum 1) forward))
         else mret None
       else if hasNextData then
         let deltaCTH_CurrentNext_Pct :=
           prop deltaCTHs (deltaKey currentPeriod (default "undefined" nextPeriod)) in
         if not_zero deltaCTH_CurrentNext_Pct then
           b ← getIndicator temporalData (default "undefined" nextPeriod) indicatorName;
           mret (Some (estimateIndicatorValue b deltaCTH_CurrentNext_Pct (JNum 1) backward))
         else mret None
       else mret None);
    match inferredValue with
    | Some v => setIndicator temporalData currentPeriod indicatorName
                  (applyLimits indicatorName v)
    | None => mret tt
    end
  else mret tt.

Definition maxInferencePasses : nat := 3.

(** The two statements that make sure [temporalData[period]] and its
    [indicators] exist. *)
Definition ensurePeriod (temporalData : jsval) (period : string) : M unit :=
  p ← getProp temporalData period;
  p' ← (if truthy p then mret p else alloc ∅);
  setProp temporalData period p';;
  target ← getProp temporalData period;
  q ← getProp temporalData period;
  i ← getProp q "indicators";
  i' ← (if truthy i then mret i else alloc ∅);
  setProp target "indicators" i'.

(** Step 1, for one indicator of one phase. *)
Definition seedIndicator
    (temporalData : jsval) (period : string) (epochData : obj)
    (indicatorName : string) : M unit :=
  v ← getIndicator temporalData period indicatorName;
  if nullish v
  then setIndicator temporalData period indicatorName (prop epochData indicatorName)
  else mret tt.

(** Step 1, for one phase. *)
Definition seedPeriod
    (temporalData : jsval) (eventStartYear eventEndYear : Q) (period : string)
  : M unit :=
  let epochData :=
    getEpochDataForYear (periodYear period eventStartYear eventEndYear) in
  forEach allIndicatorNames (seedIndicator temporalData period epochData).

(** Step 4, for one indicator of one phase. *)
Definition limitIndicator
    (temporalData : jsval) (period indicatorName : string) : M unit :=
  v ← getIndicator temporalData period indicatorName;
  if negb (nullish v)
  then w ← getIndicator temporalData period indicatorName;
       setIndicator temporalData period indicatorName (applyLimits indicatorName w)
  else mret tt.

(** One pass of step 3 over the phases and the indicators. *)
Definition inferencePass (temporalData : jsval) (deltaCTHs : obj) : M unit :=
  forEach (seq 0 (length periods)) (fun i =>
    forEach allIndicatorNames (inferIndicator temporalData deltaCTHs i)).

(** [completeAndInferHistoricalData]; the structure behind [temporalData]
    is modified in place. *)
Definition completeAndInferHistoricalData
    (temporalData : jsval) (eventStartYear eventEndYear : Q) : M unit :=
  if negb (truthy temporalData) || negb (is_object_type (typeof temporalData))
  then throw "temporalData is undefined or not an object"
  else
    forEach periods (ensurePeriod temporalData);;
    (* step 1: seed from the epoch of the representative year *)
    forEach periods (seedPeriod temporalData eventStartYear eventEndYear);;
    (* step 2: provisional scores *)
    forEach periods (scorePeriod temporalData);;
    deltaCTHs ← deltaLoop temporalData (seq 0 (length periods - 1)) ∅;
    (* step 3: inference passes *)
    forEach (seq 0 maxInferencePasses) (fun pass =>
      inferencePass temporalData deltaCTHs);;
    (* step 4: limits on every indicator *)
    forEach periods (fun period =>
      forEach allIndicatorNames (limitIndicator temporalData period));;
    (* step 5: final scores *)
    forEach periods (scorePeriod temporalData).

(** One entry of the literal built by [analyzeEventCTH]:
    [{ indicators: data.period?.indicators ? { ...data.period.indicators } : {} }] *)
Definition phaseLiteral (initialHistoricalData : jsval) (period : string)
  : M jsval :=
  p ← getProp initialHistoricalData period;
  i ← getPropOpt p "indicators";
  copy ← (if truthy i then
            p' ← getProp initialHistoricalData period;
            i' ← getProp p' "indicators";
            o ← spread i';
            alloc o
          else alloc ∅);
  alloc {[ "indicators" := copy ]}.

(** [analyzeEventCTH]; the result is [null] or a reference to the new
    structure. *)
Definition analyzeEventCTH
    (eventStartYear eventEndYear initialHistoricalData : jsval) : M jsval :=
  match eventStartYear, eventEndYear with
  | JNum s, JNum e =>
      if negb (Qle_bool s e) then mret JNull
      else if negb (truthy initialHistoricalData)
              || negb (is_object_type (typeof initialHistoricalData))
      then mret JNull
      else
        before ← phaseLiteral initialHistoricalData "before";
        prelude ← phaseLiteral initialHistoricalData "prelude";
        during ← phaseLiteral initialHistoricalData "during";
        transition ← phaseLiteral initialHistoricalData "transition";
        after ← phaseLiteral initialHistoricalData "after";
        temporalData ← alloc (<["before" := before]> (<["prelude" := prelude]>
                        (<["during" := during]> (<["transition" := transition]>
                        {[ "after" := after ]}))));
        completeAndInferHistoricalData temporalData s e;;
        mret temporalData
  | _, _ => mret JNull
  end.

(** ** Reading a result back from the store *)

(** [r[period].indicators[name]] and [r[period].cth], read without effect. *)
Definition indicatorIn (h : heap) (r : jsval) (period name : string) : jsval :=
  prop (fields h (prop (fields h (prop (fields h r) period)) "indicators")) name.

Definition scoreIn (h : heap) (r : jsval) (period : string) : jsval :=
  prop (fields h (prop (fields h r) period)) "cth".

(** ** Vocabulary of the statements *)

(** The two quantities [weightedSum] and [totalWeight] of
    [calculateCTHFromIndicators]. *)
Definition weightedSum (w : weights) (E_val S_val A_val P_val : Q) : num :=
  num_add (num_add (num_add (num_mul (w_e w) (Some E_val))
                            (num_mul (w_s w) (Some S_val)))
                   (num_mul (w_a w) (Some A_val)))
          (num_mul (w_p w) (Some P_val)).

Definition totalWeight (w : weights) : num :=
  num_add (num_add (num_add (w_e w) (w_s w)) (w_a w)) (w_p w).

(** Weights that are four numbers. *)
Definition numberWeights (a b c d : Q) : weights :=
  {| w_e := Some a; w_s := Some b; w_a := Some c; w_p := Some d |}.

(** No weight is negative (and none is NaN). *)
Definition nonnegWeights (w : weights) : Prop :=
  ∃ a b c d, w = numberWeights a b c d ∧
             (0 <= a)%Q ∧ (0 <= b)%Q ∧ (0 <= c)%Q ∧ (0 <= d)%Q.


(** The clamped quotient that the score is for weights that are numbers. *)
Definition scoreValue (a b c d E_val S_val A_val P_val : Q) : Q :=
  Qmax 0 (Qmin 1 (if negb (Qle_bool (a + b + c + d) 0)
                  then (a * E_val + b * S_val + c * A_val + d * P_val)
                       / (a + b + c + d)
                  else 0))%Q.

(** An order on numbers that holds of no NaN. *)
Definition num_le (a b : num) : Prop :=
  match a, b with Some x, Some y => (x <= y)%Q | _, _ => False end.

(** The year lies in the interval of the epoch. *)
Definition contains (e : epoch) (year : Q) : Prop :=
  (startYear e <= year)%Q ∧ (year <= endYear e)%Q.

(** ** The structure built by [analyzeEventCTH], described abstractly

    [analyzeEventCTH] allocates eleven objects on top of the store it is
    given: for each of the five phases the copy of its indicators and the
    phase object that holds it, then the object that maps the phase names
    to the phase objects.  The definitions below describe that part of the
    store by its contents: the five indicator objects and the five scores. *)

Record five (A : Type) : Type :=
  Five { at0 : A; at1 : A; at2 : A; at3 : A; at4 : A }.
Arguments Five {A} _ _ _ _ _.
Arguments at0 {A} _.
Arguments at1 {A} _.
Arguments at2 {A} _.
Arguments at3 {A} _.
Arguments at4 {A} _.

Definition nth5 {A} (t : five A) (k : nat) : A :=
  match k with
  | 0 => at0 t | 1 => at1 t | 2 => at2 t | 3 => at3 t | _ => at4 t
  end.

Definition set5 {A} (k : nat) (x : A) (t : five A) : five A :=
  match k with
  | 0 => Five x (at1 t) (at2 t) (at3 t) (at4 t)
  | 1 => Five (at0 t) x (at2 t) (at3 t) (at4 t)
  | 2 => Five (at0 t) (at1 t) x (at3 t) (at4 t)
  | 3 => Five (at0 t) (at1 t) (at2 t) x (at4 t)
  | _ => Five (at0 t) (at1 t) (at2 t) (at3 t) x
  end.

Definition map5 {A B} (f : nat → A → B) (t : five A) : five B :=
  Five (f 0 (at0 t)) (f 1 (at1 t)) (f 2 (at2 t)) (f 3 (at3 t)) (f 4 (at4 t)).

(** Locations of the indicators object and of the phase object of phase
    [k], and of the top object, when the store had [n] objects before. *)
Definition indLoc (n k : nat) : nat := n + 2 * k.
Definition perLoc (n k : nat) : nat := n + (2 * k + 1).
Definition tdLoc (n : nat) : nat := n + 10.

Definition periodObj (n k : nat) (cth : option jsval) : obj :=
  match cth with
  | None => {[ "indicators" := JRef (indLoc n k) ]}
  | Some c => <["cth" := c]> {[ "indicators" := JRef (indLoc n k) ]}
  end.

Definition tdObj (n : nat) : obj :=
  <["before" := JRef (perLoc n 0)]> (<["prelude" := JRef (perLoc n 1)]>
  (<["during" := JRef (perLoc n 2)]> (<["transition" := JRef (perLoc n 3)]>
  {[ "after" := JRef (perLoc n 4) ]}))).

Definition layout (h0 : heap) (ms : five obj) (cs : five (option jsval)) : heap :=
  let n := length h0 in
  h0 ++ [ at0 ms; periodObj n 0 (at0 cs);
          at1 ms; periodObj n 1 (at1 cs);
          at2 ms; periodObj n 2 (at2 cs);
          at3 ms; periodObj n 3 (at3 cs);
          at4 ms; periodObj n 4 (at4 cs);
          tdObj n ].

(** Step 1 on one indicators object. *)
Definition seedObj (epochData : obj) (names : list string) (m : obj) : obj :=
  foldl (fun (m : obj) name =>
           if nullish (prop m name) then <[name := prop epochData name]> m else m)
        m names.

(** Step 4 on one indicators object. *)
Definition limitObj (names : list string) (m : obj) : obj :=
  foldl (fun (m : obj) name =>
           if negb (nullish (prop m name))
           then <[name := applyLimits name (prop m name)]> m else m)
        m names.

(** The indicators of a phase at the end of the pipeline, from its
    indicators [m] at the start. *)
Definition completedObj (s e : Q) (period : string) (m : obj) : obj :=
  limitObj allIndicatorNames
    (seedObj (getEpochDataForYear (periodYear period s e)) allIndicatorNames m).

Definition scoreOf (m : obj) : jsval :=
  of_num (calculateCTHFromIndicators (Some m) None).

(** What [phaseLiteral] copies for a phase: the fields of
    [data.period?.indicators] when that value is truthy, nothing
    otherwise. *)
Definition phaseInput (h : heap) (data : jsval) (period : string) : obj :=
  let p := prop (fields h data) period in
  let i := if nullish p then JUndefined else prop (fields h p) "indicators" in
  if truthy i then fields h i else ∅.

(** The five copies, in the order in which they are made; each one is read
    from the store as it is at that moment. *)
Definition copiedInputs (h0 : heap) (data : jsval) : five obj :=
  let i0 := phaseInput h0 data "before" in
  let h1 := h0 ++ [i0; {[ "indicators" := JRef (length h0) ]}] in
  let i1 := phaseInput h1 data "prelude" in
  let h2 := h1 ++ [i1; {[ "indicators" := JRef (length h1) ]}] in
  let i2 := phaseInput h2 data "during" in
  let h3 := h2 ++ [i2; {[ "indicators" := JRef (length h2) ]}] in
  let i3 := phaseInput h3 data "transition" in
  let h4 := h3 ++ [i3; {[ "indicators" := JRef (length h3) ]}] in
  let i4 := phaseInput h4 data "after" in
  Five i0 i1 i2 i3 i4.

Definition completedInds (s e : Q) (ms : five obj) : five obj :=
  map5 (fun k m => completedObj s e (periodAt k) m) ms.

Definition finalScores (ms : five obj) : five (option jsval) :=
  map5 (fun _ m => Some (scoreOf m)) ms.

(** Every named indicator of every phase holds a value. *)
Definition complete5 (ms : five obj) : Prop :=
  ∀ k name, k < 5 → name ∈ allIndicatorNames →
    nullish (prop (nth5 ms k) name) = false.

(** Step 1 on the five phases. *)
Definition seededInds (s e : Q) (ms : five obj) : five obj :=
  map5 (fun k m =>
          seedObj (getEpochDataForYear (periodYear (periodAt k) s e))
            allIndicatorNames m) ms.

(** A value is a primitive or refers to an object of the store. *)
Definition inStore (h : heap) (v : jsval) : bool :=
  match v with JRef l => bool_decide (l < length h) | _ => true end.

(** The caller's data and the phase and indicators objects it leads to
    exist in the store. *)
Definition closedPhase (h : heap) (data : jsval) (period : string) : bool :=
  let p := prop (fields h data) period in
  inStore h p && inStore h (prop (fields h p) "indicators").

Definition closedData (h : heap) (data : jsval) : bool :=
  inStore h data && forallb (closedPhase h data) periods.

(** The year arguments and the data argument that [analyzeEventCTH]
    accepts. *)
Definition isYear (v : jsval) : Prop := ∃ q, v = JNum q.

Definition isRecord (v : jsval) : Prop := ∃ l, v = JRef l.

Definition structurallyInvalid (s e data : jsval) : Prop :=
  ¬ isYear s ∨ ¬ isYear e ∨
  (∃ a b, s = JNum a ∧ e = JNum b ∧ (b < a)%Q) ∨
  ¬ isRecord data.

(** A value is a number inside the declared domain of the indicator. *)
Definition withinDomain (name : string) (v : jsval) : Prop :=
  ∃ q lim, v = JNum q ∧ INDICATOR_LIMITS !! name = Some lim ∧
           (min lim <= q)%Q ∧ (q <= max lim)%Q.

(** A value is a score: a number of the unit interval. *)
Definition isScore (v : jsval) : Prop :=
  ∃ q, v = JNum q ∧ (0 <= q)%Q ∧ (q <= 1)%Q.

(** A value that is a number and not NaN. *)
Definition validNumber (v : jsval) : bool :=
  match v with JNum _ => true | _ => false end.

(** An indicator of a phase in the outcome of a run; [undefined] when the
    run threw. *)
Definition resultIndicator (res : result jsval) (period name : string) : jsval :=
  match res with
  | Ok r h => indicatorIn h r period name
  | Throw _ => JUndefined
  end.

(** The value with which step 1 seeds an indicator of a phase. *)
Definition epochSeed (s e : Q) (period name : string) : jsval :=
  prop (getEpochDataForYear (periodYear period s e)) name.

(** The indicators object that the caller supplied for a phase, as the
    fields it has in the store; empty when there is none. *)
Definition callerIndicators (h : heap) (data : jsval) (period : string) : obj :=
  fields h (prop (fields h (prop (fields h data) period)) "indicators").

(** The caller supplied a number for each of the nine indicators of the
    phase. *)
Definition fullySpecified (h : heap) (data : jsval) (period : string) : bool :=
  forallb (fun name => validNumber (prop (callerIndicators h data period) name))
    allIndicatorNames.

(** The caller supplied none of the nine indicators of the phase. *)
Definition emptyPhase (h : heap) (data : jsval) (period : string) : bool :=
  forallb (fun name => nullish (prop (callerIndicators h data period) name))
    allIndicatorNames.

(** ** Sample stores *)

(** [{ during: { indicators: { gdpPerCapita: NaN } } }], at location 2. *)
Definition nanStore : heap :=
  [ {[ "gdpPerCapita" := JNaN ]};
    {[ "indicators" := JRef 0 ]};
    {[ "during" := JRef 1 ]} ].

(** [{ before: { indicators: { gdpPerCapita: 2000 } },
       during: { indicators: { gdpPerCapita: 4000 } } }], at location 4. *)
Definition gapStore : heap :=
  [ {[ "gdpPerCapita" := JNum 2000 ]};
    {[ "indicators" := JRef 0 ]};
    {[ "gdpPerCapita" := JNum 4000 ]};
    {[ "indicators" := JRef 2 ]};
    <["before" := JRef 1]> {[ "during" := JRef 3 ]} ].

(** A caller's data in which only the phase "during" is given, with the
    nine indicators of the repository's usage example, at location 2. *)
Definition duringStore : heap :=
  [ snapshot 1800 0.52 5 250 0.3 40 0.03 30 0.25;
    {[ "indicators" := JRef 0 ]};
    {[ "during" := JRef 1 ]} ].

(** ** Further vocabulary *)

(** The four dimension values that [calculateCTHFromIndicators] computes
    from an indicators object. *)
Definition E_value (o : obj) : Q :=
  average [normalized o "gdpPerCapita"; normalized o "giniIndex";
           normalized o "politicalEventsCount"].

Definition S_value (o : obj) : Q :=
  average [normalized o "averageIncome"; normalized o "literacyRate"].

Definition A_value (o : obj) : Q :=
  average [normalized o "lifeExpectancy"; normalized o "birthRate"].

Definition P_value (o : obj) : Q :=
  average [normalized o "populationDensity"; normalized o "urbanizationRate"].

(** The four weights multiplied by a common factor. *)
Definition scaleWeights (c : Q) (w : weights) : weights :=
  {| w_e := num_mul (Some c) (w_e w); w_s := num_mul (Some c) (w_s w);
     w_a := num_mul (Some c) (w_a w); w_p := num_mul (Some c) (w_p w) |}.

(** The score of a phase in the outcome of a run; [undefined] when the run
    threw. *)
Definition resultScore (res : result jsval) (period : string) : jsval :=
  match res with
  | Ok r h => scoreIn h r period
  | Throw _ => JUndefined
  end.

(** ** The callers: [evei-calculator.js] and [margins-calculator.js]

    The results of these two functions are object literals that nothing
    modifies afterwards; they are modelled as records.  Their weights
    arguments are objects of numbers, modelled as maps from property names
    to numbers, [None] standing for NaN.  What they write to the console
    is left out. *)

(** [weights.k] in an object of numbers; a missing property reads
    [undefined], which is NaN in arithmetic. *)
Definition weightOf (weights : gmap string num) (k : string) : num :=
  default None (weights !! k).

(** [Math.max(0, Math.min(1, v || 0))] *)
Definition unitValue (v : jsval) : num :=
  num_max (Some 0%Q) (num_min (Some 1%Q) (ToNumber (if truthy v then v else JNum 0))).

Record eveiResult : Type :=
  { value : num; interpretation : string; lower : num; upper : num }.

Definition EVEI_DEFAULT_WEIGHTS : gmap string num :=
  list_to_map [("wCTH", Some 0.4%Q); ("wA", Some 0.2%Q);
               ("wB", Some 0.25%Q); ("wC", Some 0.35%Q)].

(** [calculateEVEI], on the fields of the event object and the properties
    of the weights object ([∅] when no weights are passed). *)
Definition calculateEVEI (eventData : obj) (weights : gmap string num)
  : eveiResult :=
  let actualWeights := weights ∪ EVEI_DEFAULT_WEIGHTS in
  let CTHIndex := unitValue (prop eventData "CTHIndex") in
  let indicatorA := unitValue (prop eventData "indicatorA") in
  let indicatorB := unitValue (prop eventData "indicatorB") in
  let indicatorC := unitValue (prop eventData "indicatorC") in
  let eveiValue :=
    num_add (num_add (num_add
      (num_mul (weightOf actualWeights "wCTH") CTHIndex)
      (num_mul (weightOf actualWeights "wA") indicatorA))
      (num_mul (weightOf actualWeights "wB") indicatorB))
      (num_mul (weightOf actualWeights "wC") indicatorC) in
  let sumOfWeights :=
    num_add (num_add (num_add
      (weightOf actualWeights "wCTH") (weightOf actualWeights "wA"))
      (weightOf actualWeights "wB")) (weightOf actualWeights "wC") in
  let finalEVEI :=
    if num_nonzero sumOfWeights then num_div eveiValue sumOfWeights
    else eveiValue in
  let lowerBound := num_mul finalEVEI (Some 0.9%Q) in
  let upperBound := num_mul finalEVEI (Some 1.1%Q) in
  let interpretation :=
    if num_ge finalEVEI 0.8
    then "Extremely high impact event, potentially catastrophic or transformative."
    else if num_ge finalEVEI 0.6
    then "High impact event, significant consequences expected."
    else if num_ge finalEVEI 0.4
    then "Moderate impact event, noticeable but manageable consequences."
    else if num_ge finalEVEI 0.2
    then "Low impact event, minor consequences."
    else "Very low or negligible impact event." in
  {| value := finalEVEI; interpretation := interpretation;
     lower := lowerBound; upper := upperBound |}.

Record marginsResult : Type :=
  { macromargin : Q; micromargin : Q;
    macromarginPercentage : Q; micromarginPercentage : Q;
    phaseIndices : gmap string num }.

Definition MARGINS_DEFAULT_WEIGHTS : gmap string num :=
  list_to_map [("evei", Some 0.4%Q); ("cth", Some 0.4%Q); ("fp", Some 0.2%Q)].

(** The helper [calculatePhaseIndex] of [calculateMargins]. *)
Definition calculatePhaseIndex
    (effectiveWeights : gmap string num) (eventEVEI : num)
    (cthValue : jsval) (phaseType : string) : num :=
  let fpValue :=
    if bool_decide (phaseType ∈ ["before"; "after"]) then 0.5%Q
    else if bool_decide (phaseType ∈ ["prelude"; "during"; "transition"])
    then 0.5%Q
    else 0%Q in
  num_add (num_add
    (num_mul (weightOf effectiveWeights "evei") eventEVEI)
    (num_mul (weightOf effectiveWeights "cth") (ToNumber cthValue)))
    (num_mul (weightOf effectiveWeights "fp") (Some fpValue)).

(** One of the five statements
    [if (cthResults.p && cthResults.p.cth !== undefined)
       phaseIndices.p = calculatePhaseIndex(cthResults.p.cth, 'p')]. *)
Definition addPhaseIndex
    (effectiveWeights : gmap string num) (eventEVEI : num) (cthResults : jsval)
    (phase : string) (phaseIndices : gmap string num) : M (gmap string num) :=
  p ← getProp cthResults phase;
  if truthy p then
    c ← getProp p "cth";
    if defined c
    then mret (<[phase := calculatePhaseIndex effectiveWeights eventEVEI c phase]>
                 phaseIndices)
    else mret phaseIndices
  else mret phaseIndices.

(** [phaseIndices.p || 0]: the index when it is a number other than 0 and
    NaN, 0 otherwise. *)
Definition indexOrZero (phaseIndices : gmap string num) (phase : string) : Q :=
  match phaseIndices !! phase with
  | Some (Some i) => if Qeq_bool i 0 then 0%Q else i
  | _ => 0%Q
  end.

(** Lines 109-138 of [calculateMargins]: the margins from the phase
    indices. *)
Definition marginsOf (phaseIndices : gmap string num) : marginsResult :=
  let macromarginSum :=
    (indexOrZero phaseIndices "before" + indexOrZero phaseIndices "after")%Q in
  let micromarginSum :=
    (indexOrZero phaseIndices "prelude" + indexOrZero phaseIndices "during"
     + indexOrZero phaseIndices "transition")%Q in
  let totalMarginSum := (macromarginSum + micromarginSum)%Q in
  if Qeq_bool totalMarginSum 0 then
    {| macromargin := 0; micromargin := 0;
       macromarginPercentage := 0; micromarginPercentage := 0;
       phaseIndices := phaseIndices |}
  else
    {| macromargin := macromarginSum; micromargin := micromarginSum;
       macromarginPercentage := (macromarginSum / totalMarginSum * 100)%Q;
       micromarginPercentage := (micromarginSum / totalMarginSum * 100)%Q;
       phaseIndices := phaseIndices |}.

(** [try { body } catch (error) { handler }].  A result [Throw] carries no
    store, so the handler resumes in the store in which the block was
    entered: this is exact for a block that throws before its first effect
    on the store, as the blocks of [calculateMargins] do. *)
Definition tryCatch {A} (body : M A) (handler : string → M A) : M A :=
  fun h => match body h with
           | Ok a h' => Ok a h'
           | Throw e => handler e h
           end.

(** [Math.abs(sumWeights - 1) > 0.001]; false when the sum is NaN.  The
    comparison is made on the exact sum: the program makes it on a sum
    and a threshold that are rounded to doubles, which can differ when
    the distance is within rounding of 0.001. *)
Definition weightsOffBalance (sumWeights : num) : bool :=
  match sumWeights with
  | Some x => negb (Qle_bool (Qabs (x - 1)) 0.001)
  | None => false
  end.

(** [calculateMargins]; [None] is the result [null]. *)
Definition calculateMargins (eventData : jsval) (weights : gmap string num)
  : M (option marginsResult) :=
  let effectiveWeights := weights ∪ MARGINS_DEFAULT_WEIGHTS in
  let sumWeights :=
    num_add (num_add (weightOf effectiveWeights "evei")
                     (weightOf effectiveWeights "cth"))
            (weightOf effectiveWeights "fp") in
  if weightsOffBalance sumWeights then mret None
  else
    cthResults ← tryCatch
      (s ← getProp eventData "eventStartYear";
       e ← getProp eventData "eventEndYear";
       d ← getProp eventData "historicalData";
       r ← analyzeEventCTH s e d;
       mret (if truthy r then Some r else None))
      (fun _ => mret None);
    match cthResults with
    | None => mret None
    | Some cthResults =>
        eveiResults ← tryCatch
          (fun h =>
             match eventData with
             | JUndefined | JNull => Throw "TypeError"
             | _ => Ok (Some (calculateEVEI (fields h eventData) ∅)) h
             end)
          (fun _ => mret None);
        match eveiResults with
        | None => mret None
        | Some eveiResults =>
            let eventEVEI := value eveiResults in
            let step := addPhaseIndex effectiveWeights eventEVEI cthResults in
            i1 ← step "before" ∅;
            i2 ← step "prelude" i1;
            i3 ← step "during" i2;
            i4 ← step "transition" i3;
            i5 ← step "after" i4;
            mret (Some (marginsOf i5))
        end
    end.

(** None of the four inputs of [calculateEVEI] is an object. *)
Definition eveiInputsPrimitive (eventData : obj) : bool :=
  forallb (fun k => match prop eventData k with JRef _ => false | _ => true end)
    ["CTHIndex"; "indicatorA"; "indicatorB"; "indicatorC"].

(** An event object whose years and historical data [analyzeEventCTH]
    accepts, with the values of these three properties. *)
Definition acceptedEvent (h : heap) (eventData : jsval) (s e : Q) (l : nat) : Prop :=
  inStore h eventData = true ∧ nullish eventData = false ∧
  prop (fields h eventData) "eventStartYear" = JNum s ∧
  prop (fields h eventData) "eventEndYear" = JNum e ∧
  prop (fields h eventData) "historicalData" = JRef l ∧
  Qle_bool s e = true.

(** An event object of the usage examples, at location 5: the historical
    data of [gapStore] with the years 1789 and 1799 and three indicators. *)
Definition eventStore : heap :=
  gapStore ++
  [ list_to_map [ ("eventStartYear", JNum 1789); ("eventEndYear", JNum 1799);
                  ("historicalData", JRef 4); ("indicatorA", JNum 0.8);
                  ("indicatorB", JNum 0.9); ("indicatorC", JNum 0.7) ] ].

(** The sum [effectiveWeights.evei + effectiveWeights.cth +
    effectiveWeights.fp] for a weights argument. *)
Definition marginsWeightSum (weights : gmap string num) : num :=
  num_add (num_add (weightOf (weights ∪ MARGINS_DEFAULT_WEIGHTS) "evei")
                   (weightOf (weights ∪ MARGINS_DEFAULT_WEIGHTS) "cth"))
          (weightOf (weights ∪ MARGINS_DEFAULT_WEIGHTS) "fp").

(** Weights for which the test of the weight sum is not decided by the
    last digits: the three effective weights are numbers, none is
    negative (so that nothing cancels in their sum), and the distance of
    the sum from 1 is farther than 10^-9 from the threshold 0.001. *)
Definition clearWeights (weights : gmap string num) : Prop :=
  ∃ a b c,
    weightOf (weights ∪ MARGINS_DEFAULT_WEIGHTS) "evei" = Some a ∧
    weightOf (weights ∪ MARGINS_DEFAULT_WEIGHTS) "cth" = Some b ∧
    weightOf (weights ∪ MARGINS_DEFAULT_WEIGHTS) "fp" = Some c ∧
    (0 <= a)%Q ∧ (0 <= b)%Q ∧ (0 <= c)%Q ∧
    ((1 # 1000000000) < Qabs (Qabs (a + b + c - 1) - 0.001))%Q.

(** The phase indices of an event whose five phases have the indicators
    [ms]: what the five statements of [calculateMargins] build. *)
Definition indicesOf (w : gmap string num) (evei : num) (ms : five obj)
  : gmap string num :=
  <["after" := calculatePhaseIndex w evei (scoreOf (at4 ms)) "after"]>
  (<["transition" := calculatePhaseIndex w evei (scoreOf (at3 ms)) "transition"]>
  (<["during" := calculatePhaseIndex w evei (scoreOf (at2 ms)) "during"]>
  (<["prelude" := calculatePhaseIndex w evei (scoreOf (at1 ms)) "prelude"]>
  (<["before" := calculatePhaseIndex w evei (scoreOf (at0 ms)) "before"]> ∅)))).

(** [{ during: { indicators: { gdpPerCapita: 4000, population: 28000000 } } }],
    at location 2: an indicators object with a property that is not one
    of the nine indicators. *)
Definition notedStore : heap :=
  [ <["population" := JNum 28000000]> {[ "gdpPerCapita" := JNum 4000 ]};
    {[ "indicators" := JRef 0 ]};
    {[ "during" := JRef 1 ]} ].

(** * Properties *)

(** ** Clamping and normalisation *)

Section Numeric.
Local Open Scope Q_scope.

Lemma clamp_cases (lo hi v : Q) :
  (clamp lo hi v = lo ∧ (hi <= lo ∨ v <= lo)) ∨
  (clamp lo hi v = hi ∧ lo < hi ∧ hi <= v) ∨
  (clamp lo hi v = v ∧ lo < v ∧ v < hi).
Proof.
  unfold clamp, Qmax, Qmin, GenericMinMax.gmax, GenericMinMax.gmin.
  destruct (Qcompare_spec hi v) as [E1|L1|G1];
    [destruct (Qcompare_spec lo hi) as [E2|L2|G2]
    |destruct (Qcompare_spec lo hi) as [E2|L2|G2]
    |destruct (Qcompare_spec lo v) as [E2|L2|G2]];
    try (left; split; [reflexivity | lra]);
    try (right; left; split; [reflexivity | lra]);
    try (right; right; split; [reflexivity | lra]).
Qed.

Lemma clamp_in_range (lo hi v : Q) :
  lo <= hi → lo <= clamp lo hi v ∧ clamp lo hi v <= hi.
Proof.
  intros Hle. destruct (clamp_cases lo hi v) as [[-> ?]|[[-> ?]|[-> ?]]]; lra.
Qed.

Lemma clamp_fixed (lo hi v : Q) : lo < v → v < hi → clamp lo hi v = v.
Proof.
  intros H1 H2.
  destruct (clamp_cases lo hi v) as [[_ ?]|[[_ ?]|[E _]]]; [lra | lra | exact E].
Qed.

Lemma clamp_idempotent (lo hi v : Q) :
  clamp lo hi (clamp lo hi v) = clamp lo hi v.
Proof.
  destruct (clamp_cases lo hi v) as [[E H]|[[E [H1 H2]]|[E [H1 H2]]]]; rewrite E.
  - destruct (clamp_cases lo hi lo) as [[E' _]|[[_ ?]|[_ ?]]]; [exact E' | lra | lra].
  - unfold clamp, Qmax, Qmin, GenericMinMax.gmax, GenericMinMax.gmin.
    destruct (Qcompare_spec hi hi); try lra;
      destruct (Qcompare_spec lo hi); try lra; reflexivity.
  - apply clamp_fixed; assumption.
Qed.

Lemma clamp_monotone (lo hi v w : Q) : v <= w → clamp lo hi v <= clamp lo hi w.
Proof.
  intros Hvw.
  destruct (clamp_cases lo hi v) as [[-> ?]|[[-> ?]|[-> ?]]];
    destruct (clamp_cases lo hi w) as [[-> ?]|[[-> ?]|[-> ?]]]; lra.
Qed.

Lemma normalize_proper_domain (lo hi v : Q) :
  lo < hi →
  normalizeIndicator (JNum v) lo hi = (clamp lo hi v - lo) / (hi - lo).
Proof.
  intros Hlt. unfold normalizeIndicator.
  destruct (Qeq_bool (hi - lo) 0) eqn:E; [|reflexivity].
  apply Qeq_bool_iff in E. lra.
Qed.

Lemma normalizeIndicator_range (value : jsval) (lo hi : Q) :
  lo <= hi → 0 <= normalizeIndicator value lo hi ∧ normalizeIndicator value lo hi <= 1.
Proof.
  intros Hle. unfold normalizeIndicator.
  destruct value as [| |b|v| |l]; try lra.
  destruct (Qeq_bool (hi - lo) 0) eqn:E; [lra|].
  apply Qeq_bool_neq in E.
  assert (Hpos : 0 < hi - lo) by lra.
  destruct (clamp_in_range lo hi v Hle) as [H1 H2].
  split.
  - apply Qle_shift_div_l; [exact Hpos | lra].
  - apply Qle_shift_div_r; [exact Hpos | lra].
Qed.

(** C2 (as the code has it): on a degenerate domain every value normalises
    to 0. *)
Theorem normalize_degenerate_zero (value : jsval) (lo hi : Q) :
  lo == hi → normalizeIndicator value lo hi = 0.
Proof.
  intros Heq. unfold normalizeIndicator.
  destruct value; try reflexivity.
  destruct (Qeq_bool (hi - lo) 0) eqn:E; [reflexivity|].
  apply Qeq_bool_neq in E. exfalso. apply E. lra.
Qed.

Lemma normalize_degenerate_zero_witness :
  3 == 3 ∧ normalizeIndicator (JNum 5) 3 3 = 0.
Proof.
  split; [reflexivity | apply (normalize_degenerate_zero (JNum 5) 3 3); reflexivity].
Defined.

(** C2 (as the specification has it) fails: with [min = max = 3] the value 5
    normalises to 0, which is not 0.5. *)
Lemma normalize_degenerate_not_half :
  3 == 3 ∧
  normalizeIndicator (JNum 5) 3 3 = 0 ∧
  ¬ normalizeIndicator (JNum 5) 3 3 == 0.5.
Proof.
  split; [reflexivity|]. split; [reflexivity|].
  intros H. vm_compute in H. discriminate H.
Qed.

(** C8: on a proper domain [normalizeIndicator] is monotone on the domain,
    sends [min] to 0 and [max] to 1; on [[0,100]] it sends -50 to 0 and 150
    to 1. *)
Theorem normalize_monotone_endpoints (lo hi : Q) :
  lo < hi →
  (∀ v w : Q, lo <= v → v <= w → w <= hi →
     normalizeIndicator (JNum v) lo hi <= normalizeIndicator (JNum w) lo hi) ∧
  normalizeIndicator (JNum lo) lo hi == 0 ∧
  normalizeIndicator (JNum hi) lo hi == 1 ∧
  normalizeIndicator (JNum (-50)) 0 100 == 0 ∧
  normalizeIndicator (JNum 150) 0 100 == 1.
Proof.
  intros Hlt. assert (Hpos : 0 < hi - lo) by lra.
  split; [|split; [|split; [|split]]].
  - intros v w _ Hvw _. rewrite !normalize_proper_domain by exact Hlt.
    unfold Qdiv. apply Qmult_le_compat_r.
    + pose proof (clamp_monotone lo hi v w Hvw). lra.
    + apply Qlt_le_weak, Qinv_lt_0_compat, Hpos.
  - rewrite normalize_proper_domain by exact Hlt.
    destruct (clamp_cases lo hi lo) as [[-> _]|[[_ ?]|[_ ?]]]; [|lra|lra].
    field. lra.
  - rewrite normalize_proper_domain by exact Hlt.
    destruct (clamp_cases lo hi hi) as [[_ ?]|[[-> _]|[_ ?]]]; [lra| |lra].
    field. lra.
  - reflexivity.
  - reflexivity.
Qed.

Lemma normalize_monotone_endpoints_witness :
  0 < 100 ∧
  normalizeIndicator (JNum 25) 0 100 <= normalizeIndicator (JNum 75) 0 100.
Proof.
  split; [reflexivity|].
  apply (normalize_monotone_endpoints 0 100); [reflexivity | | | ];
    vm_compute; discriminate.
Defined.

(** ** The score *)

Lemma unit_clamp_range (x : Q) : 0 <= Qmax 0 (Qmin 1 x) ∧ Qmax 0 (Qmin 1 x) <= 1.
Proof. apply (clamp_in_range 0 1 x). lra. Qed.

Lemma scoreValue_range (a b c d E_val S_val A_val P_val : Q) :
  0 <= scoreValue a b c d E_val S_val A_val P_val ∧
  scoreValue a b c d E_val S_val A_val P_val <= 1.
Proof. apply unit_clamp_range. Qed.

(** For weights that are numbers the score is a number: the quotient is
    only taken by a positive divisor. *)
Lemma computeScore_numbers (a b c d E_val S_val A_val P_val : Q) :
  computeScore (numberWeights a b c d) E_val S_val A_val P_val
    = Some (scoreValue a b c d E_val S_val A_val P_val).
Proof.
  unfold computeScore, scoreValue, numberWeights.
  cbn [w_e w_s w_a w_p num_mul num_add num_gt].
  destruct (Qle_bool (a + b + c + d) 0) eqn:Hz; cbn [negb]; [reflexivity|].
  cbn [num_div].
  destruct (Qeq_bool (a + b + c + d) 0) eqn:Hq; [|reflexivity].
  apply Qeq_bool_iff in Hq.
  assert (Hle : Qle_bool (a + b + c + d) 0 = true) by (apply Qle_bool_iff; lra).
  congruence.
Qed.

(** A weight that is NaN makes the weight sum NaN, the test
    [totalWeight > 0] false and the score 0. *)
Lemma computeScore_nan (w : weights) (E_val S_val A_val P_val : Q) :
  w_e w = None ∨ w_s w = None ∨ w_a w = None ∨ w_p w = None →
  computeScore w E_val S_val A_val P_val = Some 0.
Proof.
  destruct w as [[a|] [b|] [c|] [d|]]; cbn [w_e w_s w_a w_p];
    try reflexivity.
  intros [H|[H|[H|H]]]; discriminate H.
Qed.

Lemma weights_cases (w : weights) :
  (∃ a b c d, w = numberWeights a b c d) ∨
  w_e w = None ∨ w_s w = None ∨ w_a w = None ∨ w_p w = None.
Proof.
  destruct w as [[a|] [b|] [c|] [d|]]; cbn [w_e w_s w_a w_p]; auto 6.
  left. exists a, b, c, d. reflexivity.
Qed.

Lemma computeScore_range (w : weights) (E_val S_val A_val P_val : Q) :
  ∃ q, computeScore w E_val S_val A_val P_val = Some q ∧ 0 <= q ∧ q <= 1.
Proof.
  destruct (weights_cases w) as [(a & b & c & d & ->)|Hnan].
  - rewrite computeScore_numbers. eexists. split; [reflexivity|].
    apply scoreValue_range.
  - rewrite computeScore_nan by exact Hnan. exists 0. split; [reflexivity|lra].
Qed.

Lemma scoreValue_positive (a b c d E_val S_val A_val P_val : Q) :
  0 < a + b + c + d →
  scoreValue a b c d E_val S_val A_val P_val
    = Qmax 0 (Qmin 1 ((a * E_val + b * S_val + c * A_val + d * P_val)
                      / (a + b + c + d))).
Proof.
  intros Hpos. unfold scoreValue.
  destruct (Qle_bool (a + b + c + d) 0) eqn:Hz; [|reflexivity].
  apply Qle_bool_iff in Hz. lra.
Qed.




(** With weights that are not negative and dimension values of the unit
    interval the clamp changes nothing: the score is the quotient. *)
Lemma scoreValue_quotient (a b c d E_val S_val A_val P_val : Q) :
  0 <= a → 0 <= b → 0 <= c → 0 <= d → 0 < a + b + c + d →
  0 <= E_val <= 1 → 0 <= S_val <= 1 → 0 <= A_val <= 1 → 0 <= P_val <= 1 →
  scoreValue a b c d E_val S_val A_val P_val
    == (a * E_val + b * S_val + c * A_val + d * P_val) / (a + b + c + d).
Proof.
  intros He Hs Ha Hp Hpos [HE0 HE1] [HS0 HS1] [HA0 HA1] [HP0 HP1].
  rewrite scoreValue_positive by exact Hpos.
  set (ws := a * E_val + b * S_val + c * A_val + d * P_val).
  assert (Hlow : 0 <= ws) by (unfold ws; nra).
  assert (Hhigh : ws <= a + b + c + d) by (unfold ws; nra).
  assert (H0 : 0 <= ws / (a + b + c + d))
    by (apply Qle_shift_div_l; [exact Hpos | lra]).
  assert (H1 : ws / (a + b + c + d) <= 1)
    by (apply Qle_shift_div_r; [exact Hpos | lra]).
  rewrite (Q.min_r _ _ H1). apply Q.max_r, H0.
Qed.

End Numeric.

(** ** Epoch lookup *)

Section Epochs.
Local Open Scope Q_scope.

Lemma contains_test (e : epoch) (year : Q) :
  Qle_bool (startYear e) year && Qle_bool year (endYear e) = true ↔ contains e year.
Proof.
  unfold contains. rewrite andb_true_iff, !Qle_bool_iff. reflexivity.
Qed.

Lemma scanEpochs_first (year : Q) (table : list (string * epoch)) :
  (∃ earlier key e later,
      table = earlier ++ (key, e) :: later ∧
      Forall (fun entry => ¬ contains (snd entry) year) earlier ∧
      contains e year ∧
      scanEpochs year table = Some (indicators e)) ∨
  (Forall (fun entry => ¬ contains (snd entry) year) table ∧
   scanEpochs year table = None).
Proof.
  induction table as [|[key e] table IH]; simpl.
  - right. split; [constructor | reflexivity].
  - destruct (Qle_bool (startYear e) year && Qle_bool year (endYear e)) eqn:Hin.
    + left. exists [], key, e, table. apply contains_test in Hin.
      repeat split; try done. apply Hin. apply Hin.
    + assert (Hout : ¬ contains e year).
      { intros Hc. apply contains_test in Hc. congruence. }
      destruct IH as [(earlier & key' & e' & later & -> & Hearlier & Hc & Hscan)
                     |[Hall Hscan]].
      * left. exists ((key, e) :: earlier), key', e', later.
        repeat split; try done; try apply Hc. constructor; assumption.
      * right. split; [constructor; assumption | exact Hscan].
Qed.

(** C7: the lookup returns the snapshot of the first epoch of the table
    whose interval contains the year, and the contemporary default when no
    interval does; it is a total function. *)
Theorem getEpochDataForYear_first_match (year : Q) :
  (∃ earlier key e later,
      EPOCH_DATA_REFERENCE = earlier ++ (key, e) :: later ∧
      Forall (fun entry => ¬ contains (snd entry) year) earlier ∧
      contains e year ∧
      getEpochDataForYear year = indicators e) ∨
  (Forall (fun entry => ¬ contains (snd entry) year) EPOCH_DATA_REFERENCE ∧
   getEpochDataForYear year = FALLBACK_EPOCH_DATA).
Proof.
  unfold getEpochDataForYear.
  destruct (scanEpochs_first year EPOCH_DATA_REFERENCE)
    as [(earlier & key & e & later & Htab & Hearlier & Hc & ->)|[Hall ->]].
  - left. exists earlier, key, e, later. done.
  - right. done.
Qed.

Example epoch_of_1777 :
  getEpochDataForYear 1777 = snapshot 1500 0.5 8 300 0.25 40 0.03 20 0.25.
Proof. reflexivity. Qed.

Example epoch_of_1811 :
  getEpochDataForYear 1811 = snapshot 3000 0.48 10 600 0.4 45 0.025 50 0.4.
Proof. reflexivity. Qed.

(** Between two epochs, and after the last one, the default is returned. *)
Example epoch_between_intervals : getEpochDataForYear 500.5 = FALLBACK_EPOCH_DATA.
Proof. reflexivity. Qed.

Example epoch_after_table : getEpochDataForYear 2026 = FALLBACK_EPOCH_DATA.
Proof. reflexivity. Qed.

End Epochs.

(** ** Running code on the store *)

Lemma run_bind {A B} (m : M A) (f : A → M B) (h : heap) :
  (m ≫= f) h = match m h with Ok a h' => f a h' | Throw e => Throw e end.
Proof. reflexivity. Qed.

Lemma bind_run {A B} (m : M A) (f : A → M B) (h h' : heap) (a : A) (r : result B) :
  m h = Ok a h' → f a h' = r → (m ≫= f) h = r.
Proof. intros Hm Hf. rewrite run_bind, Hm. exact Hf. Qed.

Lemma run_ret {A} (a : A) (h : heap) : (mret a : M A) h = Ok a h.
Proof. reflexivity. Qed.

Lemma forEach_cons {A} (x : A) (l : list A) (body : A → M unit) (h : heap) :
  forEach (x :: l) body h =
    match body x h with Ok _ h' => forEach l body h' | Throw e => Throw e end.
Proof. reflexivity. Qed.

Lemma forEach_skip {A} (l : list A) (body : A → M unit) (h : heap) :
  (∀ x, x ∈ l → body x h = Ok tt h) → forEach l body h = Ok tt h.
Proof.
  induction l as [|x l IH]; intros Hbody; [reflexivity|].
  rewrite forEach_cons, Hbody by left.
  apply IH. intros y Hy. apply Hbody. right. exact Hy.
Qed.

Lemma lookup_tail {A} (h0 l : list A) (j : nat) :
  (h0 ++ l) !! (length h0 + j) = l !! j.
Proof. rewrite lookup_app_r by lia. f_equal. lia. Qed.

Lemma alter_tail {A} (f : A → A) (h0 l : list A) (j : nat) :
  alter f (length h0 + j) (h0 ++ l) = h0 ++ alter f j l.
Proof.
  induction h0 as [|x h0 IH]; simpl; [reflexivity|]. f_equal. exact IH.
Qed.

(** ** The five-phase structure *)

Lemma nth5_set5_eq {A} (k : nat) (x : A) (t : five A) : nth5 (set5 k x t) k = x.
Proof. destruct k as [|[|[|[|k]]]]; reflexivity. Qed.

Lemma set5_set5 {A} (k : nat) (x y : A) (t : five A) :
  set5 k x (set5 k y t) = set5 k x t.
Proof. destruct k as [|[|[|[|k]]]]; reflexivity. Qed.

Lemma set5_nth5 {A} (k : nat) (t : five A) : set5 k (nth5 t k) t = t.
Proof. destruct t; destruct k as [|[|[|[|k]]]]; reflexivity. Qed.

Lemma period_index (k : nat) (period : string) :
  periods !! k = Some period → k < 5 ∧ periodAt k = period.
Proof.
  intros H. split.
  - apply lookup_lt_Some in H. exact H.
  - unfold periodAt. rewrite H. reflexivity.
Qed.

Lemma seedObj_cons (E : obj) (name : string) (names : list string) (m : obj) :
  seedObj E (name :: names) m =
    seedObj E names
      (if nullish (prop m name) then <[name := prop E name]> m else m).
Proof. reflexivity. Qed.

Lemma limitObj_cons (name : string) (names : list string) (m : obj) :
  limitObj (name :: names) m =
    limitObj names
      (if negb (nullish (prop m name))
       then <[name := applyLimits name (prop m name)]> m else m).
Proof. reflexivity. Qed.

Lemma periodAt_lookup (k : nat) : k < 5 → periods !! k = Some (periodAt k).
Proof. intros Hk. destruct k as [|[|[|[|[|k]]]]]; [reflexivity.. | lia]. Qed.

Lemma prop_insert_eq (m : obj) (k : string) (v : jsval) : prop (<[k := v]> m) k = v.
Proof. unfold prop. rewrite lookup_insert_eq. reflexivity. Qed.

Lemma prop_insert_ne (m : obj) (k k' : string) (v : jsval) :
  k ≠ k' → prop (<[k := v]> m) k' = prop m k'.
Proof. intros Hne. unfold prop. rewrite lookup_insert_ne by exact Hne. reflexivity. Qed.

Ltac each_name H :=
  unfold allIndicatorNames in H;
  repeat (apply elem_of_cons in H as [->|H]);
  [.. | apply elem_of_nil in H; destruct H].

Lemma applyLimits_nullish (name : string) (v : jsval) :
  nullish (applyLimits name v) = nullish v.
Proof.
  unfold applyLimits. destruct (INDICATOR_LIMITS !! name); destruct v; reflexivity.
Qed.

Lemma applyLimits_absent (name : string) (v : jsval) :
  nullish v = true → applyLimits name v = v.
Proof.
  unfold applyLimits. destruct (INDICATOR_LIMITS !! name); destruct v;
    try discriminate; reflexivity.
Qed.

Lemma applyLimits_idempotent (name : string) (v : jsval) :
  applyLimits name (applyLimits name v) = applyLimits name v.
Proof.
  unfold applyLimits. destruct (INDICATOR_LIMITS !! name) as [lim|]; [|reflexivity].
  destruct v; try reflexivity. rewrite clamp_idempotent. reflexivity.
Qed.

Lemma seedObj_prop (E : obj) (names : list string) (name : string) :
  ∀ m : obj,
    prop (seedObj E names m) name =
      if bool_decide (name ∈ names) && nullish (prop m name)
      then prop E name else prop m name.
Proof.
  induction names as [|x names IH]; intros m.
  - reflexivity.
  - rewrite seedObj_cons, IH. destruct (decide (x = name)) as [->|Hne].
    + rewrite (bool_decide_eq_true_2 (name ∈ name :: names)) by left.
      destruct (nullish (prop m name)) eqn:Hn; simpl.
      * rewrite prop_insert_eq. destruct (_ && _); reflexivity.
      * rewrite Hn, andb_false_r. reflexivity.
    + assert (Hsame : prop (if nullish (prop m x)
                            then <[x := prop E x]> m else m) name = prop m name).
      { destruct (nullish (prop m x)); [apply prop_insert_ne, Hne | reflexivity]. }
      rewrite Hsame.
      assert (Hmem : bool_decide (name ∈ x :: names) = bool_decide (name ∈ names)).
      { apply bool_decide_ext. rewrite elem_of_cons.
        split; [intros [Heq|Hin]; [congruence | exact Hin] | intros Hin; right; exact Hin]. }
      rewrite Hmem. reflexivity.
Qed.

Lemma limitObj_prop (names : list string) (name : string) :
  ∀ m : obj,
    prop (limitObj names m) name =
      if bool_decide (name ∈ names)
      then applyLimits name (prop m name) else prop m name.
Proof.
  induction names as [|x names IH]; intros m.
  - reflexivity.
  - rewrite limitObj_cons, IH. destruct (decide (x = name)) as [->|Hne].
    + rewrite (bool_decide_eq_true_2 (name ∈ name :: names)) by left.
      assert (Hhere : prop (if negb (nullish (prop m name))
                            then <[name := applyLimits name (prop m name)]> m
                            else m) name = applyLimits name (prop m name)).
      { destruct (nullish (prop m name)) eqn:Hn; simpl.
        - symmetry. apply applyLimits_absent, Hn.
        - apply prop_insert_eq. }
      rewrite Hhere, applyLimits_idempotent. destruct (bool_decide _); reflexivity.
    + assert (Hsame : prop (if negb (nullish (prop m x))
                            then <[x := applyLimits x (prop m x)]> m
                            else m) name = prop m name).
      { destruct (negb _); [apply prop_insert_ne, Hne | reflexivity]. }
      rewrite Hsame.
      assert (Hmem : bool_decide (name ∈ x :: names) = bool_decide (name ∈ names)).
      { apply bool_decide_ext. rewrite elem_of_cons.
        split; [intros [Heq|Hin]; [congruence | exact Hin] | intros Hin; right; exact Hin]. }
      rewrite Hmem. reflexivity.
Qed.

(** Every snapshot of the reference data gives a number to each of the
    nine indicators. *)
Lemma snapshot_prop (a b c d e f g i j : Q) (name : string) :
  name ∈ allIndicatorNames → ∃ q, prop (snapshot a b c d e f g i j) name = JNum q.
Proof. intros H. each_name H; eexists; reflexivity. Qed.

Lemma getEpochDataForYear_snapshot (year : Q) :
  ∃ a b c d e f g i j, getEpochDataForYear year = snapshot a b c d e f g i j.
Proof.
  unfold getEpochDataForYear, EPOCH_DATA_REFERENCE, FALLBACK_EPOCH_DATA, scanEpochs.
  repeat match goal with
         | |- context [if ?b then _ else _] => destruct b
         end;
    cbn [indicators]; do 9 eexists; reflexivity.
Qed.

Lemma epoch_value (year : Q) (name : string) :
  name ∈ allIndicatorNames → ∃ q, prop (getEpochDataForYear year) name = JNum q.
Proof.
  intros H.
  destruct (getEpochDataForYear_snapshot year)
    as (a & b & c & d & e & f & g & i & j & ->).
  apply snapshot_prop, H.
Qed.

Lemma seeded_complete (s e : Q) (ms : five obj) : complete5 (seededInds s e ms).
Proof.
  intros k name Hk Hname.
  assert (Hone : ∀ year m,
             nullish (prop (seedObj (getEpochDataForYear year)
                              allIndicatorNames m) name) = false).
  { intros year m. rewrite seedObj_prop.
    rewrite bool_decide_eq_true_2 by exact Hname. simpl.
    destruct (nullish (prop m name)) eqn:Hn; [|exact Hn].
    destruct (epoch_value year name Hname) as [q ->]. reflexivity. }
  unfold seededInds.
  destruct k as [|[|[|[|[|k]]]]]; [apply Hone.. | lia].
Qed.

Section Layout.
Context (h0 : heap).
Local Abbreviation n := (length h0).

Lemma read_td (ms : five obj) (cs : five (option jsval)) (k : nat) (period : string) :
  periods !! k = Some period →
  getProp (JRef (tdLoc n)) period (layout h0 ms cs)
    = Ok (JRef (perLoc n k)) (layout h0 ms cs).
Proof.
  intros Hk. unfold getProp, fields, layout, tdLoc.
  rewrite lookup_tail.
  destruct k as [|[|[|[|[|k]]]]]; simpl in Hk; inversion Hk; subst period;
    reflexivity.
Qed.

Lemma period_obj_indicators (k : nat) (c : option jsval) :
  periodObj n k c !! "indicators" = Some (JRef (indLoc n k)).
Proof. destruct c; reflexivity. Qed.

Lemma period_obj_cth (k : nat) (c : option jsval) :
  periodObj n k c !! "cth" = c.
Proof. destruct c; reflexivity. Qed.

Lemma lookup_period_obj (ms : five obj) (cs : five (option jsval)) (k : nat) :
  k < 5 →
  layout h0 ms cs !! perLoc n k = Some (periodObj n k (nth5 cs k)).
Proof.
  intros Hk. unfold layout, perLoc. rewrite lookup_tail.
  destruct k as [|[|[|[|[|k]]]]]; [reflexivity.. | lia].
Qed.

Lemma lookup_indicators_obj (ms : five obj) (cs : five (option jsval)) (k : nat) :
  k < 5 → layout h0 ms cs !! indLoc n k = Some (nth5 ms k).
Proof.
  intros Hk. unfold layout, indLoc. rewrite lookup_tail.
  destruct k as [|[|[|[|[|k]]]]]; [reflexivity.. | lia].
Qed.

Lemma read_period_indicators (ms : five obj) (cs : five (option jsval)) (k : nat) :
  k < 5 →
  getProp (JRef (perLoc n k)) "indicators" (layout h0 ms cs)
    = Ok (JRef (indLoc n k)) (layout h0 ms cs).
Proof.
  intros Hk. unfold getProp, fields. rewrite lookup_period_obj by exact Hk.
  unfold prop. simpl. rewrite period_obj_indicators. reflexivity.
Qed.

Lemma read_period_cth (ms : five obj) (cs : five (option jsval)) (k : nat) :
  k < 5 →
  getProp (JRef (perLoc n k)) "cth" (layout h0 ms cs)
    = Ok (default JUndefined (nth5 cs k)) (layout h0 ms cs).
Proof.
  intros Hk. unfold getProp, fields. rewrite lookup_period_obj by exact Hk.
  unfold prop. simpl. rewrite period_obj_cth. reflexivity.
Qed.

Lemma read_indicators_obj (ms : five obj) (cs : five (option jsval))
    (k : nat) (name : string) :
  k < 5 →
  getProp (JRef (indLoc n k)) name (layout h0 ms cs)
    = Ok (prop (nth5 ms k) name) (layout h0 ms cs).
Proof.
  intros Hk. unfold getProp, fields. rewrite lookup_indicators_obj by exact Hk.
  reflexivity.
Qed.

Lemma write_indicators_obj (ms : five obj) (cs : five (option jsval))
    (k : nat) (name : string) (x : jsval) :
  k < 5 →
  setProp (JRef (indLoc n k)) name x (layout h0 ms cs)
    = Ok tt (layout h0 (set5 k (<[name := x]> (nth5 ms k)) ms) cs).
Proof.
  intros Hk. unfold setProp, layout, indLoc. rewrite alter_tail.
  destruct k as [|[|[|[|[|k]]]]]; [reflexivity.. | lia].
Qed.

Lemma write_period_cth (ms : five obj) (cs : five (option jsval))
    (k : nat) (x : jsval) :
  k < 5 →
  setProp (JRef (perLoc n k)) "cth" x (layout h0 ms cs)
    = Ok tt (layout h0 ms (set5 k (Some x) cs)).
Proof.
  intros Hk. unfold setProp, layout, perLoc. rewrite alter_tail.
  assert (Hins : ∀ j c, <["cth" := x]> (periodObj n j c) = periodObj n j (Some x)).
  { intros j [c|]; simpl; [apply insert_insert_eq | reflexivity]. }
  destruct k as [|[|[|[|[|k]]]]]; [| | | | | lia];
    simpl; rewrite Hins; reflexivity.
Qed.

Lemma rewrite_td (ms : five obj) (cs : five (option jsval)) (k : nat) (period : string) :
  periods !! k = Some period →
  setProp (JRef (tdLoc n)) period (JRef (perLoc n k)) (layout h0 ms cs)
    = Ok tt (layout h0 ms cs).
Proof.
  intros Hk. unfold setProp, layout, tdLoc. rewrite alter_tail. simpl.
  rewrite insert_id; [reflexivity|].
  destruct k as [|[|[|[|[|k]]]]]; simpl in Hk; inversion Hk; subst period;
    reflexivity.
Qed.

Lemma rewrite_period_indicators (ms : five obj) (cs : five (option jsval)) (k : nat) :
  k < 5 →
  setProp (JRef (perLoc n k)) "indicators" (JRef (indLoc n k)) (layout h0 ms cs)
    = Ok tt (layout h0 ms cs).
Proof.
  intros Hk. unfold setProp, layout, perLoc. rewrite alter_tail.
  assert (Hins : ∀ j c, <["indicators" := JRef (indLoc n j)]> (periodObj n j c)
                        = periodObj n j c).
  { intros j c. apply insert_id, period_obj_indicators. }
  destruct k as [|[|[|[|[|k]]]]]; [| | | | | lia];
    simpl; rewrite Hins; reflexivity.
Qed.

Lemma call_cth (ms : five obj) (cs : five (option jsval)) (k : nat) :
  k < 5 →
  callCalculateCTH (JRef (indLoc n k)) (layout h0 ms cs)
    = Ok (scoreOf (nth5 ms k)) (layout h0 ms cs).
Proof.
  intros Hk. unfold callCalculateCTH, fields.
  rewrite lookup_indicators_obj by exact Hk. reflexivity.
Qed.

(** The three compound accesses of the pipeline. *)

Lemma run_getIndicator (ms : five obj) (cs : five (option jsval))
    (k : nat) (period name : string) :
  periods !! k = Some period →
  getIndicator (JRef (tdLoc n)) period name (layout h0 ms cs)
    = Ok (prop (nth5 ms k) name) (layout h0 ms cs).
Proof.
  intros Hk. pose proof (period_index k period Hk) as [Hlt _].
  unfold getIndicator.
  rewrite run_bind, (read_td ms cs k period Hk).
  rewrite run_bind, read_period_indicators by exact Hlt.
  apply read_indicators_obj, Hlt.
Qed.

Lemma run_setIndicator (ms : five obj) (cs : five (option jsval))
    (k : nat) (period name : string) (x : jsval) :
  periods !! k = Some period →
  setIndicator (JRef (tdLoc n)) period name x (layout h0 ms cs)
    = Ok tt (layout h0 (set5 k (<[name := x]> (nth5 ms k)) ms) cs).
Proof.
  intros Hk. pose proof (period_index k period Hk) as [Hlt _].
  unfold setIndicator.
  rewrite run_bind, (read_td ms cs k period Hk).
  rewrite run_bind, read_period_indicators by exact Hlt.
  apply write_indicators_obj, Hlt.
Qed.

Lemma run_scorePeriod (ms : five obj) (cs : five (option jsval))
    (k : nat) (period : string) :
  periods !! k = Some period →
  scorePeriod (JRef (tdLoc n)) period (layout h0 ms cs)
    = Ok tt (layout h0 ms (set5 k (Some (scoreOf (nth5 ms k))) cs)).
Proof.
  intros Hk. pose proof (period_index k period Hk) as [Hlt _].
  unfold scorePeriod.
  rewrite run_bind, (read_td ms cs k period Hk).
  rewrite run_bind, (read_td ms cs k period Hk).
  rewrite run_bind, read_period_indicators by exact Hlt.
  rewrite run_bind, call_cth by exact Hlt.
  apply write_period_cth, Hlt.
Qed.

Lemma run_ensurePeriod (ms : five obj) (cs : five (option jsval))
    (k : nat) (period : string) :
  periods !! k = Some period →
  ensurePeriod (JRef (tdLoc n)) period (layout h0 ms cs) = Ok tt (layout h0 ms cs).
Proof.
  intros Hk. pose proof (period_index k period Hk) as [Hlt _].
  unfold ensurePeriod.
  rewrite run_bind, (read_td ms cs k period Hk). simpl truthy. cbv iota.
  rewrite run_bind, run_ret.
  rewrite run_bind, (rewrite_td ms cs k period Hk).
  rewrite run_bind, (read_td ms cs k period Hk).
  rewrite run_bind, (read_td ms cs k period Hk).
  rewrite run_bind, read_period_indicators by exact Hlt. simpl truthy. cbv iota.
  rewrite run_bind, run_ret.
  apply rewrite_period_indicators, Hlt.
Qed.

Lemma run_seedNames (E : obj) (cs : five (option jsval))
    (k : nat) (period : string) (names : list string) :
  periods !! k = Some period →
  ∀ ms : five obj,
    forEach names (seedIndicator (JRef (tdLoc n)) period E) (layout h0 ms cs)
      = Ok tt (layout h0 (set5 k (seedObj E names (nth5 ms k)) ms) cs).
Proof.
  intros Hk. induction names as [|name names IH]; intros ms.
  - simpl. rewrite set5_nth5. reflexivity.
  - rewrite forEach_cons. unfold seedIndicator at 1.
    rewrite run_bind, (run_getIndicator ms cs k period name Hk).
    rewrite seedObj_cons.
    destruct (nullish (prop (nth5 ms k) name)).
    + rewrite (run_setIndicator ms cs k period name _ Hk), IH.
      rewrite nth5_set5_eq, set5_set5. reflexivity.
    + rewrite run_ret. apply IH.
Qed.

Lemma run_limitNames (cs : five (option jsval))
    (k : nat) (period : string) (names : list string) :
  periods !! k = Some period →
  ∀ ms : five obj,
    forEach names (limitIndicator (JRef (tdLoc n)) period) (layout h0 ms cs)
      = Ok tt (layout h0 (set5 k (limitObj names (nth5 ms k)) ms) cs).
Proof.
  intros Hk. induction names as [|name names IH]; intros ms.
  - simpl. rewrite set5_nth5. reflexivity.
  - rewrite forEach_cons. unfold limitIndicator at 1.
    rewrite run_bind, (run_getIndicator ms cs k period name Hk).
    rewrite limitObj_cons.
    destruct (nullish (prop (nth5 ms k) name)); cbn [negb].
    + apply IH.
    + rewrite run_bind, (run_getIndicator ms cs k period name Hk).
      rewrite (run_setIndicator ms cs k period name _ Hk), IH.
      rewrite nth5_set5_eq, set5_set5. reflexivity.
Qed.

Lemma run_seedPeriods (s e : Q) (ms : five obj) (cs : five (option jsval)) :
  forEach periods (seedPeriod (JRef (tdLoc n)) s e) (layout h0 ms cs)
    = Ok tt (layout h0 (seededInds s e ms) cs).
Proof.
  unfold periods, seedPeriod.
  rewrite forEach_cons, (run_seedNames _ cs 0 "before") by reflexivity.
  rewrite forEach_cons, (run_seedNames _ cs 1 "prelude") by reflexivity.
  rewrite forEach_cons, (run_seedNames _ cs 2 "during") by reflexivity.
  rewrite forEach_cons, (run_seedNames _ cs 3 "transition") by reflexivity.
  rewrite forEach_cons, (run_seedNames _ cs 4 "after") by reflexivity.
  destruct ms. reflexivity.
Qed.

Lemma run_limitPeriods (ms : five obj) (cs : five (option jsval)) :
  forEach periods (fun period =>
      forEach allIndicatorNames (limitIndicator (JRef (tdLoc n)) period))
    (layout h0 ms cs)
    = Ok tt (layout h0 (map5 (fun _ m => limitObj allIndicatorNames m) ms) cs).
Proof.
  unfold periods.
  rewrite forEach_cons, (run_limitNames cs 0 "before") by reflexivity.
  rewrite forEach_cons, (run_limitNames cs 1 "prelude") by reflexivity.
  rewrite forEach_cons, (run_limitNames cs 2 "during") by reflexivity.
  rewrite forEach_cons, (run_limitNames cs 3 "transition") by reflexivity.
  rewrite forEach_cons, (run_limitNames cs 4 "after") by reflexivity.
  destruct ms. reflexivity.
Qed.

Lemma run_scorePeriods (ms : five obj) (cs : five (option jsval)) :
  forEach periods (scorePeriod (JRef (tdLoc n))) (layout h0 ms cs)
    = Ok tt (layout h0 ms (finalScores ms)).
Proof.
  unfold periods.
  rewrite forEach_cons, (run_scorePeriod ms _ 0 "before") by reflexivity.
  rewrite forEach_cons, (run_scorePeriod ms _ 1 "prelude") by reflexivity.
  rewrite forEach_cons, (run_scorePeriod ms _ 2 "during") by reflexivity.
  rewrite forEach_cons, (run_scorePeriod ms _ 3 "transition") by reflexivity.
  rewrite forEach_cons, (run_scorePeriod ms _ 4 "after") by reflexivity.
  destruct ms. reflexivity.
Qed.

Lemma run_ensurePeriods (ms : five obj) (cs : five (option jsval)) :
  forEach periods (ensurePeriod (JRef (tdLoc n))) (layout h0 ms cs)
    = Ok tt (layout h0 ms cs).
Proof.
  apply forEach_skip. intros period Hin.
  apply list_elem_of_lookup in Hin as [k Hk].
  apply (run_ensurePeriod ms cs k period Hk).
Qed.

Lemma run_deltaLoop (ms : five obj) (cs : five (option jsval)) (idxs : list nat) :
  (∀ i, i ∈ idxs → i + 1 < 5) →
  ∀ acc : obj, ∃ deltaCTHs,
    deltaLoop (JRef (tdLoc n)) idxs acc (layout h0 ms cs)
      = Ok deltaCTHs (layout h0 ms cs).
Proof.
  induction idxs as [|i idxs IH]; intros Hidx acc.
  - exists acc. reflexivity.
  - assert (Hi : i + 1 < 5) by (apply Hidx; left).
    set (c1 := default JUndefined (nth5 cs i)).
    assert (Hd : ∃ d,
      (if defined c1 then
         o2 ← getProp (JRef (tdLoc n)) (periodAt (i + 1));
         c2 ← getProp o2 "cth";
         if defined c2 then mret (calculatePercentageChange c1 c2)
         else mret (JNum 0)
       else mret (JNum 0)) (layout h0 ms cs) = Ok d (layout h0 ms cs)).
    { destruct (defined c1); [|eexists; reflexivity].
      destruct (defined (default JUndefined (nth5 cs (i + 1)))) eqn:Hc2;
        eexists;
        (eapply bind_run; [apply (read_td ms cs (i + 1)), periodAt_lookup; lia|]);
        (eapply bind_run; [apply read_period_cth; lia|]);
        rewrite Hc2; reflexivity. }
    destruct Hd as [d Hd].
    destruct (IH (fun j Hj => Hidx j (list_elem_of_further _ _ _ Hj))
                (<[deltaKey (periodAt i) (periodAt (i + 1)) := d]> acc))
      as [deltaCTHs Hrest].
    exists deltaCTHs. cbn [deltaLoop].
    eapply bind_run; [apply (read_td ms cs i), periodAt_lookup; lia|].
    eapply bind_run; [apply read_period_cth; lia|].
    eapply bind_run; [exact Hd|]. exact Hrest.
Qed.

Lemma run_inferIndicator_complete (ms : five obj) (cs : five (option jsval))
    (deltaCTHs : obj) (i : nat) (name : string) :
  complete5 ms → i < 5 → name ∈ allIndicatorNames →
  inferIndicator (JRef (tdLoc n)) deltaCTHs i name (layout h0 ms cs)
    = Ok tt (layout h0 ms cs).
Proof.
  intros Hc Hi Hname. unfold inferIndicator.
  rewrite run_bind, (run_getIndicator ms cs i (periodAt i) name)
    by (apply periodAt_lookup; exact Hi).
  rewrite (Hc i name Hi Hname). reflexivity.
Qed.

Lemma run_inferencePass_complete (ms : five obj) (cs : five (option jsval))
    (deltaCTHs : obj) :
  complete5 ms →
  inferencePass (JRef (tdLoc n)) deltaCTHs (layout h0 ms cs)
    = Ok tt (layout h0 ms cs).
Proof.
  intros Hc. unfold inferencePass.
  apply forEach_skip. intros i Hi. apply elem_of_seq in Hi. simpl in Hi.
  apply forEach_skip. intros name Hname.
  apply run_inferIndicator_complete; [exact Hc | lia | exact Hname].
Qed.

(** The pipeline on the five-phase structure: seeding fills every slot, the
    inference passes then find nothing to infer, and the limits and the
    scores are applied to the seeded indicators. *)
Lemma run_completeAndInfer (s e : Q) (ms : five obj) (cs : five (option jsval)) :
  completeAndInferHistoricalData (JRef (tdLoc n)) s e (layout h0 ms cs)
    = Ok tt (layout h0 (completedInds s e ms)
                       (finalScores (completedInds s e ms))).
Proof.
  unfold completeAndInferHistoricalData. cbn [truthy typeof is_object_type negb orb].
  rewrite run_bind, run_ensurePeriods.
  rewrite run_bind, run_seedPeriods.
  rewrite run_bind, run_scorePeriods.
  destruct (run_deltaLoop (seededInds s e ms) (finalScores (seededInds s e ms))
              (seq 0 (length periods - 1))) with (acc := (∅ : obj))
    as [deltaCTHs Hdelta].
  { intros i Hi. apply elem_of_seq in Hi. simpl in Hi. lia. }
  rewrite run_bind, Hdelta.
  rewrite run_bind.
  rewrite (forEach_skip (seq 0 maxInferencePasses)).
  2:{ intros pass _. apply run_inferencePass_complete, seeded_complete. }
  rewrite run_bind, run_limitPeriods.
  rewrite run_scorePeriods.
  unfold completedInds, completedObj, seededInds, map5.
  cbn [at0 at1 at2 at3 at4]. reflexivity.
Qed.

End Layout.

(** ** [analyzeEventCTH] on an arbitrary store *)

Lemma alloc_twice (h : heap) (o : obj) :
  (alloc o ≫= λ copy : jsval, alloc {["indicators" := copy]}) h
    = Ok (JRef (S (length h))) (h ++ [o; {[ "indicators" := JRef (length h) ]}]).
Proof.
  rewrite run_bind. unfold alloc.
  rewrite length_app, <- app_assoc. simpl. do 3 f_equal. lia.
Qed.

Lemma run_phaseLiteral (h : heap) (l : nat) (period : string) :
  phaseLiteral (JRef l) period h
    = Ok (JRef (S (length h)))
         (h ++ [phaseInput h (JRef l) period;
                {[ "indicators" := JRef (length h) ]}]).
Proof.
  unfold phaseLiteral, phaseInput.
  set (p := prop (fields h (JRef l)) period).
  eapply bind_run; [reflexivity|]. fold p.
  unfold getPropOpt.
  destruct (nullish p) eqn:Hp.
  - eapply bind_run; [reflexivity|]. apply alloc_twice.
  - assert (Hget : ∀ k, getProp p k h = Ok (prop (fields h p) k) h).
    { intros k. destruct p; try discriminate Hp; reflexivity. }
    eapply bind_run; [apply Hget|].
    set (i := prop (fields h p) "indicators").
    destruct (truthy i) eqn:Hi.
    + eapply bind_run.
      * eapply bind_run; [reflexivity|]. fold p.
        eapply bind_run; [apply Hget|]. fold i.
        eapply bind_run; [reflexivity|]. reflexivity.
      * cbv beta. unfold alloc. rewrite length_app, <- app_assoc. simpl.
        do 3 f_equal. lia.
    + apply alloc_twice.
Qed.

Lemma layout_fresh (h0 : heap) (i0 i1 i2 i3 i4 : obj) :
  let n := length h0 in
  let h1 := h0 ++ [i0; {[ "indicators" := JRef (length h0) ]}] in
  let h2 := h1 ++ [i1; {[ "indicators" := JRef (length h1) ]}] in
  let h3 := h2 ++ [i2; {[ "indicators" := JRef (length h2) ]}] in
  let h4 := h3 ++ [i3; {[ "indicators" := JRef (length h3) ]}] in
  let h5 := h4 ++ [i4; {[ "indicators" := JRef (length h4) ]}] in
  length h5 = tdLoc n ∧
  h5 ++ [ <["before" := JRef (S (length h0))]>
          (<["prelude" := JRef (S (length h1))]>
          (<["during" := JRef (S (length h2))]>
          (<["transition" := JRef (S (length h3))]>
          {[ "after" := JRef (S (length h4)) ]}))) ]
    = layout h0 (Five i0 i1 i2 i3 i4) (Five None None None None None).
Proof.
  intros n h1 h2 h3 h4 h5.
  assert (L1 : length h1 = n + 2) by (unfold h1; rewrite length_app; reflexivity).
  assert (L2 : length h2 = n + 4) by (unfold h2; rewrite length_app, L1; simpl; lia).
  assert (L3 : length h3 = n + 6) by (unfold h3; rewrite length_app, L2; simpl; lia).
  assert (L4 : length h4 = n + 8) by (unfold h4; rewrite length_app, L3; simpl; lia).
  split.
  - unfold h5, tdLoc. rewrite length_app, L4. simpl. lia.
  - rewrite L4, L3, L2, L1.
    unfold h5. rewrite L4. unfold h4. rewrite L3. unfold h3. rewrite L2.
    unfold h2. rewrite L1. unfold h1.
    unfold layout, tdObj, periodObj, indLoc, perLoc. fold n.
    rewrite <- !app_assoc. cbn [app Nat.mul Nat.add].
    replace (n + 0) with n by lia.
    replace (S n) with (n + 1) by lia.
    replace (S (n + 2)) with (n + 3) by lia.
    replace (S (n + 4)) with (n + 5) by lia.
    replace (S (n + 6)) with (n + 7) by lia.
    replace (S (n + 8)) with (n + 9) by lia.
    reflexivity.
Qed.

(** The run of [analyzeEventCTH] on structurally valid arguments, on any
    store: it returns a reference to a new five-phase structure whose
    indicators are the completed copies of the caller's. *)
Lemma run_analyzeEventCTH (s e : Q) (l : nat) (h0 : heap) :
  Qle_bool s e = true →
  analyzeEventCTH (JNum s) (JNum e) (JRef l) h0
    = Ok (JRef (tdLoc (length h0)))
         (layout h0 (completedInds s e (copiedInputs h0 (JRef l)))
                    (finalScores (completedInds s e (copiedInputs h0 (JRef l))))).
Proof.
  intros Hle. unfold analyzeEventCTH. rewrite Hle.
  cbn [negb truthy typeof is_object_type orb].
  eapply bind_run; [apply run_phaseLiteral|].
  eapply bind_run; [apply run_phaseLiteral|].
  eapply bind_run; [apply run_phaseLiteral|].
  eapply bind_run; [apply run_phaseLiteral|].
  eapply bind_run; [apply run_phaseLiteral|].
  eapply bind_run; [reflexivity|].
  destruct (layout_fresh h0
        (at0 (copiedInputs h0 (JRef l)))
        (at1 (copiedInputs h0 (JRef l))) (at2 (copiedInputs h0 (JRef l)))
        (at3 (copiedInputs h0 (JRef l))) (at4 (copiedInputs h0 (JRef l))))
        as [Hlen Hlay].
  unfold copiedInputs in Hlen, Hlay.
  cbn [at0 at1 at2 at3 at4] in Hlen, Hlay.
  rewrite Hlen, Hlay.
  eapply bind_run; [apply run_completeAndInfer|].
  reflexivity.
Qed.

(** ** Reading the result *)

Lemma getProp_value (v : jsval) (k : string) (h h' : heap) (a : jsval) :
  getProp v k h = Ok a h' → prop (fields h v) k = a.
Proof. destruct v; simpl; intros H; inversion H; reflexivity. Qed.

Lemma indicatorIn_layout (h0 : heap) (ms : five obj) (cs : five (option jsval))
    (k : nat) (period name : string) :
  periods !! k = Some period →
  indicatorIn (layout h0 ms cs) (JRef (tdLoc (length h0))) period name
    = prop (nth5 ms k) name.
Proof.
  intros Hk. unfold indicatorIn.
  pose proof (period_index k period Hk) as [Hlt _].
  rewrite (getProp_value _ _ _ _ _ (read_td h0 ms cs k period Hk)).
  rewrite (getProp_value _ _ _ _ _ (read_period_indicators h0 ms cs k Hlt)).
  apply (getProp_value _ _ _ _ _ (read_indicators_obj h0 ms cs k name Hlt)).
Qed.

Lemma scoreIn_layout (h0 : heap) (ms : five obj) (cs : five (option jsval))
    (k : nat) (period : string) :
  periods !! k = Some period →
  scoreIn (layout h0 ms cs) (JRef (tdLoc (length h0))) period
    = default JUndefined (nth5 cs k).
Proof.
  intros Hk. unfold scoreIn.
  pose proof (period_index k period Hk) as [Hlt _].
  rewrite (getProp_value _ _ _ _ _ (read_td h0 ms cs k period Hk)).
  apply (getProp_value _ _ _ _ _ (read_period_cth h0 ms cs k Hlt)).
Qed.

(** ** The caller's data *)

Lemma fields_primitive (h : heap) (v : jsval) :
  truthy v = false → fields h v = ∅.
Proof. destruct v; try reflexivity. discriminate. Qed.

Lemma phaseInput_fields (h : heap) (data : jsval) (period : string) :
  phaseInput h data period
    = fields h (prop (fields h (prop (fields h data) period)) "indicators").
Proof.
  unfold phaseInput.
  set (p := prop (fields h data) period).
  assert (Hi : (if nullish p then JUndefined else prop (fields h p) "indicators")
               = prop (fields h p) "indicators").
  { destruct p; reflexivity. }
  rewrite Hi.
  destruct (truthy (prop (fields h p) "indicators")) eqn:Ht; [reflexivity|].
  symmetry. apply fields_primitive, Ht.
Qed.

Lemma phaseInput_prop (h : heap) (data : jsval) (period name : string) :
  prop (phaseInput h data period) name = indicatorIn h data period name.
Proof. rewrite phaseInput_fields. reflexivity. Qed.

Lemma fields_app (h x : heap) (v : jsval) :
  inStore h v = true → fields (h ++ x) v = fields h v.
Proof.
  destruct v; try reflexivity. simpl. intros Hl.
  apply bool_decide_eq_true in Hl. rewrite lookup_app_l by exact Hl. reflexivity.
Qed.

Lemma phaseInput_app (h x : heap) (data : jsval) (period : string) :
  inStore h data = true → closedPhase h data period = true →
  phaseInput (h ++ x) data period = phaseInput h data period.
Proof.
  intros Hd Hp. unfold closedPhase in Hp. apply andb_true_iff in Hp as [Hp Hi].
  rewrite !phaseInput_fields.
  rewrite (fields_app h x data Hd).
  rewrite (fields_app h x _ Hp).
  apply fields_app, Hi.
Qed.

Lemma copiedInputs_closed (h0 : heap) (data : jsval) :
  closedData h0 data = true →
  copiedInputs h0 data =
    Five (phaseInput h0 data "before") (phaseInput h0 data "prelude")
         (phaseInput h0 data "during") (phaseInput h0 data "transition")
         (phaseInput h0 data "after").
Proof.
  intros Hc. unfold closedData in Hc. apply andb_true_iff in Hc as [Hd Hall].
  unfold periods in Hall. cbn [forallb] in Hall.
  repeat (apply andb_true_iff in Hall as [? Hall]).
  unfold copiedInputs. cbv zeta.
  rewrite <- !app_assoc.
  rewrite !phaseInput_app by assumption. reflexivity.
Qed.

Lemma nth5_copiedInputs (h0 : heap) (data : jsval) (k : nat) (period : string) :
  closedData h0 data = true → periods !! k = Some period →
  nth5 (copiedInputs h0 data) k = phaseInput h0 data period.
Proof.
  intros Hc Hk. rewrite copiedInputs_closed by exact Hc.
  destruct k as [|[|[|[|[|k]]]]]; simpl in Hk; inversion Hk; reflexivity.
Qed.

(** ** The completed indicators *)

Lemma completedObj_prop (s e : Q) (period name : string) (m : obj) :
  name ∈ allIndicatorNames →
  prop (completedObj s e period m) name =
    applyLimits name
      (if nullish (prop m name) then epochSeed s e period name else prop m name).
Proof.
  intros Hname. unfold completedObj.
  rewrite limitObj_prop, seedObj_prop.
  rewrite !bool_decide_eq_true_2 by exact Hname. reflexivity.
Qed.

Lemma completedObj_other (s e : Q) (period name : string) (m : obj) :
  name ∉ allIndicatorNames →
  prop (completedObj s e period m) name = prop m name.
Proof.
  intros Hname. unfold completedObj.
  rewrite limitObj_prop, seedObj_prop.
  rewrite !bool_decide_eq_false_2 by exact Hname. reflexivity.
Qed.

Lemma nth5_completedInds (s e : Q) (ms : five obj) (k : nat) (period : string) :
  periods !! k = Some period →
  nth5 (completedInds s e ms) k = completedObj s e period (nth5 ms k).
Proof.
  intros Hk.
  destruct k as [|[|[|[|[|k]]]]]; simpl in Hk; inversion Hk; reflexivity.
Qed.

Lemma nth5_finalScores (ms : five obj) (k : nat) :
  nth5 (finalScores ms) k = Some (scoreOf (nth5 ms k)).
Proof. destruct k as [|[|[|[|[|k]]]]]; reflexivity. Qed.

(** ** What the pipeline returns *)

Lemma callerIndicators_input (h : heap) (data : jsval) (period : string) :
  phaseInput h data period = callerIndicators h data period.
Proof. apply phaseInput_fields. Qed.

Ltac in_names := unfold allIndicatorNames; repeat constructor.

Lemma limits_known (name : string) :
  name ∈ allIndicatorNames →
  ∃ lim, INDICATOR_LIMITS !! name = Some lim ∧ limits_of name = lim ∧
         (min lim <= max lim)%Q.
Proof.
  intros H. each_name H; eexists; (split; [reflexivity|split; [reflexivity|]]);
    vm_compute; discriminate.
Qed.

Lemma applyLimits_number (name : string) (q : Q) :
  name ∈ allIndicatorNames → withinDomain name (applyLimits name (JNum q)).
Proof.
  intros H. destruct (limits_known name H) as (lim & Hlim & _ & Hle).
  unfold applyLimits. rewrite Hlim.
  exists (clamp (min lim) (max lim) q), lim.
  pose proof (clamp_in_range (min lim) (max lim) q Hle) as [H1 H2].
  repeat split; assumption.
Qed.

Lemma applyLimits_other (name : string) (v : jsval) :
  validNumber v = false → applyLimits name v = v.
Proof.
  unfold applyLimits. destruct (INDICATOR_LIMITS !! name); destruct v;
    try discriminate; reflexivity.
Qed.

Lemma scoreOf_isScore (m : obj) : isScore (scoreOf m).
Proof.
  unfold scoreOf, calculateCTHFromIndicators. cbn [default].
  destruct (computeScore_range DEFAULT_CTH_WEIGHTS
              (average [normalized m "gdpPerCapita"; normalized m "giniIndex";
                        normalized m "politicalEventsCount"])
              (average [normalized m "averageIncome"; normalized m "literacyRate"])
              (average [normalized m "lifeExpectancy"; normalized m "birthRate"])
              (average [normalized m "populationDensity";
                        normalized m "urbanizationRate"]))
    as (q & Hq & Hrange).
  exists q. unfold id. rewrite Hq. split; [reflexivity | exact Hrange].
Qed.

Lemma scoreOf_number (m : obj) :
  ∃ q, calculateCTHFromIndicators (Some m) None = Some q ∧ scoreOf m = JNum q.
Proof.
  destruct (scoreOf_isScore m) as (q & Hq & _). unfold scoreOf in *.
  destruct (calculateCTHFromIndicators (Some m) None) as [x|]; [|discriminate Hq].
  exists x. split; reflexivity.
Qed.

(** The outcome of a run on structurally valid arguments, in terms of the
    caller's data: an indicator the caller left out is the epoch seed of
    its phase, one the caller supplied is kept, and both go through
    [applyLimits]; the score is that of the completed indicators. *)
Lemma analyzeEventCTH_outcome (s e : Q) (l : nat) (h0 : heap) :
  Qle_bool s e = true → closedData h0 (JRef l) = true →
  ∃ r h',
    analyzeEventCTH (JNum s) (JNum e) (JRef l) h0 = Ok r h' ∧
    ∀ period, period ∈ periods →
      scoreIn h' r period
        = scoreOf (completedObj s e period (callerIndicators h0 (JRef l) period)) ∧
      ∀ name,
        indicatorIn h' r period name
          = prop (completedObj s e period (callerIndicators h0 (JRef l) period)) name.
Proof.
  intros Hle Hclosed. eexists _, _. split; [apply run_analyzeEventCTH, Hle|].
  intros period Hperiod. apply list_elem_of_lookup in Hperiod as [k Hk].
  split.
  - rewrite (scoreIn_layout _ _ _ k period Hk), nth5_finalScores.
    rewrite (nth5_completedInds _ _ _ k period Hk).
    rewrite (nth5_copiedInputs _ _ k period Hclosed Hk), callerIndicators_input.
    reflexivity.
  - intros name. rewrite (indicatorIn_layout _ _ _ k period name Hk).
    rewrite (nth5_completedInds _ _ _ k period Hk).
    rewrite (nth5_copiedInputs _ _ k period Hclosed Hk), callerIndicators_input.
    reflexivity.
Qed.

(** Every snapshot that the epoch lookup can return holds, for each of
    the nine indicators, a number inside the declared domain. *)
Lemma epoch_results (year : Q) :
  In (getEpochDataForYear year)
     (FALLBACK_EPOCH_DATA :: map (fun entry => indicators (snd entry)) EPOCH_DATA_REFERENCE).
Proof.
  unfold getEpochDataForYear, EPOCH_DATA_REFERENCE, scanEpochs.
  cbn [startYear endYear indicators map snd].
  repeat match goal with
         | |- context [if ?b then _ else _] => destruct b
         end; cbn [In]; tauto.
Qed.

Lemma epoch_seed_within_limits (year : Q) (name : string) :
  name ∈ allIndicatorNames →
  withinDomain name (prop (getEpochDataForYear year) name) ∧
  applyLimits name (prop (getEpochDataForYear year) name)
    = prop (getEpochDataForYear year) name.
Proof.
  intros Hname. pose proof (epoch_results year) as Hres.
  cbn [In map EPOCH_DATA_REFERENCE snd indicators] in Hres.
  unfold EPOCH_DATA_REFERENCE in Hres. cbn [In map snd indicators] in Hres.
  repeat (destruct Hres as [<-|Hres]); [.. | destruct Hres];
    each_name Hname;
    (split; [eexists _, _; split; [reflexivity|]; split; [reflexivity|];
             split; vm_compute; discriminate
            | vm_compute; reflexivity]).
Qed.

(** ** Structural validation and totality *)

(** Called on its own with something that is not an object,
    [completeAndInferHistoricalData] throws; [analyzeEventCTH] always hands
    it the structure it has just built. *)
Lemma completeAndInfer_throws (s e : Q) (h : heap) :
  completeAndInferHistoricalData JUndefined s e h
    = Throw "temporalData is undefined or not an object".
Proof. reflexivity. Qed.

Lemma analyzeEventCTH_rejects (s e data : jsval) (h0 : heap) :
  structurallyInvalid s e data → analyzeEventCTH s e data h0 = Ok JNull h0.
Proof.
  intros Hinv. unfold analyzeEventCTH.
  destruct s as [| |b|a| |l]; try reflexivity.
  destruct e as [| |b'|b| |l']; try reflexivity.
  destruct (Qle_bool a b) eqn:Hle; [|reflexivity]. cbn [negb].
  destruct data as [| |c|q| |l]; try reflexivity;
    try (cbn [typeof is_object_type negb]; rewrite orb_true_r; reflexivity).
  exfalso. apply Qle_bool_iff in Hle.
  destruct Hinv as [H|[H|[(a' & b' & Ha & Hb & Hlt)|H]]].
  - apply H. eexists. reflexivity.
  - apply H. eexists. reflexivity.
  - injection Ha as <-. injection Hb as <-. apply (Qlt_not_le _ _ Hlt Hle).
  - apply H. eexists. reflexivity.
Qed.

Lemma structurally_valid (s e data : jsval) :
  ¬ structurallyInvalid s e data →
  ∃ a b l, s = JNum a ∧ e = JNum b ∧ data = JRef l ∧ Qle_bool a b = true.
Proof.
  intros Hvalid. unfold structurallyInvalid, isYear, isRecord in Hvalid.
  destruct s as [| |?|a| |?];
    try (exfalso; apply Hvalid; left; intros [? Hq]; discriminate Hq).
  destruct e as [| |?|b| |?];
    try (exfalso; apply Hvalid; right; left; intros [? Hq]; discriminate Hq).
  destruct data as [| |?|?| |l];
    try (exfalso; apply Hvalid; do 3 right; intros [? Hq]; discriminate Hq).
  exists a, b, l. repeat split.
  destruct (Qle_bool a b) eqn:Hle; [reflexivity|].
  exfalso. apply Hvalid. right. right. left. exists a, b. repeat split.
  apply Qnot_le_lt. intros Hab. apply Qle_bool_iff in Hab. congruence.
Qed.

Lemma structurallyInvalid_dec (s e data : jsval) :
  structurallyInvalid s e data ∨ ¬ structurallyInvalid s e data.
Proof.
  unfold structurallyInvalid, isYear, isRecord.
  destruct s as [| |?|a| |?];
    try (left; left; intros [? Hq]; discriminate Hq).
  destruct e as [| |?|b| |?];
    try (left; right; left; intros [? Hq]; discriminate Hq).
  destruct data as [| |?|?| |l];
    try (left; do 3 right; intros [? Hq]; discriminate Hq).
  destruct (Qlt_le_dec b a) as [Hlt|Hle].
  - left. right. right. left. exists a, b. repeat split. exact Hlt.
  - right. intros [H|[H|[(a' & b' & Ha & Hb & Hlt)|H]]].
    + apply H. eexists. reflexivity.
    + apply H. eexists. reflexivity.
    + injection Ha as <-. injection Hb as <-. apply (Qlt_not_le _ _ Hlt Hle).
    + apply H. eexists. reflexivity.
Qed.

(** C4 (as the code has it): [analyzeEventCTH] never throws; it returns [null],
    leaving the store as it was, exactly when a year is not a number (NaN
    included), the start year is after the end year or the data is not an
    object.  Otherwise it returns a structure in which each of the five
    phases has a score and a value for each of the nine indicators, and
    what the caller supplied for an indicator decides the value: a missing
    one ([undefined] or [null]) is replaced by the epoch default of the
    representative year of the phase, a number is clamped to the domain of
    the indicator, and a value that is present but not a valid number (NaN
    for one) is returned as it is. *)
Theorem analyzeEventCTH_null_iff_invalid (s e data : jsval) (h0 : heap) :
  ∃ r h',
    analyzeEventCTH s e data h0 = Ok r h' ∧
    (r = JNull ↔ structurallyInvalid s e data) ∧
    (r = JNull → h' = h0) ∧
    (r ≠ JNull →
     Forall (fun period =>
               isScore (scoreIn h' r period) ∧
               Forall (fun name => nullish (indicatorIn h' r period name) = false)
                 allIndicatorNames)
       periods) ∧
    (r ≠ JNull → closedData h0 data = true →
     ∀ a b period name,
       s = JNum a → e = JNum b → period ∈ periods → name ∈ allIndicatorNames →
       (nullish (prop (callerIndicators h0 data period) name) = true →
        indicatorIn h' r period name = epochSeed a b period name ∧
        withinDomain name (indicatorIn h' r period name)) ∧
       (∀ q, prop (callerIndicators h0 data period) name = JNum q →
        indicatorIn h' r period name
          = JNum (clamp (min (limits_of name)) (max (limits_of name)) q)) ∧
       (nullish (prop (callerIndicators h0 data period) name) = false →
        validNumber (prop (callerIndicators h0 data period) name) = false →
        indicatorIn h' r period name
          = prop (callerIndicators h0 data period) name)).
Proof.
  destruct (structurallyInvalid_dec s e data) as [Hinv|Hvalid].
  - exists JNull, h0. split; [apply analyzeEventCTH_rejects, Hinv|].
    split; [tauto|]. split; [reflexivity|].
    split; intros H; contradiction.
  - destruct (structurally_valid s e data Hvalid) as (a & b & l & -> & -> & -> & Hle).
    eexists _, _. split; [apply run_analyzeEventCTH, Hle|].
    split; [split; [discriminate | contradiction]|].
    split; [discriminate|]. split.
    + intros _.
      apply Forall_forall. intros period Hperiod.
      apply list_elem_of_lookup in Hperiod as [k Hk].
      pose proof (period_index k period Hk) as [Hlt _].
      split.
      * rewrite (scoreIn_layout _ _ _ k period Hk), nth5_finalScores.
        apply scoreOf_isScore.
      * apply Forall_forall. intros name Hname.
        rewrite (indicatorIn_layout _ _ _ k period name Hk).
        rewrite (nth5_completedInds _ _ _ k period Hk).
        rewrite completedObj_prop by exact Hname.
        rewrite applyLimits_nullish.
        destruct (nullish (prop _ name)) eqn:Hn; [|exact Hn].
        destruct (epoch_value (periodYear period a b) name Hname) as [q Hq].
        unfold epochSeed. rewrite Hq. reflexivity.
    + intros _ Hclosed a' b' period name Ha Hb Hperiod Hname.
      injection Ha as <-. injection Hb as <-.
      apply list_elem_of_lookup in Hperiod as [k Hk].
      rewrite (indicatorIn_layout _ _ _ k period name Hk).
      rewrite (nth5_completedInds _ _ _ k period Hk).
      rewrite (nth5_copiedInputs _ _ k period Hclosed Hk), callerIndicators_input.
      rewrite completedObj_prop by exact Hname.
      destruct (epoch_seed_within_limits (periodYear period a b) name Hname)
        as [Hdomain Hfixed].
      split; [|split].
      * intros Hmissing. rewrite Hmissing. unfold epochSeed.
        rewrite Hfixed. split; [reflexivity | exact Hdomain].
      * intros q Hq. rewrite Hq. cbn [nullish].
        destruct (limits_known name Hname) as (lim & Hlim & <- & _).
        unfold applyLimits. rewrite Hlim. unfold limits_of. rewrite Hlim.
        reflexivity.
      * intros Hpresent Hinvalid. rewrite Hpresent.
        apply applyLimits_other, Hinvalid.
Qed.

Lemma analyzeEventCTH_null_iff_invalid_witness :
  analyzeEventCTH (JNum 1799) (JNum 1789) (JRef 2) nanStore = Ok JNull nanStore ∧
  ∃ r h',
    analyzeEventCTH (JNum 1789) (JNum 1799) (JRef 2) nanStore = Ok r h' ∧
    indicatorIn h' r "before" "gdpPerCapita" = JNum 1500.
Proof.
  split.
  - destruct (analyzeEventCTH_null_iff_invalid (JNum 1799) (JNum 1789) (JRef 2) nanStore)
      as (r & h' & Hrun & [_ Hnull] & Hsame & _).
    assert (Hr : r = JNull).
    { apply Hnull. right. right. left. exists 1799%Q, 1789%Q.
      repeat split. }
    rewrite Hrun, (Hsame Hr), Hr. reflexivity.
  - destruct (analyzeEventCTH_null_iff_invalid (JNum 1789) (JNum 1799) (JRef 2) nanStore)
      as (r & h' & Hrun & [Hnull _] & _ & _ & Habsorb).
    exists r, h'. split; [exact Hrun|].
    assert (Hr : r ≠ JNull).
    { intros Hr. destruct (Hnull Hr) as [H|[H|[(a & b & Ha & Hb & Hlt)|H]]].
      - apply H. eexists. reflexivity.
      - apply H. eexists. reflexivity.
      - injection Ha as <-. injection Hb as <-. discriminate Hlt.
      - apply H. eexists. reflexivity. }
    destruct (Habsorb Hr eq_refl 1789%Q 1799%Q "before" "gdpPerCapita"
                eq_refl eq_refl) as [Hmissing _].
    + unfold periods. repeat constructor.
    + unfold allIndicatorNames. repeat constructor.
    + destruct (Hmissing eq_refl) as [-> _]. reflexivity.
Defined.

(** C4 (as the specification has it) fails where it says that invalid
    per-indicator data is absorbed by the epoch defaults: the data
    [{ during: { indicators: { gdpPerCapita: NaN } } }] is accepted for the
    years 1789 and 1799, the epoch default of "during" for [gdpPerCapita]
    is 1500, and the result holds NaN. *)
Lemma invalid_indicator_not_absorbed :
  (∃ r h', analyzeEventCTH (JNum 1789) (JNum 1799) (JRef 2) nanStore = Ok r h' ∧
           r ≠ JNull) ∧
  prop (callerIndicators nanStore (JRef 2) "during") "gdpPerCapita" = JNaN ∧
  epochSeed 1789 1799 "during" "gdpPerCapita" = JNum 1500 ∧
  resultIndicator (analyzeEventCTH (JNum 1789) (JNum 1799) (JRef 2) nanStore)
    "during" "gdpPerCapita" = JNaN ∧
  resultIndicator (analyzeEventCTH (JNum 1789) (JNum 1799) (JRef 2) nanStore)
    "during" "gdpPerCapita" ≠ epochSeed 1789 1799 "during" "gdpPerCapita".
Proof.
  assert (Hnan : resultIndicator
                   (analyzeEventCTH (JNum 1789) (JNum 1799) (JRef 2) nanStore)
                   "during" "gdpPerCapita" = JNaN)
    by (vm_compute; reflexivity).
  assert (Hseed : epochSeed 1789 1799 "during" "gdpPerCapita" = JNum 1500)
    by (vm_compute; reflexivity).
  split.
  { eexists _, _. split; [apply run_analyzeEventCTH; reflexivity | discriminate]. }
  split; [reflexivity|]. split; [exact Hseed|]. split; [exact Hnan|].
  rewrite Hnan, Hseed. discriminate.
Qed.

(** ** The caller's objects are left alone *)

(** C10: whatever its arguments, [analyzeEventCTH] leaves every object of
    the caller's store as it was: the final store is the initial one
    followed by new objects, and for each phase the phase object and the
    indicators object of the returned structure are among the new ones. *)
Theorem analyzeEventCTH_frame (s e data : jsval) (h0 : heap) :
  ∃ r h',
    analyzeEventCTH s e data h0 = Ok r h' ∧
    take (length h0) h' = h0 ∧
    (r = JNull ∨
     ∃ t, r = JRef t ∧ length h0 <= t ∧
       Forall (fun period =>
                 ∃ p i, prop (fields h' r) period = JRef p ∧ length h0 <= p ∧
                        prop (fields h' (JRef p)) "indicators" = JRef i ∧
                        length h0 <= i)
         periods).
Proof.
  destruct (structurallyInvalid_dec s e data) as [Hinv|Hvalid].
  - exists JNull, h0. split; [apply analyzeEventCTH_rejects, Hinv|].
    split; [apply firstn_all | left; reflexivity].
  - destruct (structurally_valid s e data Hvalid) as (a & b & l & -> & -> & -> & Hle).
    eexists _, _. split; [apply run_analyzeEventCTH, Hle|].
    split; [apply take_app_length|]. right.
    exists (tdLoc (length h0)). split; [reflexivity|]. split; [unfold tdLoc; lia|].
    apply Forall_forall. intros period Hperiod.
    apply list_elem_of_lookup in Hperiod as [k Hk].
    pose proof (period_index k period Hk) as [Hlt _].
    exists (perLoc (length h0) k), (indLoc (length h0) k).
    split; [apply (getProp_value _ _ _ _ _ (read_td h0 _ _ k period Hk))|].
    split; [unfold perLoc; lia|].
    split; [apply (getProp_value _ _ _ _ _ (read_period_indicators h0 _ _ k Hlt))|].
    unfold indLoc. lia.
Qed.

(** ** The clamping invariant *)

(** C3 (as the code has it): on accepted arguments every returned score
    lies in [[0,1]], and every returned indicator is either a number inside
    its declared domain or the value that the caller supplied, when that
    value is neither missing nor a number. *)
Theorem completed_values_clamped (s e : Q) (l : nat) (h0 : heap) :
  Qle_bool s e = true → closedData h0 (JRef l) = true →
  ∃ r h',
    analyzeEventCTH (JNum s) (JNum e) (JRef l) h0 = Ok r h' ∧
    Forall (fun period =>
              isScore (scoreIn h' r period) ∧
              Forall (fun name =>
                        let supplied := prop (callerIndicators h0 (JRef l) period) name in
                        let returned := indicatorIn h' r period name in
                        withinDomain name returned ∨
                        (nullish supplied = false ∧ validNumber supplied = false ∧
                         returned = supplied))
                allIndicatorNames)
      periods.
Proof.
  intros Hle Hclosed.
  destruct (analyzeEventCTH_outcome s e l h0 Hle Hclosed) as (r & h' & Hrun & Hout).
  exists r, h'. split; [exact Hrun|].
  apply Forall_forall. intros period Hperiod.
  destruct (Hout period Hperiod) as [Hscore Hind]. split.
  - rewrite Hscore. apply scoreOf_isScore.
  - apply Forall_forall. intros name Hname. cbv zeta.
    rewrite Hind, completedObj_prop by exact Hname.
    destruct (nullish (prop (callerIndicators h0 (JRef l) period) name)) eqn:Hn.
    + left. unfold epochSeed.
      destruct (epoch_value (periodYear period s e) name Hname) as [q ->].
      apply applyLimits_number, Hname.
    + destruct (prop (callerIndicators h0 (JRef l) period) name) as [| |b|q| |t] eqn:Hv;
        try discriminate Hn;
        try (right; repeat split; try reflexivity;
             apply applyLimits_other; reflexivity).
      left. apply applyLimits_number, Hname.
Qed.

Lemma completed_values_clamped_witness :
  Qle_bool 1789 1799 = true ∧ closedData nanStore (JRef 2) = true ∧
  ∃ r h',
    analyzeEventCTH (JNum 1789) (JNum 1799) (JRef 2) nanStore = Ok r h' ∧
    Forall (fun period =>
              isScore (scoreIn h' r period) ∧
              Forall (fun name =>
                        let supplied := prop (callerIndicators nanStore (JRef 2) period) name in
                        let returned := indicatorIn h' r period name in
                        withinDomain name returned ∨
                        (nullish supplied = false ∧ validNumber supplied = false ∧
                         returned = supplied))
                allIndicatorNames)
      periods.
Proof.
  split; [reflexivity|]. split; [reflexivity|].
  apply (completed_values_clamped 1789 1799 2 nanStore); reflexivity.
Defined.

(** C3 (as the specification has it) fails: the years 1789 and 1799 and the
    data [{ during: { indicators: { gdpPerCapita: NaN } } }] are accepted,
    and the returned indicator is NaN, which lies in no domain. *)
Lemma nan_indicator_escapes_domain :
  resultIndicator (analyzeEventCTH (JNum 1789) (JNum 1799) (JRef 2) nanStore)
    "during" "gdpPerCapita" = JNaN ∧
  ¬ withinDomain "gdpPerCapita"
      (resultIndicator (analyzeEventCTH (JNum 1789) (JNum 1799) (JRef 2) nanStore)
         "during" "gdpPerCapita").
Proof.
  assert (Hnan : resultIndicator
                   (analyzeEventCTH (JNum 1789) (JNum 1799) (JRef 2) nanStore)
                   "during" "gdpPerCapita" = JNaN)
    by (vm_compute; reflexivity).
  split; [exact Hnan|]. rewrite Hnan.
  intros (q & lim & Hq & _). discriminate Hq.
Qed.

(** ** Idempotence *)

Lemma seedObj_complete (E : obj) (names : list string) (m : obj) :
  (∀ name, name ∈ names → nullish (prop m name) = false) →
  seedObj E names m = m.
Proof.
  induction names as [|name names IH]; intros Hc; [reflexivity|].
  rewrite seedObj_cons, (Hc name) by left.
  apply IH. intros x Hx. apply Hc. right. exact Hx.
Qed.

Lemma insert_prop_id (m : obj) (name : string) :
  nullish (prop m name) = false → <[name := prop m name]> m = m.
Proof.
  unfold prop. intros Hn. apply insert_id.
  destruct (m !! name); [reflexivity | discriminate Hn].
Qed.

Lemma limitObj_limited (names : list string) (m : obj) :
  (∀ name, name ∈ names → applyLimits name (prop m name) = prop m name) →
  limitObj names m = m.
Proof.
  induction names as [|name names IH]; intros Hl; [reflexivity|].
  rewrite limitObj_cons, (Hl name) by left.
  destruct (nullish (prop m name)) eqn:Hn; cbn [negb].
  - apply IH. intros x Hx. apply Hl. right. exact Hx.
  - rewrite insert_prop_id by exact Hn.
    apply IH. intros x Hx. apply Hl. right. exact Hx.
Qed.

Lemma completedObj_fixed (s e : Q) (period : string) (m : obj) :
  completedObj s e period (completedObj s e period m) = completedObj s e period m.
Proof.
  set (m' := completedObj s e period m).
  assert (Hprop : ∀ name, name ∈ allIndicatorNames →
            prop m' name = applyLimits name
              (if nullish (prop m name) then epochSeed s e period name
               else prop m name)).
  { intros name Hname. apply completedObj_prop, Hname. }
  unfold completedObj at 1. rewrite seedObj_complete.
  - apply limitObj_limited. intros name Hname.
    rewrite (Hprop name Hname). apply applyLimits_idempotent.
  - intros name Hname. rewrite (Hprop name Hname), applyLimits_nullish.
    destruct (nullish (prop m name)) eqn:Hn; [|exact Hn].
    unfold epochSeed.
    destruct (epoch_value (periodYear period s e) name Hname) as [q ->].
    reflexivity.
Qed.

Lemma completedInds_fixed (s e : Q) (ms : five obj) :
  completedInds s e (completedInds s e ms) = completedInds s e ms.
Proof.
  unfold completedInds, map5. cbn [at0 at1 at2 at3 at4].
  rewrite !completedObj_fixed. reflexivity.
Qed.

Lemma layout_length (h0 : heap) (ms : five obj) (cs : five (option jsval)) :
  length (layout h0 ms cs) = length h0 + 11.
Proof. unfold layout. rewrite length_app. reflexivity. Qed.

Lemma callerIndicators_layout (h0 : heap) (ms : five obj)
    (cs : five (option jsval)) (k : nat) (period : string) :
  periods !! k = Some period →
  callerIndicators (layout h0 ms cs) (JRef (tdLoc (length h0))) period = nth5 ms k.
Proof.
  intros Hk. pose proof (period_index k period Hk) as [Hlt _].
  unfold callerIndicators.
  rewrite (getProp_value _ _ _ _ _ (read_td h0 ms cs k period Hk)).
  rewrite (getProp_value _ _ _ _ _ (read_period_indicators h0 ms cs k Hlt)).
  unfold fields. rewrite lookup_indicators_obj by exact Hlt. reflexivity.
Qed.

Lemma closedData_layout (h0 : heap) (ms : five obj) (cs : five (option jsval)) :
  closedData (layout h0 ms cs) (JRef (tdLoc (length h0))) = true.
Proof.
  unfold closedData. apply andb_true_iff. split.
  - apply bool_decide_eq_true. rewrite layout_length. unfold tdLoc. lia.
  - apply forallb_forall. intros period Hperiod.
    apply list_elem_of_In, list_elem_of_lookup in Hperiod as [k Hk].
    pose proof (period_index k period Hk) as [Hlt _].
    unfold closedPhase.
    rewrite (getProp_value _ _ _ _ _ (read_td h0 ms cs k period Hk)).
    rewrite (getProp_value _ _ _ _ _ (read_period_indicators h0 ms cs k Hlt)).
    apply andb_true_iff. split; apply bool_decide_eq_true;
      rewrite layout_length; unfold perLoc, indLoc; lia.
Qed.

Lemma copiedInputs_layout (h0 : heap) (ms : five obj) (cs : five (option jsval)) :
  copiedInputs (layout h0 ms cs) (JRef (tdLoc (length h0))) = ms.
Proof.
  rewrite copiedInputs_closed by apply closedData_layout.
  rewrite !callerIndicators_input.
  rewrite (callerIndicators_layout h0 ms cs 0 "before") by reflexivity.
  rewrite (callerIndicators_layout h0 ms cs 1 "prelude") by reflexivity.
  rewrite (callerIndicators_layout h0 ms cs 2 "during") by reflexivity.
  rewrite (callerIndicators_layout h0 ms cs 3 "transition") by reflexivity.
  rewrite (callerIndicators_layout h0 ms cs 4 "after") by reflexivity.
  destruct ms. reflexivity.
Qed.

(** C5: running the pipeline on its own output, with the same years, gives
    a structure with the same scores and the same indicators, exactly. *)
Theorem pipeline_idempotent (s e : Q) (l : nat) (h0 : heap) :
  Qle_bool s e = true →
  ∃ r h1 r' h2,
    analyzeEventCTH (JNum s) (JNum e) (JRef l) h0 = Ok r h1 ∧
    analyzeEventCTH (JNum s) (JNum e) r h1 = Ok r' h2 ∧
    Forall (fun period =>
              scoreIn h2 r' period = scoreIn h1 r period ∧
              ∀ name, indicatorIn h2 r' period name = indicatorIn h1 r period name)
      periods.
Proof.
  intros Hle. eexists _, _, _, _.
  split; [apply run_analyzeEventCTH, Hle|].
  split; [apply run_analyzeEventCTH, Hle|].
  rewrite copiedInputs_layout, completedInds_fixed.
  apply Forall_forall. intros period Hperiod.
  apply list_elem_of_lookup in Hperiod as [k Hk].
  split.
  - rewrite !(scoreIn_layout _ _ _ k period Hk). reflexivity.
  - intros name. rewrite !(indicatorIn_layout _ _ _ k period name Hk). reflexivity.
Qed.

Lemma pipeline_idempotent_witness :
  Qle_bool 1789 1799 = true ∧
  ∃ r h1 r' h2,
    analyzeEventCTH (JNum 1789) (JNum 1799) (JRef 4) gapStore = Ok r h1 ∧
    analyzeEventCTH (JNum 1789) (JNum 1799) r h1 = Ok r' h2 ∧
    Forall (fun period =>
              scoreIn h2 r' period = scoreIn h1 r period ∧
              ∀ name, indicatorIn h2 r' period name = indicatorIn h1 r period name)
      periods.
Proof.
  split; [reflexivity|].
  apply (pipeline_idempotent 1789 1799 4 gapStore). reflexivity.
Defined.

(** ** The seed scenario *)

Lemma calculateCTH_ext (o o' : obj) (w : option weights) :
  (∀ name, name ∈ allIndicatorNames → normalized o name = normalized o' name) →
  calculateCTHFromIndicators (Some o) w = calculateCTHFromIndicators (Some o') w.
Proof.
  intros H. unfold calculateCTHFromIndicators.
  rewrite !(H "gdpPerCapita"), !(H "giniIndex"), !(H "politicalEventsCount"),
    !(H "averageIncome"), !(H "literacyRate"), !(H "lifeExpectancy"),
    !(H "birthRate"), !(H "populationDensity"), !(H "urbanizationRate")
    by in_names.
  reflexivity.
Qed.

Lemma normalize_applyLimits (name : string) (v : jsval) :
  name ∈ allIndicatorNames →
  normalizeIndicator (applyLimits name v)
      (min (limits_of name)) (max (limits_of name))
    = normalizeIndicator v (min (limits_of name)) (max (limits_of name)).
Proof.
  intros Hname. destruct (limits_known name Hname) as (lim & Hlim & Hof & _).
  unfold applyLimits. rewrite Hlim, Hof.
  destruct v; try reflexivity.
  unfold normalizeIndicator. rewrite clamp_idempotent. reflexivity.
Qed.

Lemma fullySpecified_number (h : heap) (data : jsval) (period name : string) :
  fullySpecified h data period = true → name ∈ allIndicatorNames →
  ∃ q, prop (callerIndicators h data period) name = JNum q.
Proof.
  intros Hfull Hname. unfold fullySpecified in Hfull.
  rewrite forallb_forall in Hfull.
  specialize (Hfull name (proj1 (list_elem_of_In _ _) Hname)).
  destruct (prop (callerIndicators h data period) name); try discriminate Hfull.
  eexists. reflexivity.
Qed.

Lemma emptyPhase_missing (h : heap) (data : jsval) (period name : string) :
  emptyPhase h data period = true → name ∈ allIndicatorNames →
  nullish (prop (callerIndicators h data period) name) = true.
Proof.
  intros Hempty Hname. unfold emptyPhase in Hempty.
  rewrite forallb_forall in Hempty.
  apply Hempty, list_elem_of_In, Hname.
Qed.

(** The score of a fully specified phase only depends on what the caller
    supplied for it. *)
Lemma score_of_supplied (s e : Q) (period : string) (m : obj) :
  (∀ name, name ∈ allIndicatorNames → ∃ q, prop m name = JNum q) →
  scoreOf (completedObj s e period m) = scoreOf m.
Proof.
  intros Hfull. unfold scoreOf. f_equal. apply calculateCTH_ext.
  intros name Hname. unfold normalized.
  rewrite completedObj_prop by exact Hname.
  destruct (Hfull name Hname) as [q ->]. cbn [nullish].
  apply normalize_applyLimits, Hname.
Qed.

(** C6: for the years 1789 and 1799, with all nine indicators supplied for
    "during" and none for the other phases, the representative years of
    "before" and "after" are 1777 and 1811, the result has in "before" the
    nine values of the table entry [earlyModern], whose interval contains
    1777, and in "after" the nine values of the entry
    [industrialRevolution], whose interval contains 1811; the five scores
    lie in [[0,1]], and the score of "during" is the score of the
    indicators that the caller supplied. *)
Theorem seed_scenario (l : nat) (h0 : heap) :
  closedData h0 (JRef l) = true →
  fullySpecified h0 (JRef l) "during" = true →
  forallb (emptyPhase h0 (JRef l)) ["before"; "prelude"; "transition"; "after"]
    = true →
  ∃ r h' eb ea,
    analyzeEventCTH (JNum 1789) (JNum 1799) (JRef l) h0 = Ok r h' ∧
    (periodYear "before" 1789 1799 == 1777)%Q ∧
    (periodYear "after" 1789 1799 == 1811)%Q ∧
    ("earlyModern", eb) ∈ EPOCH_DATA_REFERENCE ∧ contains eb 1777 ∧
    indicators eb = snapshot 1500 0.5 8 300 0.25 40 0.03 20 0.25 ∧
    ("industrialRevolution", ea) ∈ EPOCH_DATA_REFERENCE ∧ contains ea 1811 ∧
    indicators ea = snapshot 3000 0.48 10 600 0.4 45 0.025 50 0.4 ∧
    Forall (fun name =>
              indicatorIn h' r "before" name
                = prop (snapshot 1500 0.5 8 300 0.25 40 0.03 20 0.25) name)
      allIndicatorNames ∧
    Forall (fun name =>
              indicatorIn h' r "after" name
                = prop (snapshot 3000 0.48 10 600 0.4 45 0.025 50 0.4) name)
      allIndicatorNames ∧
    Forall (fun period => isScore (scoreIn h' r period)) periods ∧
    ∃ q, calculateCTHFromIndicators
           (Some (callerIndicators h0 (JRef l) "during")) None = Some q ∧
         scoreIn h' r "during" = JNum q.
Proof.
  intros Hclosed Hfull Hempty.
  cbn [forallb] in Hempty.
  apply andb_true_iff in Hempty as [Hbefore Hempty].
  apply andb_true_iff in Hempty as [_ Hempty].
  apply andb_true_iff in Hempty as [_ Hempty].
  apply andb_true_iff in Hempty as [Hafter _].
  destruct (analyzeEventCTH_outcome 1789 1799 l h0 eq_refl Hclosed)
    as (r & h' & Hrun & Hout).
  exists r, h',
    {| startYear := 1501; endYear := 1800;
       indicators := snapshot 1500 0.5 8 300 0.25 40 0.03 20 0.25 |},
    {| startYear := 1801; endYear := 1900;
       indicators := snapshot 3000 0.48 10 600 0.4 45 0.025 50 0.4 |}.
  split; [exact Hrun|].
  split; [reflexivity|]. split; [reflexivity|].
  split; [unfold EPOCH_DATA_REFERENCE; do 2 apply list_elem_of_further;
          apply list_elem_of_here|].
  split; [split; discriminate|]. split; [reflexivity|].
  split; [unfold EPOCH_DATA_REFERENCE; do 3 apply list_elem_of_further;
          apply list_elem_of_here|].
  split; [split; discriminate|]. split; [reflexivity|].
  split; [|split; [|split]].
  - apply Forall_forall. intros name Hname.
    destruct (Hout "before") as [_ Hind]; [unfold periods; repeat constructor|].
    rewrite Hind, completedObj_prop by exact Hname.
    rewrite (emptyPhase_missing _ _ _ _ Hbefore Hname).
    each_name Hname; vm_compute; reflexivity.
  - apply Forall_forall. intros name Hname.
    destruct (Hout "after") as [_ Hind]; [unfold periods; repeat constructor|].
    rewrite Hind, completedObj_prop by exact Hname.
    rewrite (emptyPhase_missing _ _ _ _ Hafter Hname).
    each_name Hname; vm_compute; reflexivity.
  - apply Forall_forall. intros period Hperiod.
    destruct (Hout period Hperiod) as [-> _]. apply scoreOf_isScore.
  - destruct (Hout "during") as [-> _]; [unfold periods; repeat constructor|].
    rewrite score_of_supplied; [apply scoreOf_number|].
    intros name Hname. apply (fullySpecified_number _ _ _ _ Hfull Hname).
Qed.

Lemma seed_scenario_witness :
  closedData duringStore (JRef 2) = true ∧
  fullySpecified duringStore (JRef 2) "during" = true ∧
  forallb (emptyPhase duringStore (JRef 2))
    ["before"; "prelude"; "transition"; "after"] = true ∧
  ∃ r h',
    analyzeEventCTH (JNum 1789) (JNum 1799) (JRef 2) duringStore = Ok r h' ∧
    Forall (fun name =>
              indicatorIn h' r "before" name
                = prop (snapshot 1500 0.5 8 300 0.25 40 0.03 20 0.25) name)
      allIndicatorNames ∧
    Forall (fun name =>
              indicatorIn h' r "after" name
                = prop (snapshot 3000 0.48 10 600 0.4 45 0.025 50 0.4) name)
      allIndicatorNames ∧
    Forall (fun period => isScore (scoreIn h' r period)) periods ∧
    ∃ q, calculateCTHFromIndicators
           (Some (callerIndicators duringStore (JRef 2) "during")) None = Some q ∧
         scoreIn h' r "during" = JNum q.
Proof.
  split; [reflexivity|]. split; [reflexivity|]. split; [reflexivity|].
  destruct (seed_scenario 2 duringStore eq_refl eq_refl eq_refl)
    as (r & h' & eb & ea & Hrun & _ & _ & _ & _ & _ & _ & _ & _
        & Hbefore & Hafter & Hscores & Hduring).
  exists r, h'. repeat split; assumption.
Defined.

(** ** Interpolation *)

(** Whatever the neighbouring phases hold, an indicator that the caller
    left out of a phase comes back as the epoch seed of that phase, after
    [applyLimits]. *)
Lemma missing_indicator_keeps_seed (s e : Q) (l : nat) (h0 : heap)
    (period name : string) :
  Qle_bool s e = true → closedData h0 (JRef l) = true →
  period ∈ periods → name ∈ allIndicatorNames →
  nullish (prop (callerIndicators h0 (JRef l) period) name) = true →
  resultIndicator (analyzeEventCTH (JNum s) (JNum e) (JRef l) h0) period name
    = applyLimits name (epochSeed s e period name).
Proof.
  intros Hle Hclosed Hperiod Hname Hmissing.
  destruct (analyzeEventCTH_outcome s e l h0 Hle Hclosed) as (r & h' & -> & Hout).
  cbn [resultIndicator].
  destruct (Hout period Hperiod) as [_ ->].
  rewrite completedObj_prop, Hmissing by exact Hname. reflexivity.
Qed.

(** C1 at the data
    [{ before: { indicators: { gdpPerCapita: 2000 } },
       during: { indicators: { gdpPerCapita: 4000 } } }]
    for the years 1789 and 1799: "prelude" has no [gdpPerCapita] of its
    own and both its neighbours have one, yet the result holds the epoch
    seed 1500 for it and not the mean 3000. *)
Theorem interpolation_not_applied :
  let res := analyzeEventCTH (JNum 1789) (JNum 1799) (JRef 4) gapStore in
  indicatorIn gapStore (JRef 4) "before" "gdpPerCapita" = JNum 2000 ∧
  indicatorIn gapStore (JRef 4) "prelude" "gdpPerCapita" = JUndefined ∧
  indicatorIn gapStore (JRef 4) "during" "gdpPerCapita" = JNum 4000 ∧
  half_sum (JNum 2000) (JNum 4000) = JNum ((2000 + 4000) / 2) ∧
  epochSeed 1789 1799 "prelude" "gdpPerCapita" = JNum 1500 ∧
  resultIndicator res "prelude" "gdpPerCapita" = JNum 1500 ∧
  ¬ (1500 == (2000 + 4000) / 2)%Q.
Proof.
  cbv zeta. repeat split; try (vm_compute; reflexivity).
  intros H. vm_compute in H. discriminate H.
Qed.
(** * Further properties *)

(** ** Normalisation and scoring *)

Section MoreNumeric.
Local Open Scope Q_scope.

Lemma clamp_inverted (lo hi v : Q) : hi <= lo → clamp lo hi v = lo.
Proof.
  intros H. destruct (clamp_cases lo hi v) as [[E _]|[[_ [? _]]|[_ [? ?]]]];
    [exact E | lra | lra].
Qed.

Lemma normalizeIndicator_bounds (value : jsval) (lo hi : Q) :
  0 <= normalizeIndicator value lo hi ∧ normalizeIndicator value lo hi <= 1.
Proof.
  destruct (Qlt_le_dec lo hi) as [Hlt|Hge].
  - apply normalizeIndicator_range. lra.
  - unfold normalizeIndicator. destruct value; try lra.
    destruct (Qeq_bool (hi - lo) 0) eqn:E; [lra|].
    rewrite clamp_inverted by exact Hge.
    apply Qeq_bool_neq in E.
    assert (Hz : (lo - lo) / (hi - lo) == 0) by (field; lra).
    rewrite Hz. lra.
Qed.

Lemma normalize_saturation (lo hi v w : Q) :
  lo < hi →
  (v <= lo → normalizeIndicator (JNum v) lo hi == 0) ∧
  (hi <= v → normalizeIndicator (JNum v) lo hi == 1) ∧
  (v <= w → normalizeIndicator (JNum v) lo hi <= normalizeIndicator (JNum w) lo hi).
Proof.
  intros Hlt. rewrite !normalize_proper_domain by exact Hlt.
  split; [|split].
  - intros Hv. destruct (clamp_cases lo hi v) as [[-> _]|[[_ [_ ?]]|[_ [? _]]]];
      [|lra|lra]. field. lra.
  - intros Hv. destruct (clamp_cases lo hi v) as [[_ [?|?]]|[[-> _]|[_ [_ ?]]]];
      [lra|lra| |lra]. field. lra.
  - intros Hvw. unfold Qdiv. apply Qmult_le_compat_r.
    + pose proof (clamp_monotone lo hi v w Hvw). lra.
    + apply Qlt_le_weak, Qinv_lt_0_compat. lra.
Qed.

Lemma average_three (a b c : Q) : average [a; b; c] == (a + b + c) * (1 # 3).
Proof. unfold average. cbn [foldl length Nat.ltb Nat.leb]. unfold Qdiv. change (/ inject_Z (Z.of_nat 3)) with (1 # 3). ring. Qed.

Lemma average_two (a b : Q) : average [a; b] == (a + b) * (1 # 2).
Proof. unfold average. cbn [foldl length Nat.ltb Nat.leb]. unfold Qdiv. change (/ inject_Z (Z.of_nat 2)) with (1 # 2). ring. Qed.

Lemma calculateCTH_dimensions (o : obj) (customWeights : option weights) :
  calculateCTHFromIndicators (Some o) customWeights
    = computeScore (default DEFAULT_CTH_WEIGHTS customWeights)
        (E_value o) (S_value o) (A_value o) (P_value o).
Proof. reflexivity. Qed.

Lemma calculateCTH_custom (o : obj) (w : weights) :
  calculateCTHFromIndicators (Some o) (Some w)
    = computeScore w (E_value o) (S_value o) (A_value o) (P_value o).
Proof. reflexivity. Qed.

Lemma calculateCTH_default (o : obj) :
  calculateCTHFromIndicators (Some o) None
    = computeScore DEFAULT_CTH_WEIGHTS
        (E_value o) (S_value o) (A_value o) (P_value o).
Proof. reflexivity. Qed.

Lemma normalized_unit (o : obj) (name : string) :
  0 <= normalized o name ∧ normalized o name <= 1.
Proof. apply normalizeIndicator_bounds. Qed.

Lemma dimensions_unit (o : obj) :
  (0 <= E_value o ∧ E_value o <= 1) ∧ (0 <= S_value o ∧ S_value o <= 1) ∧
  (0 <= A_value o ∧ A_value o <= 1) ∧ (0 <= P_value o ∧ P_value o <= 1).
Proof.
  unfold E_value, S_value, A_value, P_value.
  rewrite average_three, !average_two.
  pose proof (normalized_unit o "gdpPerCapita").
  pose proof (normalized_unit o "giniIndex").
  pose proof (normalized_unit o "politicalEventsCount").
  pose proof (normalized_unit o "averageIncome").
  pose proof (normalized_unit o "literacyRate").
  pose proof (normalized_unit o "lifeExpectancy").
  pose proof (normalized_unit o "birthRate").
  pose proof (normalized_unit o "populationDensity").
  pose proof (normalized_unit o "urbanizationRate").
  lra.
Qed.

Lemma dimensions_monotone (o o' : obj) :
  (∀ name, name ∈ allIndicatorNames → normalized o name <= normalized o' name) →
  E_value o <= E_value o' ∧ S_value o <= S_value o' ∧
  A_value o <= A_value o' ∧ P_value o <= P_value o'.
Proof.
  intros H. unfold E_value, S_value, A_value, P_value.
  rewrite !average_three, !average_two.
  pose proof (H "gdpPerCapita" ltac:(in_names)).
  pose proof (H "giniIndex" ltac:(in_names)).
  pose proof (H "politicalEventsCount" ltac:(in_names)).
  pose proof (H "averageIncome" ltac:(in_names)).
  pose proof (H "literacyRate" ltac:(in_names)).
  pose proof (H "lifeExpectancy" ltac:(in_names)).
  pose proof (H "birthRate" ltac:(in_names)).
  pose proof (H "populationDensity" ltac:(in_names)).
  pose proof (H "urbanizationRate" ltac:(in_names)).
  lra.
Qed.

Lemma unit_clamp_monotone (x y : Q) : x <= y → Qmax 0 (Qmin 1 x) <= Qmax 0 (Qmin 1 y).
Proof. apply (clamp_monotone 0 1). Qed.

Lemma scoreValue_monotone (a b c d E S A P E' S' A' P' : Q) :
  0 <= a → 0 <= b → 0 <= c → 0 <= d →
  E <= E' → S <= S' → A <= A' → P <= P' →
  scoreValue a b c d E S A P <= scoreValue a b c d E' S' A' P'.
Proof.
  intros Ha Hb Hc Hd HE HS HA HP. unfold scoreValue.
  destruct (Qle_bool (a + b + c + d) 0) eqn:Hz; cbn [negb]; [lra|].
  apply unit_clamp_monotone.
  assert (Hpos : 0 < a + b + c + d).
  { apply Qnot_le_lt. intros Hle. apply Qle_bool_iff in Hle. congruence. }
  unfold Qdiv. apply Qmult_le_compat_r.
  - nra.
  - apply Qlt_le_weak, Qinv_lt_0_compat, Hpos.
Qed.

Lemma calculateCTH_numbers (o : obj) (customWeights : option weights) (a b c d : Q) :
  default DEFAULT_CTH_WEIGHTS customWeights = numberWeights a b c d →
  calculateCTHFromIndicators (Some o) customWeights
    = Some (scoreValue a b c d (E_value o) (S_value o) (A_value o) (P_value o)).
Proof.
  intros Hw. rewrite calculateCTH_dimensions, Hw. apply computeScore_numbers.
Qed.

Lemma default_weights_nonneg : nonnegWeights DEFAULT_CTH_WEIGHTS.
Proof.
  exists 0.4, 0.3, 0.15, 0.15. split; [reflexivity|]. repeat split; discriminate.
Qed.

Lemma normalized_insert_ne (o : obj) (k name : string) (v : jsval) :
  k ≠ name → normalized (<[k := v]> o) name = normalized o name.
Proof. intros Hne. unfold normalized. rewrite prop_insert_ne by exact Hne. reflexivity. Qed.

Lemma normalized_insert_eq (o : obj) (name : string) (v : jsval) :
  normalized (<[name := v]> o) name
    = normalizeIndicator v (min (limits_of name)) (max (limits_of name)).
Proof. unfold normalized. rewrite prop_insert_eq. reflexivity. Qed.

Lemma normalizeIndicator_monotone (lo hi v w : Q) :
  v <= w → normalizeIndicator (JNum v) lo hi <= normalizeIndicator (JNum w) lo hi.
Proof.
  intros Hvw. destruct (Qlt_le_dec lo hi) as [Hlt|Hge].
  - apply (normalize_saturation lo hi v w Hlt), Hvw.
  - unfold normalizeIndicator. destruct (Qeq_bool (hi - lo) 0); [lra|].
    rewrite !clamp_inverted by exact Hge. lra.
Qed.

Lemma calculateCTH_pointwise (o o' : obj) (customWeights : option weights) :
  nonnegWeights (default DEFAULT_CTH_WEIGHTS customWeights) →
  (∀ name, name ∈ allIndicatorNames → normalized o name <= normalized o' name) →
  num_le (calculateCTHFromIndicators (Some o) customWeights)
         (calculateCTHFromIndicators (Some o') customWeights).
Proof.
  intros (a & b & c & d & Hw & Ha & Hb & Hc & Hd) H.
  rewrite !(calculateCTH_numbers _ _ a b c d Hw). cbn [num_le].
  destruct (dimensions_monotone o o' H) as (HE & HS & HA & HP).
  apply scoreValue_monotone; assumption.
Qed.

(** X1: Raising one indicator, or supplying a number where there was none,
    never lowers the score when no weight is negative. *)
Theorem calculateCTH_monotone
    (o : obj) (customWeights : option weights) (name : string) (v : jsval) (q q' : Q) :
  nonnegWeights (default DEFAULT_CTH_WEIGHTS customWeights) →
  q <= q' → validNumber v = false →
  num_le (calculateCTHFromIndicators (Some (<[name := JNum q]> o)) customWeights)
         (calculateCTHFromIndicators (Some (<[name := JNum q']> o)) customWeights) ∧
  num_le (calculateCTHFromIndicators (Some (<[name := v]> o)) customWeights)
         (calculateCTHFromIndicators (Some (<[name := JNum q]> o)) customWeights).
Proof.
  intros Hw Hq Hv. split; apply calculateCTH_pointwise; try exact Hw;
    intros name0 _; destruct (decide (name = name0)) as [<-|Hne];
    rewrite ?normalized_insert_eq, ?normalized_insert_ne by exact Hne; try lra.
  - apply normalizeIndicator_monotone, Hq.
  - assert (Hzero : normalizeIndicator v (min (limits_of name)) (max (limits_of name)) = 0)
      by (destruct v; try discriminate Hv; reflexivity).
    rewrite Hzero. apply normalizeIndicator_bounds.
Qed.

Lemma calculateCTH_monotone_witness :
  num_le (calculateCTHFromIndicators (Some (<["giniIndex" := JNum 0.3]> ∅)) None)
         (calculateCTHFromIndicators (Some (<["giniIndex" := JNum 0.5]> ∅)) None) ∧
  num_le (calculateCTHFromIndicators (Some (<["giniIndex" := JNull]> ∅)) None)
         (calculateCTHFromIndicators (Some (<["giniIndex" := JNum 0.3]> ∅)) None).
Proof.
  apply (calculateCTH_monotone ∅ None "giniIndex" JNull 0.3 0.5).
  - exists 0.4, 0.3, 0.15, 0.15. split; [reflexivity|].
    repeat split; discriminate.
  - discriminate.
  - reflexivity.
Defined.

Lemma unit_clamp_compat (x y : Q) : x == y → Qmax 0 (Qmin 1 x) == Qmax 0 (Qmin 1 y).
Proof.
  intros H. apply Qle_antisym; apply unit_clamp_monotone; rewrite H; apply Qle_refl.
Qed.

Lemma scoreValue_scale (k a b c d E S A P : Q) :
  0 < k →
  scoreValue (k * a) (k * b) (k * c) (k * d) E S A P == scoreValue a b c d E S A P.
Proof.
  intros Hk. unfold scoreValue.
  set (tw := a + b + c + d).
  set (ws := a * E + b * S + c * A + d * P).
  assert (Htw : k * a + k * b + k * c + k * d == k * tw) by (unfold tw; ring).
  assert (Hws : k * a * E + k * b * S + k * c * A + k * d * P == k * ws)
    by (unfold ws; ring).
  destruct (Qle_bool tw 0) eqn:Hz.
  - apply Qle_bool_iff in Hz.
    assert (Hz' : Qle_bool (k * a + k * b + k * c + k * d) 0 = true).
    { apply Qle_bool_iff. rewrite Htw. nra. }
    rewrite Hz'. reflexivity.
  - assert (Hpos : 0 < tw).
    { apply Qnot_le_lt. intros Hle. apply Qle_bool_iff in Hle. congruence. }
    assert (Hz' : Qle_bool (k * a + k * b + k * c + k * d) 0 = false).
    { apply not_true_is_false. intros E0.
      apply Qle_bool_iff in E0. rewrite Htw in E0. nra. }
    rewrite Hz'. cbn [negb]. apply unit_clamp_compat.
    rewrite Htw, Hws. field. split; lra.
Qed.

(** X2: With weights none of which is negative, multiplying the four
    weights by a positive factor does not change the score: only their
    proportions matter. *)
Theorem calculateCTH_weight_scale (o : obj) (w : weights) (k : Q) :
  nonnegWeights w → 0 < k →
  ∃ x y,
    calculateCTHFromIndicators (Some o) (Some (scaleWeights k w)) = Some x ∧
    calculateCTHFromIndicators (Some o) (Some w) = Some y ∧
    x == y.
Proof.
  intros (a & b & c & d & -> & _) Hk.
  rewrite !calculateCTH_custom.
  change (scaleWeights k (numberWeights a b c d))
    with (numberWeights (k * a) (k * b) (k * c) (k * d)).
  rewrite !computeScore_numbers. eexists _, _.
  split; [reflexivity|]. split; [reflexivity|].
  apply scoreValue_scale, Hk.
Qed.

Lemma calculateCTH_weight_scale_witness :
  ∃ x y,
    calculateCTHFromIndicators (Some (<["giniIndex" := JNum 0.5]> ∅))
      (Some (scaleWeights 10 DEFAULT_CTH_WEIGHTS)) = Some x ∧
    calculateCTHFromIndicators (Some (<["giniIndex" := JNum 0.5]> ∅))
      (Some DEFAULT_CTH_WEIGHTS) = Some y ∧
    x == y.
Proof.
  apply calculateCTH_weight_scale; [|reflexivity].
  exists 0.4, 0.3, 0.15, 0.15. split; [reflexivity|]. repeat split; discriminate.
Defined.

Lemma limits_proper (name : string) :
  name ∈ allIndicatorNames → min (limits_of name) < max (limits_of name).
Proof. intros H. each_name H; reflexivity. Qed.








(** X4: With the default weights the score is the weighted sum of the
    dimension values; nothing is cut off by the final clamp. *)
Theorem calculateCTH_default_formula (o : obj) :
  ∃ x, calculateCTHFromIndicators (Some o) None = Some x ∧
       x == 0.4 * E_value o + 0.3 * S_value o + 0.15 * A_value o
            + 0.15 * P_value o.
Proof.
  rewrite (calculateCTH_numbers o None 0.4 0.3 0.15 0.15 eq_refl).
  eexists. split; [reflexivity|].
  destruct (dimensions_unit o) as (HE & HS & HA & HP).
  rewrite scoreValue_quotient; try assumption; try discriminate; try reflexivity.
  field.
Qed.

(** X5: The score depends on the nine indicators only, and only through
    their clamped values. *)
Theorem calculateCTH_clamped_inputs (o o' : obj) (customWeights : option weights) :
  (∀ name, name ∈ allIndicatorNames →
     applyLimits name (prop o name) = applyLimits name (prop o' name)) →
  calculateCTHFromIndicators (Some o) customWeights
    = calculateCTHFromIndicators (Some o') customWeights.
Proof.
  intros H. apply calculateCTH_ext. intros name Hname. unfold normalized.
  rewrite <- (normalize_applyLimits name (prop o name) Hname).
  rewrite <- (normalize_applyLimits name (prop o' name) Hname).
  rewrite (H name Hname). reflexivity.
Qed.

Lemma calculateCTH_clamped_inputs_witness :
  calculateCTHFromIndicators (Some (<["giniIndex" := JNum 5]> ∅)) None
    = calculateCTHFromIndicators
        (Some (<["giniIndex" := JNum 0.7]> (<["note" := JBool true]> ∅))) None.
Proof.
  apply calculateCTH_clamped_inputs. intros name H.
  each_name H; vm_compute; reflexivity.
Defined.
(** X6: For every value and every pair of bounds, inverted ones included, the
    normalised value lies in the unit interval. *)
Theorem normalizeIndicator_unit_interval (value : jsval) (lo hi : Q) :
  0 <= normalizeIndicator value lo hi ∧ normalizeIndicator value lo hi <= 1.
Proof. apply normalizeIndicator_bounds. Qed.

(** X7: On a proper domain a number at or below the minimum normalises to 0,
    one at or above the maximum to 1, and normalisation is monotone over
    all numbers, not only those of the domain. *)
Theorem normalizeIndicator_saturates (lo hi v w : Q) :
  lo < hi →
  (v <= lo → normalizeIndicator (JNum v) lo hi == 0) ∧
  (hi <= v → normalizeIndicator (JNum v) lo hi == 1) ∧
  (v <= w → normalizeIndicator (JNum v) lo hi <= normalizeIndicator (JNum w) lo hi).
Proof. apply normalize_saturation. Qed.

Lemma normalizeIndicator_saturates_witness :
  normalizeIndicator (JNum (-3)) 0 15 == 0 ∧
  normalizeIndicator (JNum 40) 0 15 == 1 ∧
  normalizeIndicator (JNum (-3)) 0 15 <= normalizeIndicator (JNum 40) 0 15.
Proof.
  destruct (normalizeIndicator_saturates 0 15 (-3) 40) as (H0 & _ & Hm);
    [reflexivity|].
  destruct (normalizeIndicator_saturates 0 15 40 40) as (_ & H1 & _);
    [reflexivity|].
  split; [apply H0; vm_compute; discriminate|].
  split; [apply H1; vm_compute; discriminate|].
  apply Hm. vm_compute; discriminate.
Defined.

End MoreNumeric.

(** ** Limits *)

Section Limits.
Local Open Scope Q_scope.

Lemma limits_table_entry (name : string) (lim : limits) :
  INDICATOR_LIMITS !! name = Some lim →
  name ∈ allIndicatorNames ∧ limits_of name = lim.
Proof.
  intros H. split.
  - unfold INDICATOR_LIMITS in H. apply elem_of_list_to_map_2 in H.
    repeat (apply elem_of_cons in H as [H|H]; [injection H as -> _; in_names|]).
    apply elem_of_nil in H. destruct H.
  - unfold limits_of. rewrite H. reflexivity.
Qed.

(** X8: For an indicator of the table, [applyLimits] maps a number into the
    domain: to itself when it is inside, to the nearer bound otherwise. *)
Theorem applyLimits_clamps (name : string) (lim : limits) (q : Q) :
  INDICATOR_LIMITS !! name = Some lim →
  ∃ q', applyLimits name (JNum q) = JNum q' ∧
        min lim <= q' ∧ q' <= max lim ∧
        (min lim <= q → q <= max lim → q' == q) ∧
        (q <= min lim → q' == min lim) ∧
        (max lim <= q → q' == max lim).
Proof.
  intros Hlim. destruct (limits_table_entry name lim Hlim) as [Hname Hof].
  pose proof (limits_proper name Hname) as Hlt. rewrite Hof in Hlt.
  unfold applyLimits. rewrite Hlim. eexists. split; [reflexivity|].
  destruct (clamp_cases (min lim) (max lim) q) as [[-> ?]|[[-> ?]|[-> ?]]];
    repeat split; intros; lra.
Qed.

Lemma applyLimits_clamps_witness :
  ∃ q', applyLimits "giniIndex" (JNum 5) = JNum q' ∧
        0.2 <= q' ∧ q' <= 0.7 ∧
        (0.2 <= 5 → 5 <= 0.7 → q' == 5) ∧
        (5 <= 0.2 → q' == 0.2) ∧
        (0.7 <= 5 → q' == 0.7).
Proof.
  apply (applyLimits_clamps "giniIndex" {| min := 0.2; max := 0.7 |} 5).
  reflexivity.
Defined.

End Limits.

(** ** Trend estimation *)

Section Trend.
Local Open Scope Q_scope.

(** X9: The percentage change from a non-zero score [a] to [b] is the number
    [p] with [a * (1 + p) = b]; from 0, or with an argument that is not a
    number, it is 0. *)
Theorem percentageChange_contract (a b : Q) (v1 v2 : jsval) :
  (¬ a == 0 →
   ∃ p, calculatePercentageChange (JNum a) (JNum b) = JNum p ∧ a * (1 + p) == b) ∧
  (a == 0 → calculatePercentageChange (JNum a) v2 = JNum 0) ∧
  (validNumber v1 = false → calculatePercentageChange v1 v2 = JNum 0) ∧
  (validNumber v2 = false → calculatePercentageChange v1 v2 = JNum 0).
Proof.
  split; [|split; [|split]].
  - intros Ha. unfold calculatePercentageChange.
    destruct (Qeq_bool a 0) eqn:E; [apply Qeq_bool_iff in E; contradiction|].
    eexists. split; [reflexivity|]. field. exact Ha.
  - intros Ha. unfold calculatePercentageChange.
    apply Qeq_bool_iff in Ha. rewrite Ha. reflexivity.
  - intros Hv. destruct v1; try discriminate Hv; reflexivity.
  - intros Hv. unfold calculatePercentageChange.
    destruct v1; try reflexivity. destruct (Qeq_bool q 0); [reflexivity|].
    destruct v2; try discriminate Hv; reflexivity.
Qed.

Lemma percentageChange_contract_witness :
  ∃ p, calculatePercentageChange (JNum 0.5) (JNum 0.6) = JNum p ∧
       0.5 * (1 + p) == 0.6.
Proof.
  apply (percentageChange_contract 0.5 0.6 JNull JNull).
  intros H. vm_compute in H. discriminate H.
Defined.

Lemma nonneg_test (k : Q) : 0 <= k → negb (Qle_bool 0 k) = false.
Proof. intros H. apply Qle_bool_iff in H. rewrite H. reflexivity. Qed.

Lemma nonzero_test (x : Q) : ¬ x == 0 → Qeq_bool x 0 = false.
Proof.
  intros H. destruct (Qeq_bool x 0) eqn:E; [|reflexivity].
  apply Qeq_bool_iff in E. contradiction.
Qed.

(** X10: Projecting a value forward by a change and then backward by the same
    change gives the value back, as long as the change factor is above
    -100%. *)
Theorem estimate_round_trip (k d t : Q) :
  0 <= k → 0 <= t → 0 < 1 + d * t →
  ∃ f b,
    estimateIndicatorValue (JNum k) (JNum d) (JNum t) forward = JNum f ∧
    f == k * (1 + d * t) ∧
    estimateIndicatorValue (JNum f) (JNum d) (JNum t) backward = JNum b ∧
    b == k.
Proof.
  intros Hk Ht Hpos.
  exists (k * (1 + d * t)), (k * (1 + d * t) / (1 + d * t)).
  assert (Hf : 0 <= k * (1 + d * t)) by nra.
  unfold estimateIndicatorValue.
  rewrite (nonneg_test k Hk), (nonneg_test t Ht), (nonneg_test _ Hf).
  rewrite nonzero_test by lra.
  repeat split; try reflexivity. field. lra.
Qed.

Lemma estimate_round_trip_witness :
  ∃ f b,
    estimateIndicatorValue (JNum 1600) (JNum 0.05) (JNum 1) forward = JNum f ∧
    f == 1600 * (1 + 0.05 * 1) ∧
    estimateIndicatorValue (JNum f) (JNum 0.05) (JNum 1) backward = JNum b ∧
    b == 1600.
Proof.
  apply (estimate_round_trip 1600 0.05 1); vm_compute; (discriminate || reflexivity).
Defined.

(** X11: The rule of three of the module: projected forward by the percentage
    change of the score from [c1] to [c2], an indicator is multiplied by
    [c2 / c1]. *)
Theorem estimate_rule_of_three (k c1 c2 : Q) :
  0 <= k → ¬ c1 == 0 →
  ∃ f,
    estimateIndicatorValue (JNum k)
      (calculatePercentageChange (JNum c1) (JNum c2)) (JNum 1) forward = JNum f ∧
    f * c1 == k * c2.
Proof.
  intros Hk Hc. unfold calculatePercentageChange, estimateIndicatorValue.
  rewrite (nonzero_test c1 Hc), (nonneg_test k Hk).
  change (negb (Qle_bool 0 1)) with false. cbv iota.
  eexists. split; [reflexivity|]. field. exact Hc.
Qed.

Lemma estimate_rule_of_three_witness :
  ∃ f,
    estimateIndicatorValue (JNum 1600)
      (calculatePercentageChange (JNum 0.5) (JNum 0.6)) (JNum 1) forward = JNum f ∧
    f * 0.5 == 1600 * 0.6.
Proof.
  apply (estimate_rule_of_three 1600 0.5 0.6).
  - vm_compute; discriminate.
  - intros H. vm_compute in H. discriminate H.
Defined.

(** X12: Edge cases of the estimate: a known value that is negative or not a
    number gives 0; a change that is not a number counts as no change; a
    backward projection by exactly -100% returns the known value. *)
Theorem estimate_edge_cases (k d t : Q) (v : jsval) (dir : direction) :
  (validNumber v = false → estimateIndicatorValue v (JNum d) (JNum t) dir = JNum 0) ∧
  (k < 0 → estimateIndicatorValue (JNum k) (JNum d) (JNum t) dir = JNum 0) ∧
  (0 <= k → validNumber v = false →
   ∃ f, estimateIndicatorValue (JNum k) v (JNum t) dir = JNum f ∧ f == k) ∧
  (0 <= k → 0 <= t → 1 + d * t == 0 →
   estimateIndicatorValue (JNum k) (JNum d) (JNum t) backward = JNum k).
Proof.
  split; [|split; [|split]].
  - intros Hv. destruct v; try discriminate Hv; reflexivity.
  - intros Hk. unfold estimateIndicatorValue.
    destruct (Qle_bool 0 k) eqn:E; [|reflexivity].
    apply Qle_bool_iff in E. lra.
  - intros Hk Hv. unfold estimateIndicatorValue. rewrite (nonneg_test k Hk).
    assert (Hdelta : match v with JNum d0 => d0 | _ => 0 end = 0)
      by (destruct v; try discriminate Hv; reflexivity).
    rewrite Hdelta.
    destruct dir.
    + eexists. split; [reflexivity|]. ring.
    + assert (Hone : Qeq_bool (1 + 0 * (if negb (Qle_bool 0 t) then 1 else t)) 0 = false).
      { apply nonzero_test. destruct (negb (Qle_bool 0 t)); intros H; lra. }
      rewrite Hone. eexists. split; [reflexivity|].
      field; destruct (negb (Qle_bool 0 t)); lra.
  - intros Hk Ht Hz. unfold estimateIndicatorValue.
    rewrite (nonneg_test k Hk), (nonneg_test t Ht).
    apply Qeq_bool_iff in Hz. rewrite Hz. reflexivity.
Qed.

Lemma estimate_edge_cases_witness :
  estimateIndicatorValue (JNum 7) (JNum (-1)) (JNum 1) backward = JNum 7.
Proof.
  apply (estimate_edge_cases 7 (-1) 1 JNull backward); vm_compute;
    (discriminate || reflexivity).
Defined.

End Trend.

(** ** The epoch table *)

Section EpochTable.
Local Open Scope Q_scope.

Lemma test_false_l (a b year : Q) :
  year < a → Qle_bool a year && Qle_bool year b = false.
Proof.
  intros H. destruct (Qle_bool a year) eqn:E; [|reflexivity].
  apply Qle_bool_iff in E. lra.
Qed.

Lemma test_false_r (a b year : Q) :
  b < year → Qle_bool a year && Qle_bool year b = false.
Proof.
  intros H. destruct (Qle_bool year b) eqn:E; [|apply andb_false_r].
  apply Qle_bool_iff in E. lra.
Qed.

Lemma test_true (a b year : Q) :
  a <= year → year <= b → Qle_bool a year && Qle_bool year b = true.
Proof.
  intros H1 H2. apply andb_true_iff. split; apply Qle_bool_iff; assumption.
Qed.

Lemma epoch_of_containing_entry (year : Q) (key : string) (e : epoch) :
  (key, e) ∈ EPOCH_DATA_REFERENCE → contains e year →
  getEpochDataForYear year = indicators e.
Proof.
  intros Hin [Hlo Hhi]. unfold EPOCH_DATA_REFERENCE in Hin.
  repeat (apply elem_of_cons in Hin as [Hin|Hin];
          [injection Hin as -> ->; cbn [startYear endYear] in Hlo, Hhi|]);
    [.. | apply elem_of_nil in Hin; destruct Hin];
    unfold getEpochDataForYear, EPOCH_DATA_REFERENCE, scanEpochs;
    cbn [startYear endYear indicators];
    rewrite ?(test_false_r (-3000) 500), ?(test_false_r 501 1500),
      ?(test_false_r 1501 1800), ?(test_false_r 1801 1900),
      ?(test_false_r 1901 1950), ?(test_false_r 1951 2000) by lra;
    rewrite test_true by assumption; reflexivity.
Qed.

(** X13: The intervals of the table do not overlap: an epoch of the table whose
    interval contains the year is the one whose snapshot is returned,
    wherever it stands in the table. *)
Theorem epoch_lookup_unique (year : Q) (key : string) (e : epoch) :
  (key, e) ∈ EPOCH_DATA_REFERENCE → contains e year →
  getEpochDataForYear year = indicators e.
Proof. apply epoch_of_containing_entry. Qed.

Lemma epoch_lookup_unique_witness :
  getEpochDataForYear 1789 = snapshot 1500 0.5 8 300 0.25 40 0.03 20 0.25.
Proof.
  apply (epoch_lookup_unique 1789 "earlyModern"
           {| startYear := 1501; endYear := 1800;
              indicators := snapshot 1500 0.5 8 300 0.25 40 0.03 20 0.25 |}).
  - unfold EPOCH_DATA_REFERENCE. do 2 right. left.
  - split; vm_compute; discriminate.
Defined.

Lemma inject_Z_le (a b : Z) : (a <= b)%Z → inject_Z a <= inject_Z b.
Proof. intros H. rewrite <- Zle_Qle. exact H. Qed.

(** X14: Every whole year from -3000 to 2025 belongs to an epoch of the table,
    so that the default snapshot is never used for it. *)
Theorem epoch_table_covers_whole_years (z : Z) :
  (-3000 <= z <= 2025)%Z →
  ∃ key e, (key, e) ∈ EPOCH_DATA_REFERENCE ∧ contains e (inject_Z z) ∧
           getEpochDataForYear (inject_Z z) = indicators e.
Proof.
  intros [Hlo Hhi].
  assert (Hcase : (z <= 500 ∨ 501 <= z <= 1500 ∨ 1501 <= z <= 1800 ∨
                   1801 <= z <= 1900 ∨ 1901 <= z <= 1950 ∨
                   1951 <= z <= 2000 ∨ 2001 <= z)%Z) by lia.
  assert (Hfind : ∃ key e, (key, e) ∈ EPOCH_DATA_REFERENCE ∧ contains e (inject_Z z)).
  { unfold EPOCH_DATA_REFERENCE.
    destruct Hcase as [H|[H|[H|[H|[H|[H|H]]]]]].
    - eexists _, _. split; [left|]. split; cbn [startYear endYear];
        [apply (inject_Z_le (-3000) z) | apply (inject_Z_le z 500)]; lia.
    - eexists _, _. split; [do 1 right; left|]. split; cbn [startYear endYear];
        [apply (inject_Z_le 501 z) | apply (inject_Z_le z 1500)]; lia.
    - eexists _, _. split; [do 2 right; left|]. split; cbn [startYear endYear];
        [apply (inject_Z_le 1501 z) | apply (inject_Z_le z 1800)]; lia.
    - eexists _, _. split; [do 3 right; left|]. split; cbn [startYear endYear];
        [apply (inject_Z_le 1801 z) | apply (inject_Z_le z 1900)]; lia.
    - eexists _, _. split; [do 4 right; left|]. split; cbn [startYear endYear];
        [apply (inject_Z_le 1901 z) | apply (inject_Z_le z 1950)]; lia.
    - eexists _, _. split; [do 5 right; left|]. split; cbn [startYear endYear];
        [apply (inject_Z_le 1951 z) | apply (inject_Z_le z 2000)]; lia.
    - eexists _, _. split; [do 6 right; left|]. split; cbn [startYear endYear];
        [apply (inject_Z_le 2001 z) | apply (inject_Z_le z 2025)]; lia. }
  destruct Hfind as (key & e & Hin & Hc).
  exists key, e. split; [exact Hin|]. split; [exact Hc|].
  apply (epoch_of_containing_entry _ key e Hin Hc).
Qed.

Lemma epoch_table_covers_whole_years_witness :
  ∃ key e, (key, e) ∈ EPOCH_DATA_REFERENCE ∧ contains e (inject_Z 1777) ∧
           getEpochDataForYear (inject_Z 1777) = indicators e.
Proof. apply epoch_table_covers_whole_years. lia. Defined.

(** X15: A year before -3000 or after 2025, and also a fractional year that
    falls strictly between the last year of an epoch and the first year of
    the next, gets the default snapshot. *)
Theorem epoch_default_region (year : Q) :
  year < -3000 ∨ (500 < year ∧ year < 501) ∨ (1500 < year ∧ year < 1501) ∨
  (1800 < year ∧ year < 1801) ∨ (1900 < year ∧ year < 1901) ∨
  (1950 < year ∧ year < 1951) ∨ (2000 < year ∧ year < 2001) ∨ 2025 < year →
  getEpochDataForYear year = FALLBACK_EPOCH_DATA.
Proof.
  intros H.
  unfold getEpochDataForYear, EPOCH_DATA_REFERENCE, scanEpochs.
  cbn [startYear endYear indicators].
  assert (H1 : Qle_bool (-3000) year && Qle_bool year 500 = false).
  { destruct H as [H|[H|[H|[H|[H|[H|[H|H]]]]]]];
      solve [apply test_false_l; lra | apply test_false_r; lra]. }
  assert (H2 : Qle_bool 501 year && Qle_bool year 1500 = false).
  { destruct H as [H|[H|[H|[H|[H|[H|[H|H]]]]]]];
      solve [apply test_false_l; lra | apply test_false_r; lra]. }
  assert (H3 : Qle_bool 1501 year && Qle_bool year 1800 = false).
  { destruct H as [H|[H|[H|[H|[H|[H|[H|H]]]]]]];
      solve [apply test_false_l; lra | apply test_false_r; lra]. }
  assert (H4 : Qle_bool 1801 year && Qle_bool year 1900 = false).
  { destruct H as [H|[H|[H|[H|[H|[H|[H|H]]]]]]];
      solve [apply test_false_l; lra | apply test_false_r; lra]. }
  assert (H5 : Qle_bool 1901 year && Qle_bool year 1950 = false).
  { destruct H as [H|[H|[H|[H|[H|[H|[H|H]]]]]]];
      solve [apply test_false_l; lra | apply test_false_r; lra]. }
  assert (H6 : Qle_bool 1951 year && Qle_bool year 2000 = false).
  { destruct H as [H|[H|[H|[H|[H|[H|[H|H]]]]]]];
      solve [apply test_false_l; lra | apply test_false_r; lra]. }
  assert (H7 : Qle_bool 2001 year && Qle_bool year 2025 = false).
  { destruct H as [H|[H|[H|[H|[H|[H|[H|H]]]]]]];
      solve [apply test_false_l; lra | apply test_false_r; lra]. }
  rewrite H1, H2, H3, H4, H5, H6, H7. reflexivity.
Qed.

Lemma epoch_default_region_witness :
  getEpochDataForYear 1800.5 = FALLBACK_EPOCH_DATA.
Proof.
  apply epoch_default_region. do 3 right. left.
  split; vm_compute; reflexivity.
Defined.

(** X16: Every snapshot of the reference data, the default included, holds for
    each of the nine indicators a number of the declared domain; applying
    the limits to a seed therefore changes nothing. *)
Theorem epoch_snapshots_within_limits (year : Q) (name : string) :
  name ∈ allIndicatorNames →
  withinDomain name (prop (getEpochDataForYear year) name) ∧
  applyLimits name (prop (getEpochDataForYear year) name)
    = prop (getEpochDataForYear year) name.
Proof. apply epoch_seed_within_limits. Qed.

Lemma epoch_snapshots_within_limits_witness :
  withinDomain "averageIncome" (prop (getEpochDataForYear (-10)) "averageIncome") ∧
  applyLimits "averageIncome" (prop (getEpochDataForYear (-10)) "averageIncome")
    = prop (getEpochDataForYear (-10)) "averageIncome".
Proof. apply epoch_snapshots_within_limits. in_names. Defined.

(** X17: For a start year that is not after the end year, the representative
    years of the five phases are strictly increasing. *)
Theorem representative_years_increase (s e : Q) :
  s <= e →
  periodYear "before" s e < periodYear "prelude" s e ∧
  periodYear "prelude" s e < periodYear "during" s e ∧
  periodYear "during" s e < periodYear "transition" s e ∧
  periodYear "transition" s e < periodYear "after" s e.
Proof.
  intros Hse.
  change (periodYear "before" s e) with (s - 12).
  change (periodYear "prelude" s e) with (s - 1).
  change (periodYear "during" s e) with (inject_Z (Qfloor ((s + e) / 2))).
  change (periodYear "transition" s e) with (e + 1).
  change (periodYear "after" s e) with (e + 12).
  pose proof (Qfloor_le ((s + e) / 2)) as Hfl.
  pose proof (Qlt_floor ((s + e) / 2)) as Hlt.
  rewrite inject_Z_plus in Hlt. change (inject_Z 1) with 1 in Hlt.
  assert (Hmid1 : s <= (s + e) / 2) by (apply Qle_shift_div_l; lra).
  assert (Hmid2 : (s + e) / 2 <= e) by (apply Qle_shift_div_r; lra).
  repeat split; lra.
Qed.

Lemma representative_years_increase_witness :
  periodYear "before" 1789 1799 < periodYear "prelude" 1789 1799 ∧
  periodYear "prelude" 1789 1799 < periodYear "during" 1789 1799 ∧
  periodYear "during" 1789 1799 < periodYear "transition" 1789 1799 ∧
  periodYear "transition" 1789 1799 < periodYear "after" 1789 1799.
Proof. apply representative_years_increase. vm_compute; discriminate. Defined.
End EpochTable.

(** ** The values that [analyzeEventCTH] returns *)

Lemma outcome_indicator (s e : Q) (l : nat) (h0 : heap) (period name : string) :
  Qle_bool s e = true → closedData h0 (JRef l) = true → period ∈ periods →
  resultIndicator (analyzeEventCTH (JNum s) (JNum e) (JRef l) h0) period name
    = prop (completedObj s e period (callerIndicators h0 (JRef l) period)) name.
Proof.
  intros Hle Hclosed Hperiod.
  destruct (analyzeEventCTH_outcome s e l h0 Hle Hclosed) as (r & h' & -> & Hout).
  cbn [resultIndicator]. apply (Hout period Hperiod).
Qed.

Lemma outcome_score (s e : Q) (l : nat) (h0 : heap) (period : string) :
  Qle_bool s e = true → closedData h0 (JRef l) = true → period ∈ periods →
  resultScore (analyzeEventCTH (JNum s) (JNum e) (JRef l) h0) period
    = scoreOf (completedObj s e period (callerIndicators h0 (JRef l) period)).
Proof.
  intros Hle Hclosed Hperiod.
  destruct (analyzeEventCTH_outcome s e l h0 Hle Hclosed) as (r & h' & -> & Hout).
  cbn [resultScore]. apply (Hout period Hperiod).
Qed.

(** X18: A number that the caller supplied for one of the nine indicators comes
    back clamped to the domain of the indicator. *)
Theorem supplied_number_is_clamped
    (s e : Q) (l : nat) (h0 : heap) (period name : string) (q : Q) :
  Qle_bool s e = true → closedData h0 (JRef l) = true →
  period ∈ periods → name ∈ allIndicatorNames →
  prop (callerIndicators h0 (JRef l) period) name = JNum q →
  resultIndicator (analyzeEventCTH (JNum s) (JNum e) (JRef l) h0) period name
    = JNum (clamp (min (limits_of name)) (max (limits_of name)) q).
Proof.
  intros Hle Hclosed Hperiod Hname Hq.
  rewrite outcome_indicator, completedObj_prop, Hq by assumption.
  cbn [nullish]. destruct (limits_known name Hname) as (lim & Hlim & -> & _).
  unfold applyLimits. rewrite Hlim. reflexivity.
Qed.

Lemma supplied_number_is_clamped_witness :
  resultIndicator (analyzeEventCTH (JNum 1789) (JNum 1799) (JRef 4) gapStore)
      "during" "gdpPerCapita"
    = JNum (clamp (min (limits_of "gdpPerCapita")) (max (limits_of "gdpPerCapita")) 4000).
Proof.
  apply supplied_number_is_clamped; try reflexivity.
  - unfold periods. repeat constructor.
  - in_names.
Defined.

(** X19: An indicator that the caller left out of a phase comes back as the
    value that the epoch of the phase's representative year has for it,
    whatever the other phases hold. *)
Theorem missing_indicator_is_seeded
    (s e : Q) (l : nat) (h0 : heap) (period name : string) :
  Qle_bool s e = true → closedData h0 (JRef l) = true →
  period ∈ periods → name ∈ allIndicatorNames →
  nullish (prop (callerIndicators h0 (JRef l) period) name) = true →
  resultIndicator (analyzeEventCTH (JNum s) (JNum e) (JRef l) h0) period name
    = prop (getEpochDataForYear (periodYear period s e)) name.
Proof.
  intros Hle Hclosed Hperiod Hname Hmissing.
  rewrite outcome_indicator, completedObj_prop, Hmissing by assumption.
  apply epoch_seed_within_limits, Hname.
Qed.

Lemma missing_indicator_is_seeded_witness :
  resultIndicator (analyzeEventCTH (JNum 1789) (JNum 1799) (JRef 4) gapStore)
      "transition" "literacyRate"
    = prop (getEpochDataForYear (periodYear "transition" 1789 1799)) "literacyRate".
Proof.
  apply missing_indicator_is_seeded; try reflexivity.
  - unfold periods. repeat constructor.
  - in_names.
Defined.

(** X20: A property of the caller's indicators object that is not one of the
    nine indicators is copied to the result as it is. *)
Theorem other_properties_pass_through
    (s e : Q) (l : nat) (h0 : heap) (period name : string) :
  Qle_bool s e = true → closedData h0 (JRef l) = true →
  period ∈ periods → name ∉ allIndicatorNames →
  resultIndicator (analyzeEventCTH (JNum s) (JNum e) (JRef l) h0) period name
    = prop (callerIndicators h0 (JRef l) period) name.
Proof.
  intros Hle Hclosed Hperiod Hname.
  rewrite outcome_indicator, completedObj_other by assumption. reflexivity.
Qed.

Lemma other_properties_pass_through_witness :
  resultIndicator (analyzeEventCTH (JNum 1789) (JNum 1799) (JRef 2) notedStore)
      "during" "population"
    = JNum 28000000.
Proof.
  rewrite other_properties_pass_through; try reflexivity.
  - unfold periods. repeat constructor.
  - intros H. apply list_elem_of_In in H. simpl in H.
    repeat (destruct H as [H|H]; [discriminate H|]). exact H.
Defined.

(** X21: The result for a phase is determined by what the caller supplied for
    that phase and by the epoch snapshot of its representative year: two
    calls that agree on these agree on the indicators and on the score of
    the phase, whatever the other phases hold. *)
Theorem phase_result_determined
    (s e s' e' : Q) (l l' : nat) (h0 h0' : heap) (period : string) :
  Qle_bool s e = true → Qle_bool s' e' = true →
  closedData h0 (JRef l) = true → closedData h0' (JRef l') = true →
  period ∈ periods →
  callerIndicators h0 (JRef l) period = callerIndicators h0' (JRef l') period →
  getEpochDataForYear (periodYear period s e)
    = getEpochDataForYear (periodYear period s' e') →
  resultScore (analyzeEventCTH (JNum s) (JNum e) (JRef l) h0) period
    = resultScore (analyzeEventCTH (JNum s') (JNum e') (JRef l') h0') period ∧
  ∀ name,
    resultIndicator (analyzeEventCTH (JNum s) (JNum e) (JRef l) h0) period name
      = resultIndicator (analyzeEventCTH (JNum s') (JNum e') (JRef l') h0') period name.
Proof.
  intros Hle Hle' Hc Hc' Hperiod Hsame Hepoch.
  assert (Hobj : completedObj s e period (callerIndicators h0 (JRef l) period)
                 = completedObj s' e' period (callerIndicators h0' (JRef l') period)).
  { unfold completedObj. rewrite Hsame, Hepoch. reflexivity. }
  split.
  - rewrite !outcome_score, Hobj by assumption. reflexivity.
  - intros name. rewrite !outcome_indicator, Hobj by assumption. reflexivity.
Qed.

Lemma phase_result_determined_witness :
  resultScore (analyzeEventCTH (JNum 1789) (JNum 1799) (JRef 4) gapStore) "after"
    = resultScore (analyzeEventCTH (JNum 1795) (JNum 1800) (JRef 2) nanStore) "after" ∧
  ∀ name,
    resultIndicator (analyzeEventCTH (JNum 1789) (JNum 1799) (JRef 4) gapStore)
        "after" name
      = resultIndicator (analyzeEventCTH (JNum 1795) (JNum 1800) (JRef 2) nanStore)
          "after" name.
Proof.
  apply phase_result_determined; try reflexivity.
  unfold periods. repeat constructor.
Defined.

(** X22: For a phase with all nine indicators supplied, the returned score is
    the score of the supplied indicators: neither the years nor the epoch
    table have a part in it. *)
Theorem fully_specified_phase_score
    (s e : Q) (l : nat) (h0 : heap) (period : string) :
  Qle_bool s e = true → closedData h0 (JRef l) = true → period ∈ periods →
  fullySpecified h0 (JRef l) period = true →
  ∃ q, calculateCTHFromIndicators
         (Some (callerIndicators h0 (JRef l) period)) None = Some q ∧
       resultScore (analyzeEventCTH (JNum s) (JNum e) (JRef l) h0) period
         = JNum q.
Proof.
  intros Hle Hclosed Hperiod Hfull.
  rewrite outcome_score by assumption.
  rewrite score_of_supplied; [apply scoreOf_number|].
  intros name Hname. apply (fullySpecified_number _ _ _ _ Hfull Hname).
Qed.

Lemma fully_specified_phase_score_witness :
  ∃ q, calculateCTHFromIndicators
         (Some (callerIndicators duringStore (JRef 2) "during")) None = Some q ∧
       resultScore (analyzeEventCTH (JNum 2001) (JNum 2001) (JRef 2) duringStore)
         "during" = JNum q.
Proof.
  apply fully_specified_phase_score; try reflexivity.
  unfold periods. repeat constructor.
Defined.

(** X23: In the returned structure the score of each phase is the score of the
    indicators that the structure holds for that phase. *)
Theorem returned_score_matches_indicators (s e : Q) (l : nat) (h0 : heap) :
  Qle_bool s e = true →
  ∃ r h',
    analyzeEventCTH (JNum s) (JNum e) (JRef l) h0 = Ok r h' ∧
    Forall (fun period =>
              ∃ q, calculateCTHFromIndicators
                     (Some (callerIndicators h' r period)) None = Some q ∧
                   scoreIn h' r period = JNum q)
      periods.
Proof.
  intros Hle. eexists _, _. split; [apply run_analyzeEventCTH, Hle|].
  apply Forall_forall. intros period Hperiod.
  apply list_elem_of_lookup in Hperiod as [k Hk].
  rewrite (scoreIn_layout _ _ _ k period Hk), nth5_finalScores.
  rewrite (callerIndicators_layout _ _ _ k period Hk). apply scoreOf_number.
Qed.

Lemma returned_score_matches_indicators_witness :
  ∃ r h',
    analyzeEventCTH (JNum 1789) (JNum 1799) (JRef 2) nanStore = Ok r h' ∧
    Forall (fun period =>
              ∃ q, calculateCTHFromIndicators
                     (Some (callerIndicators h' r period)) None = Some q ∧
                   scoreIn h' r period = JNum q)
      periods.
Proof. apply returned_score_matches_indicators. reflexivity. Defined.

(** ** The pipeline called in place *)

Lemma completedObj_settled (s e s' e' : Q) (period : string) (m : obj) :
  completedObj s' e' period (completedObj s e period m) = completedObj s e period m.
Proof.
  set (m' := completedObj s e period m).
  assert (Hprop : ∀ name, name ∈ allIndicatorNames →
            prop m' name = applyLimits name
              (if nullish (prop m name) then epochSeed s e period name
               else prop m name)).
  { intros name Hname. apply completedObj_prop, Hname. }
  unfold completedObj at 1. rewrite seedObj_complete.
  - apply limitObj_limited. intros name Hname.
    rewrite (Hprop name Hname). apply applyLimits_idempotent.
  - intros name Hname. rewrite (Hprop name Hname), applyLimits_nullish.
    destruct (nullish (prop m name)) eqn:Hn; [|exact Hn].
    unfold epochSeed.
    destruct (epoch_value (periodYear period s e) name Hname) as [q ->].
    reflexivity.
Qed.

Lemma completedInds_settled (s e s' e' : Q) (ms : five obj) :
  completedInds s' e' (completedInds s e ms) = completedInds s e ms.
Proof.
  unfold completedInds, map5. cbn [at0 at1 at2 at3 at4].
  rewrite !completedObj_settled. reflexivity.
Qed.

(** X24: Called directly on a structure that [analyzeEventCTH] returned,
    [completeAndInferHistoricalData] does not throw and leaves the whole
    store as it is, whatever years it is given. *)
Theorem completeAndInfer_settled (s e s' e' : Q) (l : nat) (h0 : heap) :
  Qle_bool s e = true →
  ∃ r h1,
    analyzeEventCTH (JNum s) (JNum e) (JRef l) h0 = Ok r h1 ∧
    completeAndInferHistoricalData r s' e' h1 = Ok tt h1.
Proof.
  intros Hle. eexists _, _. split; [apply run_analyzeEventCTH, Hle|].
  rewrite run_completeAndInfer, completedInds_settled. reflexivity.
Qed.

Lemma completeAndInfer_settled_witness :
  ∃ r h1,
    analyzeEventCTH (JNum 1789) (JNum 1799) (JRef 4) gapStore = Ok r h1 ∧
    completeAndInferHistoricalData r 476 1453 h1 = Ok tt h1.
Proof. apply completeAndInfer_settled. reflexivity. Defined.

(** ** [calculateEVEI] *)

Section Evei.
Local Open Scope Q_scope.

Lemma unitValue_range (v : jsval) :
  (∀ l, v ≠ JRef l) → ∃ x, unitValue v = Some x ∧ 0 <= x ∧ x <= 1.
Proof.
  intros Hv. unfold unitValue.
  assert (Hnum : ∃ q, ToNumber (if truthy v then v else JNum 0) = Some q).
  { destruct v as [| |b|q| |l]; cbn [truthy ToNumber]; try (eexists; reflexivity).
    - destruct b; eexists; reflexivity.
    - destruct (negb (Qeq_bool q 0)); eexists; reflexivity.
    - exfalso. apply (Hv l). reflexivity. }
  destruct Hnum as [q ->]. cbn [num_min num_max].
  eexists. split; [reflexivity|]. apply (clamp_in_range 0 1 q). lra.
Qed.

Lemma eveiInputs_range (d : obj) (k : string) :
  eveiInputsPrimitive d = true →
  k ∈ ["CTHIndex"; "indicatorA"; "indicatorB"; "indicatorC"]%string →
  ∃ x, unitValue (prop d k) = Some x ∧ 0 <= x ∧ x <= 1.
Proof.
  intros Hd Hk. apply unitValue_range. intros l Hl.
  unfold eveiInputsPrimitive in Hd. rewrite forallb_forall in Hd.
  specialize (Hd k (proj1 (list_elem_of_In _ _) Hk)). rewrite Hl in Hd.
  discriminate Hd.
Qed.

Lemma calculateEVEI_value (d : obj) (w : gmap string num) (a b c e : Q) :
  eveiInputsPrimitive d = true →
  weightOf (w ∪ EVEI_DEFAULT_WEIGHTS) "wCTH" = Some a →
  weightOf (w ∪ EVEI_DEFAULT_WEIGHTS) "wA" = Some b →
  weightOf (w ∪ EVEI_DEFAULT_WEIGHTS) "wB" = Some c →
  weightOf (w ∪ EVEI_DEFAULT_WEIGHTS) "wC" = Some e →
  ∃ x1 x2 x3 x4,
    (0 <= x1 <= 1) ∧ (0 <= x2 <= 1) ∧ (0 <= x3 <= 1) ∧ (0 <= x4 <= 1) ∧
    value (calculateEVEI d w) =
      if negb (Qeq_bool (a + b + c + e) 0)
      then (if Qeq_bool (a + b + c + e) 0 then None
            else Some ((a * x1 + b * x2 + c * x3 + e * x4) / (a + b + c + e)))
      else Some (a * x1 + b * x2 + c * x3 + e * x4).
Proof.
  intros Hd Ha Hb Hc He.
  destruct (eveiInputs_range d "CTHIndex" Hd) as (x1 & E1 & R1); [repeat constructor|].
  destruct (eveiInputs_range d "indicatorA" Hd) as (x2 & E2 & R2); [repeat constructor|].
  destruct (eveiInputs_range d "indicatorB" Hd) as (x3 & E3 & R3); [repeat constructor|].
  destruct (eveiInputs_range d "indicatorC" Hd) as (x4 & E4 & R4); [repeat constructor|].
  exists x1, x2, x3, x4. repeat (split; [tauto|]).
  unfold calculateEVEI. cbn [value].
  rewrite Ha, Hb, Hc, He, E1, E2, E3, E4. reflexivity.
Qed.

(** X25: With weights that are not negative and have a positive sum, and inputs
    that are not objects, the EVEI is a number of the unit interval,
    bracketed by its uncertainty range. *)
Theorem calculateEVEI_unit_interval
    (d : obj) (w : gmap string num) (a b c e : Q) :
  eveiInputsPrimitive d = true →
  weightOf (w ∪ EVEI_DEFAULT_WEIGHTS) "wCTH" = Some a →
  weightOf (w ∪ EVEI_DEFAULT_WEIGHTS) "wA" = Some b →
  weightOf (w ∪ EVEI_DEFAULT_WEIGHTS) "wB" = Some c →
  weightOf (w ∪ EVEI_DEFAULT_WEIGHTS) "wC" = Some e →
  0 <= a → 0 <= b → 0 <= c → 0 <= e → 0 < a + b + c + e →
  ∃ v lo up,
    value (calculateEVEI d w) = Some v ∧ 0 <= v ∧ v <= 1 ∧
    lower (calculateEVEI d w) = Some lo ∧ upper (calculateEVEI d w) = Some up ∧
    lo <= v ∧ v <= up.
Proof.
  intros Hd Ha Hb Hc He Ha0 Hb0 Hc0 He0 Hpos.
  destruct (calculateEVEI_value d w a b c e Hd Ha Hb Hc He)
    as (x1 & x2 & x3 & x4 & Hx1 & Hx2 & Hx3 & Hx4 & Hval).
  rewrite nonzero_test in Hval by lra. cbn [negb] in Hval.
  set (v := (a * x1 + b * x2 + c * x3 + e * x4) / (a + b + c + e)) in *.
  assert (Hv0 : 0 <= v) by (apply Qle_shift_div_l; [exact Hpos | nra]).
  assert (Hv1 : v <= 1) by (apply Qle_shift_div_r; [exact Hpos | nra]).
  exists v, (v * 0.9), (v * 1.1).
  split; [exact Hval|]. split; [exact Hv0|]. split; [exact Hv1|].
  assert (Hlow : lower (calculateEVEI d w) = num_mul (value (calculateEVEI d w)) (Some 0.9))
    by reflexivity.
  assert (Hup : upper (calculateEVEI d w) = num_mul (value (calculateEVEI d w)) (Some 1.1))
    by reflexivity.
  rewrite Hlow, Hup, Hval. cbn [num_mul].
  split; [reflexivity|]. split; [reflexivity|]. split; lra.
Qed.

Lemma calculateEVEI_unit_interval_witness :
  ∃ v lo up,
    value (calculateEVEI (fields eventStore (JRef 5)) ∅) = Some v ∧ 0 <= v ∧ v <= 1 ∧
    lower (calculateEVEI (fields eventStore (JRef 5)) ∅) = Some lo ∧
    upper (calculateEVEI (fields eventStore (JRef 5)) ∅) = Some up ∧
    lo <= v ∧ v <= up.
Proof.
  apply (calculateEVEI_unit_interval _ ∅ 0.4 0.2 0.25 0.35);
    try reflexivity; vm_compute; discriminate.
Defined.

(** X26: When the four weights are all 0 the weight sum is 0, no quotient is
    taken and the EVEI is 0, not NaN. *)
Theorem calculateEVEI_zero_weights (d : obj) (w : gmap string num) :
  eveiInputsPrimitive d = true →
  weightOf (w ∪ EVEI_DEFAULT_WEIGHTS) "wCTH" = Some 0 →
  weightOf (w ∪ EVEI_DEFAULT_WEIGHTS) "wA" = Some 0 →
  weightOf (w ∪ EVEI_DEFAULT_WEIGHTS) "wB" = Some 0 →
  weightOf (w ∪ EVEI_DEFAULT_WEIGHTS) "wC" = Some 0 →
  ∃ v, value (calculateEVEI d w) = Some v ∧ v == 0.
Proof.
  intros Hd Ha Hb Hc He.
  destruct (calculateEVEI_value d w 0 0 0 0 Hd Ha Hb Hc He)
    as (x1 & x2 & x3 & x4 & _ & _ & _ & _ & Hval).
  change (Qeq_bool (0 + 0 + 0 + 0) 0) with true in Hval. cbn [negb] in Hval.
  eexists. split; [exact Hval|]. ring.
Qed.

Lemma calculateEVEI_zero_weights_witness :
  ∃ v, value (calculateEVEI (fields eventStore (JRef 5))
                (list_to_map [("wCTH", Some 0); ("wA", Some 0);
                              ("wB", Some 0); ("wC", Some 0)])) = Some v ∧
       v == 0.
Proof. apply calculateEVEI_zero_weights; reflexivity. Defined.

End Evei.


(** ** [calculateMargins] *)

Section Margins.
Local Open Scope Q_scope.


Lemma tryCatch_ok {A} (body : M A) (handler : string → M A) (h h' : heap) (a : A) :
  body h = Ok a h' → tryCatch body handler h = Ok a h'.
Proof. intros H. unfold tryCatch. rewrite H. reflexivity. Qed.

Lemma getProp_defined (v : jsval) (k : string) (h : heap) :
  nullish v = false → getProp v k h = Ok (prop (fields h v) k) h.
Proof. destruct v; try discriminate; reflexivity. Qed.

Lemma run_addPhaseIndex (h0 : heap) (ms : five obj) (w : gmap string num)
    (evei : num) (k : nat) (phase : string) (acc : gmap string num) :
  periods !! k = Some phase →
  addPhaseIndex w evei (JRef (tdLoc (length h0))) phase acc
      (layout h0 ms (finalScores ms))
    = Ok (<[phase := calculatePhaseIndex w evei (scoreOf (nth5 ms k)) phase]> acc)
         (layout h0 ms (finalScores ms)).
Proof.
  intros Hk. pose proof (period_index k phase Hk) as [Hlt _].
  unfold addPhaseIndex.
  eapply bind_run; [apply (read_td h0 _ _ k phase Hk)|]. cbn [truthy].
  eapply bind_run; [apply read_period_cth, Hlt|].
  rewrite nth5_finalScores. reflexivity.
Qed.

Lemma run_calculateMargins (h0 : heap) (eventData : jsval) (s e : Q) (l : nat)
    (w : gmap string num) :
  nullish eventData = false →
  prop (fields h0 eventData) "eventStartYear" = JNum s →
  prop (fields h0 eventData) "eventEndYear" = JNum e →
  prop (fields h0 eventData) "historicalData" = JRef l →
  Qle_bool s e = true →
  weightsOffBalance (marginsWeightSum w) = false →
  let ms := completedInds s e (copiedInputs h0 (JRef l)) in
  let h1 := layout h0 ms (finalScores ms) in
  calculateMargins eventData w h0
    = Ok (Some (marginsOf
                  (indicesOf (w ∪ MARGINS_DEFAULT_WEIGHTS)
                     (value (calculateEVEI (fields h1 eventData) ∅)) ms)))
         h1.
Proof.
  intros Hnn Hs He Hd Hle Hbal ms h1.
  unfold calculateMargins. fold (marginsWeightSum w). rewrite Hbal.
  eapply bind_run.
  { apply tryCatch_ok.
    eapply bind_run; [apply getProp_defined, Hnn|]. rewrite Hs.
    eapply bind_run; [apply getProp_defined, Hnn|]. rewrite He.
    eapply bind_run; [apply getProp_defined, Hnn|]. rewrite Hd.
    eapply bind_run; [apply run_analyzeEventCTH, Hle|]. reflexivity. }
  cbn [truthy]. fold ms. fold h1.
  eapply bind_run.
  { apply tryCatch_ok. destruct eventData; try discriminate Hnn; reflexivity. }
  cbv beta iota.
  eapply bind_run; [apply (run_addPhaseIndex h0 ms _ _ 0 "before"); reflexivity|].
  eapply bind_run; [apply (run_addPhaseIndex h0 ms _ _ 1 "prelude"); reflexivity|].
  eapply bind_run; [apply (run_addPhaseIndex h0 ms _ _ 2 "during"); reflexivity|].
  eapply bind_run; [apply (run_addPhaseIndex h0 ms _ _ 3 "transition"); reflexivity|].
  eapply bind_run; [apply (run_addPhaseIndex h0 ms _ _ 4 "after"); reflexivity|].
  reflexivity.
Qed.

Lemma calculateMargins_unbalanced (h0 : heap) (eventData : jsval) (w : gmap string num) :
  weightsOffBalance (marginsWeightSum w) = true →
  calculateMargins eventData w h0 = Ok None h0.
Proof.
  intros Hbal. unfold calculateMargins. fold (marginsWeightSum w).
  rewrite Hbal. reflexivity.
Qed.

Lemma calculateMargins_no_event (h0 : heap) (eventData : jsval) (w : gmap string num) :
  weightsOffBalance (marginsWeightSum w) = false → nullish eventData = true →
  calculateMargins eventData w h0 = Ok None h0.
Proof.
  intros Hbal Hnull. unfold calculateMargins. fold (marginsWeightSum w).
  rewrite Hbal. destruct eventData; try discriminate Hnull; reflexivity.
Qed.

Lemma calculateMargins_rejected (h0 : heap) (eventData : jsval) (w : gmap string num) :
  weightsOffBalance (marginsWeightSum w) = false → nullish eventData = false →
  structurallyInvalid (prop (fields h0 eventData) "eventStartYear")
    (prop (fields h0 eventData) "eventEndYear")
    (prop (fields h0 eventData) "historicalData") →
  calculateMargins eventData w h0 = Ok None h0.
Proof.
  intros Hbal Hnn Hinv. unfold calculateMargins. fold (marginsWeightSum w).
  rewrite Hbal.
  eapply bind_run.
  { apply tryCatch_ok.
    eapply bind_run; [apply getProp_defined, Hnn|].
    eapply bind_run; [apply getProp_defined, Hnn|].
    eapply bind_run; [apply getProp_defined, Hnn|].
    eapply bind_run; [apply analyzeEventCTH_rejects, Hinv|]. reflexivity. }
  reflexivity.
Qed.

(** X27: [calculateMargins] never throws and leaves the objects of the caller's
    store as they were.  For weights none of which is negative and whose
    sum is not within rounding of the two thresholds, it returns [null]
    exactly when the sum of the weights is farther than 0.001 from 1, when
    there is no event object, or when the years and the historical data
    of the event are not accepted by [analyzeEventCTH]. *)
Theorem calculateMargins_null_iff
    (h0 : heap) (eventData : jsval) (w : gmap string num) :
  ∃ r h',
    calculateMargins eventData w h0 = Ok r h' ∧
    take (length h0) h' = h0 ∧
    (clearWeights w →
     (r = None ↔
      weightsOffBalance (marginsWeightSum w) = true ∨
      nullish eventData = true ∨
      structurallyInvalid (prop (fields h0 eventData) "eventStartYear")
        (prop (fields h0 eventData) "eventEndYear")
        (prop (fields h0 eventData) "historicalData"))).
Proof.
  destruct (weightsOffBalance (marginsWeightSum w)) eqn:Hbal.
  { exists None, h0. split; [apply calculateMargins_unbalanced, Hbal|].
    split; [apply firstn_all|]. intros _.
    split; [left; reflexivity | reflexivity]. }
  destruct (nullish eventData) eqn:Hnn.
  { exists None, h0. split; [apply calculateMargins_no_event; assumption|].
    split; [apply firstn_all|]. intros _.
    split; [right; left; reflexivity | reflexivity]. }
  destruct (structurallyInvalid_dec (prop (fields h0 eventData) "eventStartYear")
              (prop (fields h0 eventData) "eventEndYear")
              (prop (fields h0 eventData) "historicalData")) as [Hinv|Hvalid].
  { exists None, h0. split; [apply calculateMargins_rejected; assumption|].
    split; [apply firstn_all|]. intros _.
    split; [right; right; exact Hinv | reflexivity]. }
  destruct (structurally_valid _ _ _ Hvalid) as (s & e & l & Hs & He & Hd & Hle).
  eexists _, _.
  split; [apply (run_calculateMargins h0 eventData s e l w); assumption|].
  split; [apply take_app_length|]. intros _.
  split; [discriminate|]. intros [H|[H|H]]; [discriminate H | discriminate H | contradiction].
Qed.

Lemma calculateMargins_null_iff_witness :
  clearWeights (<["evei" := Some 0.5]> ∅) ∧
  ∃ h', calculateMargins (JRef 5) (<["evei" := Some 0.5]> ∅) eventStore = Ok None h'.
Proof.
  assert (Hclear : clearWeights (<["evei" := Some 0.5]> ∅)).
  { exists 0.5, 0.4, 0.2. repeat split; try reflexivity; discriminate. }
  split; [exact Hclear|].
  destruct (calculateMargins_null_iff eventStore (JRef 5) (<["evei" := Some 0.5]> ∅))
    as (r & h' & Hrun & _ & Hnull).
  exists h'. rewrite Hrun. f_equal. apply (Hnull Hclear). left. reflexivity.
Defined.



Lemma indicesOf_lookup (w : gmap string num) (evei : num) (ms : five obj)
    (k : nat) (phase : string) :
  periods !! k = Some phase →
  indicesOf w evei ms !! phase
    = Some (calculatePhaseIndex w evei (scoreOf (nth5 ms k)) phase).
Proof.
  intros Hk. unfold indicesOf.
  destruct k as [|[|[|[|[|k]]]]]; simpl in Hk; inversion Hk; subst phase;
    by simplify_map_eq.
Qed.

Lemma phaseIndices_marginsOf (pi : gmap string num) :
  phaseIndices (marginsOf pi) = pi.
Proof. unfold marginsOf. destruct (Qeq_bool _ 0); reflexivity. Qed.

Lemma evei_default_range (d : obj) :
  eveiInputsPrimitive d = true →
  ∃ v, value (calculateEVEI d ∅) = Some v ∧ 0 <= v ∧ v <= 1.
Proof.
  intros Hd.
  destruct (calculateEVEI_value d ∅ 0.4 0.2 0.25 0.35 Hd)
    as (x1 & x2 & x3 & x4 & Hx1 & Hx2 & Hx3 & Hx4 & Hval); try reflexivity.
  change (Qeq_bool (0.4 + 0.2 + 0.25 + 0.35) 0) with false in Hval.
  cbn [negb] in Hval. eexists. split; [exact Hval|].
  split; [apply Qle_shift_div_l; [reflexivity | nra]
         | apply Qle_shift_div_r; [reflexivity | nra]].
Qed.

Lemma phase_index_default (v c : Q) (phase : string) :
  phase ∈ periods →
  calculatePhaseIndex (∅ ∪ MARGINS_DEFAULT_WEIGHTS) (Some v) (JNum c) phase
    = Some (0.4 * v + 0.4 * c + 0.2 * 0.5).
Proof. intros Hp. each_name Hp; reflexivity. Qed.

Lemma default_index (ms : five obj) (v : Q) (k : nat) (phase : string) :
  0 <= v → v <= 1 → periods !! k = Some phase →
  ∃ i, indicesOf (∅ ∪ MARGINS_DEFAULT_WEIGHTS) (Some v) ms !! phase = Some (Some i) ∧
       indexOrZero (indicesOf (∅ ∪ MARGINS_DEFAULT_WEIGHTS) (Some v) ms) phase = i ∧
       0.1 <= i ∧ i <= 0.9.
Proof.
  intros Hv0 Hv1 Hk.
  destruct (scoreOf_isScore (nth5 ms k)) as (c & Hc & Hc0 & Hc1).
  exists (0.4 * v + 0.4 * c + 0.2 * 0.5).
  assert (Hlook : indicesOf (∅ ∪ MARGINS_DEFAULT_WEIGHTS) (Some v) ms !! phase
                  = Some (Some (0.4 * v + 0.4 * c + 0.2 * 0.5))).
  { rewrite (indicesOf_lookup _ _ _ k) by exact Hk. rewrite Hc.
    rewrite phase_index_default; [reflexivity|].
    apply list_elem_of_lookup. exists k. exact Hk. }
  split; [exact Hlook|]. split; [|lra].
  unfold indexOrZero. rewrite Hlook. rewrite nonzero_test; [reflexivity | lra].
Qed.

(** X29: With the default weights, an event that [analyzeEventCTH] accepts and
    whose EVEI inputs are not objects gets five phase indices between 0.1
    and 0.9, the macromargin is the sum of the indices of the two outer
    phases and the micromargin the sum of the three inner ones, and both
    percentages are positive and add up to 100. *)
Theorem calculateMargins_default_weights
    (h0 : heap) (eventData : jsval) (s e : Q) (l : nat) :
  acceptedEvent h0 eventData s e l →
  eveiInputsPrimitive (fields h0 eventData) = true →
  ∃ res h',
    calculateMargins eventData ∅ h0 = Ok (Some res) h' ∧
    (∀ phase, phase ∈ periods →
       ∃ i, phaseIndices res !! phase = Some (Some i) ∧ 0.1 <= i ∧ i <= 0.9) ∧
    macromargin res
      = indexOrZero (phaseIndices res) "before"
        + indexOrZero (phaseIndices res) "after" ∧
    micromargin res
      = indexOrZero (phaseIndices res) "prelude"
        + indexOrZero (phaseIndices res) "during"
        + indexOrZero (phaseIndices res) "transition" ∧
    0 < macromarginPercentage res ∧ 0 < micromarginPercentage res ∧
    macromarginPercentage res + micromarginPercentage res == 100.
Proof.
  intros (Hin & Hnn & Hs & He & Hd & Hle) Hprim.
  eexists _, _.
  split; [apply (run_calculateMargins h0 eventData s e l ∅);
          [assumption .. | reflexivity]|].
  unfold layout. rewrite fields_app by exact Hin.
  destruct (evei_default_range _ Hprim) as (v & -> & Hv0 & Hv1).
  set (ms := completedInds s e (copiedInputs h0 (JRef l))).
  set (pi := indicesOf (∅ ∪ MARGINS_DEFAULT_WEIGHTS) (Some v) ms).
  destruct (default_index ms v 0 "before" Hv0 Hv1 eq_refl) as (i0 & L0 & Z0 & R0).
  destruct (default_index ms v 1 "prelude" Hv0 Hv1 eq_refl) as (i1 & L1 & Z1 & R1).
  destruct (default_index ms v 2 "during" Hv0 Hv1 eq_refl) as (i2 & L2 & Z2 & R2).
  destruct (default_index ms v 3 "transition" Hv0 Hv1 eq_refl) as (i3 & L3 & Z3 & R3).
  destruct (default_index ms v 4 "after" Hv0 Hv1 eq_refl) as (i4 & L4 & Z4 & R4).
  fold pi in L0, L1, L2, L3, L4, Z0, Z1, Z2, Z3, Z4.
  rewrite phaseIndices_marginsOf.
  split.
  { intros phase Hp.
    each_name Hp; eexists; (split; [eassumption | assumption]). }
  unfold marginsOf. rewrite Z0, Z1, Z2, Z3, Z4.
  rewrite (nonzero_test (i0 + i4 + (i1 + i2 + i3))) by lra.
  cbn [macromargin micromargin macromarginPercentage micromarginPercentage].
  split; [reflexivity|]. split; [reflexivity|].
  assert (Hmacro : 0 < (i0 + i4) / (i0 + i4 + (i1 + i2 + i3)))
    by (apply Qlt_shift_div_l; lra).
  assert (Hmicro : 0 < (i1 + i2 + i3) / (i0 + i4 + (i1 + i2 + i3)))
    by (apply Qlt_shift_div_l; lra).
  split; [lra|]. split; [lra|]. field. lra.
Qed.

Lemma calculateMargins_default_weights_witness :
  ∃ res h',
    calculateMargins (JRef 5) ∅ eventStore = Ok (Some res) h' ∧
    0 < macromarginPercentage res ∧ 0 < micromarginPercentage res.
Proof.
  destruct (calculateMargins_default_weights eventStore (JRef 5) 1789 1799 4)
    as (res & h' & Hrun & _ & _ & _ & Hmacro & Hmicro & _).
  - repeat split; reflexivity.
  - reflexivity.
  - exists res, h'. repeat split; assumption.
Defined.

Lemma nan_phase_index (w : gmap string num) (evei : num) (c : jsval) (phase : string) :
  weightOf w "evei" = None ∨ weightOf w "cth" = None ∨ weightOf w "fp" = None →
  calculatePhaseIndex w evei c phase = None.
Proof.
  intros H. unfold calculatePhaseIndex.
  destruct (weightOf w "evei"), (weightOf w "cth"), (weightOf w "fp"),
    evei, (ToNumber c); try reflexivity;
    destruct H as [H|[H|H]]; discriminate H.
Qed.

Lemma nan_index (w : gmap string num) (evei : num) (ms : five obj)
    (k : nat) (phase : string) :
  weightOf w "evei" = None ∨ weightOf w "cth" = None ∨ weightOf w "fp" = None →
  periods !! k = Some phase →
  indicesOf w evei ms !! phase = Some None ∧
  indexOrZero (indicesOf w evei ms) phase = 0.
Proof.
  intros Hw Hk.
  assert (Hlook : indicesOf w evei ms !! phase = Some None).
  { rewrite (indicesOf_lookup _ _ _ k) by exact Hk.
    rewrite nan_phase_index by exact Hw. reflexivity. }
  split; [exact Hlook|]. unfold indexOrZero. rewrite Hlook. reflexivity.
Qed.

(** X30: A weight that is NaN passes the check of the weight sum: for an event
    that [analyzeEventCTH] accepts the result is not [null] but the record
    with margins and percentages 0, in which all five phase indices are
    NaN. *)
Theorem calculateMargins_nan_weight
    (h0 : heap) (eventData : jsval) (s e : Q) (l : nat) (w : gmap string num) :
  acceptedEvent h0 eventData s e l →
  weightOf (w ∪ MARGINS_DEFAULT_WEIGHTS) "evei" = None ∨
  weightOf (w ∪ MARGINS_DEFAULT_WEIGHTS) "cth" = None ∨
  weightOf (w ∪ MARGINS_DEFAULT_WEIGHTS) "fp" = None →
  ∃ res h',
    calculateMargins eventData w h0 = Ok (Some res) h' ∧
    macromargin res = 0 ∧ micromargin res = 0 ∧
    macromarginPercentage res = 0 ∧ micromarginPercentage res = 0 ∧
    ∀ phase, phase ∈ periods → phaseIndices res !! phase = Some None.
Proof.
  intros (Hin & Hnn & Hs & He & Hd & Hle) Hw.
  assert (Hbal : weightsOffBalance (marginsWeightSum w) = false).
  { unfold marginsWeightSum.
    destruct (weightOf (w ∪ MARGINS_DEFAULT_WEIGHTS) "evei"),
      (weightOf (w ∪ MARGINS_DEFAULT_WEIGHTS) "cth"),
      (weightOf (w ∪ MARGINS_DEFAULT_WEIGHTS) "fp"); try reflexivity;
      destruct Hw as [H|[H|H]]; discriminate H. }
  eexists _, _.
  split; [apply (run_calculateMargins h0 eventData s e l w); assumption|].
  set (ms := completedInds s e (copiedInputs h0 (JRef l))).
  set (pi := indicesOf _ _ ms).
  destruct (nan_index _ (value (calculateEVEI (fields (layout h0 ms (finalScores ms)) eventData) ∅)) ms 0 "before" Hw eq_refl) as (L0 & Z0).
  destruct (nan_index _ (value (calculateEVEI (fields (layout h0 ms (finalScores ms)) eventData) ∅)) ms 1 "prelude" Hw eq_refl) as (L1 & Z1).
  destruct (nan_index _ (value (calculateEVEI (fields (layout h0 ms (finalScores ms)) eventData) ∅)) ms 2 "during" Hw eq_refl) as (L2 & Z2).
  destruct (nan_index _ (value (calculateEVEI (fields (layout h0 ms (finalScores ms)) eventData) ∅)) ms 3 "transition" Hw eq_refl) as (L3 & Z3).
  destruct (nan_index _ (value (calculateEVEI (fields (layout h0 ms (finalScores ms)) eventData) ∅)) ms 4 "after" Hw eq_refl) as (L4 & Z4).
  fold pi in L0, L1, L2, L3, L4, Z0, Z1, Z2, Z3, Z4.
  rewrite phaseIndices_marginsOf.
  unfold marginsOf. rewrite Z0, Z1, Z2, Z3, Z4.
  change (Qeq_bool (0 + 0 + (0 + 0 + 0)) 0) with true. cbv iota.
  cbn [macromargin micromargin macromarginPercentage micromarginPercentage].
  repeat (split; [reflexivity|]).
  intros phase Hp. each_name Hp; assumption.
Qed.

Lemma calculateMargins_nan_weight_witness :
  ∃ res h',
    calculateMargins (JRef 5) (<["evei" := None]> ∅) eventStore = Ok (Some res) h' ∧
    macromargin res = 0 ∧ micromargin res = 0.
Proof.
  destruct (calculateMargins_nan_weight eventStore (JRef 5) 1789 1799 4
              (<["evei" := None]> ∅))
    as (res & h' & Hrun & Hmacro & Hmicro & _).
  - repeat split; reflexivity.
  - left. reflexivity.
  - exists res, h'. repeat split; assumption.
Defined.
End Margins.
